(** * Identity, session and authorization subsystem of the warehouse
      administration backend

    A shallow embedding of the Express server: the shared schema, the two
    storage back ends ([DatabaseStorage] over the relational store and
    [MemStorage] over in-process maps), the authentication middleware, the
    OIDC login and callback handlers, and the REST routes that mutate
    warehouses, inventory, tables and user roles.

    Handlers are written in a small state-and-exception monad: an
    [await]ed storage call either returns a value or throws, and the
    store keeps whatever was written before a throw. *)

From stdpp Require Import gmap strings list pretty.
From Stdlib Require Import ZArith Lia Sorting.Sorted.

Open Scope string_scope.
Open Scope Z_scope.

(* ===================================================================== *)
(** ** JavaScript values the handlers touch *)
(* ===================================================================== *)

(** [Date] values, as milliseconds since the epoch. *)
Definition Time := Z.

(** A JavaScript value of the JSON shape ([req.body], [metadata]
    columns), with [undefined] for a property that was set to it.  An
    object is its list of properties; a later binding of a key shadows an
    earlier one, as in [JSON.parse] and in object spread. *)
#[warnings="-register-all"]
Inductive Json : Type :=
| JUndefined
| JNull
| JBool (b : bool)
| JNum (n : Z)
| JStr (s : string)
| JArr (items : list Json)
| JObj (props : list (string * Json)).

Fixpoint obj_get (k : string) (props : list (string * Json)) : option Json :=
  match props with
  | [] => None
  | (k', v) :: rest =>
      match obj_get k rest with
      | Some later => Some later
      | None => if String.eqb k k' then Some v else None
      end
  end.

Fixpoint index_props (i : nat) (items : list Json) : list (string * Json) :=
  match items with
  | [] => []
  | v :: rest => (pretty i, v) :: index_props (S i) rest
  end.

(** [{...value}]: the own enumerable properties of [value]. *)
Definition spread (value : Json) : list (string * Json) :=
  match value with
  | JObj props => props
  | JArr items => index_props 0 items
  | _ => []
  end.

(** [x || null] on an optional string: [undefined], [null] and the empty
    string are all falsy. *)
Definition or_null (x : option string) : option string :=
  match x with
  | Some "" => None
  | other => other
  end.

(** [x ?? fallback]: [null] and [undefined] give way to the fallback. *)
Definition nullish_or (fallback : Json) (x : option Json) : Json :=
  match x with
  | None | Some JUndefined | Some JNull => fallback
  | Some value => value
  end.

(** [!x] on an optional string. *)
Definition falsy (x : option string) : bool :=
  match or_null x with
  | None => true
  | Some _ => false
  end.

(** Thrown values.  [JsError] is [new Error(message)]; [ZodError] is a
    schema validation failure, kept by the code of its first issue (the
    real message is the serialised issue list); [ExternalError] stands
    for a failure raised by a collaborator (database driver, identity
    provider). *)
Inductive Exn : Type :=
| JsError (message : string)
| ZodError (message : string)
| ExternalError (message : string).

Definition exn_message (e : Exn) : string :=
  match e with
  | JsError m | ZodError m | ExternalError m => m
  end.

(* ===================================================================== *)
(** ** The handler monad *)
(* ===================================================================== *)

Inductive Outcome (A : Type) : Type :=
| Ok (a : A)
| Throw (e : Exn).
Arguments Ok {A} a.
Arguments Throw {A} e.

Definition M (St A : Type) : Type := St -> Outcome A * St.

Definition ret {St A} (a : A) : M St A := fun s => (Ok a, s).

Definition throw {St A} (e : Exn) : M St A := fun s => (Throw e, s).

Definition bind {St A B} (m : M St A) (k : A -> M St B) : M St B :=
  fun s =>
    match m s with
    | (Ok a, s') => k a s'
    | (Throw e, s') => (Throw e, s')
    end.

(** [try { body } catch (error) { handler }]. *)
Definition try_catch {St A} (body : M St A) (handler : Exn -> M St A) : M St A :=
  fun s =>
    match body s with
    | (Ok a, s') => (Ok a, s')
    | (Throw e, s') => handler e s'
    end.

(** A synchronous computation that may throw, run inside a handler. *)
Definition lift_outcome {St A} (o : Outcome A) : M St A := fun s => (o, s).

Notation "'let*' x ':=' m 'in' k" := (bind m (fun x => k))
  (at level 10, x name, m at level 100, k at level 200).
Notation "m ';;;' k" := (bind m (fun _ => k))
  (at level 100, k at level 200, right associativity).

(* ===================================================================== *)
(** ** shared/schema.ts *)
(* ===================================================================== *)

Inductive UserRole : Type := super_admin | admin | manager | viewer.

Definition userRoles : list UserRole := [super_admin; admin; manager; viewer].

Global Instance UserRole_eq_dec : EqDecision UserRole.
Proof. solve_decision. Defined.

(** Roles are stored and compared as strings. *)
Definition role_name (r : UserRole) : string :=
  match r with
  | super_admin => "super_admin"
  | admin => "admin"
  | manager => "manager"
  | viewer => "viewer"
  end.

Record User : Type := mkUser {
  user_id : string;
  user_email : option string;
  user_firstName : option string;
  user_lastName : option string;
  user_profileImageUrl : option string;
  user_role : UserRole;
  user_createdAt : Time;
  user_updatedAt : Time
}.

(** [Pick<User, "id" | "email" | "firstName" | "lastName" | "profileImageUrl">] *)
Record UpsertUser : Type := mkUpsertUser {
  upsert_id : string;
  upsert_email : option string;
  upsert_firstName : option string;
  upsert_lastName : option string;
  upsert_profileImageUrl : option string
}.

Record UpdateUserRole : Type := mkUpdateUserRole { new_role : UserRole }.

(** [{ ...row, email, firstName, lastName, profileImageUrl, updatedAt }] *)
Definition set_profile (profile : UpsertUser) (now : Time) (row : User) : User :=
  {| user_id := user_id row;
     user_email := upsert_email profile;
     user_firstName := upsert_firstName profile;
     user_lastName := upsert_lastName profile;
     user_profileImageUrl := upsert_profileImageUrl profile;
     user_role := user_role row;
     user_createdAt := user_createdAt row;
     user_updatedAt := now |}.

(** [{ ...row, role, updatedAt }] *)
Definition set_role (role : UserRole) (now : Time) (row : User) : User :=
  {| user_id := user_id row;
     user_email := user_email row;
     user_firstName := user_firstName row;
     user_lastName := user_lastName row;
     user_profileImageUrl := user_profileImageUrl row;
     user_role := role;
     user_createdAt := user_createdAt row;
     user_updatedAt := now |}.

Record Warehouse : Type := mkWarehouse {
  wh_id : string;
  wh_name : string;
  wh_location : option string;
  wh_description : option string;
  wh_capacity : Z;
  wh_createdAt : Time;
  wh_updatedAt : Time
}.

(** [$inferInsert]: columns with a default may be left out. *)
Record InsertWarehouse : Type := mkInsertWarehouse {
  iwh_id : option string;
  iwh_name : string;
  iwh_location : option string;
  iwh_description : option string;
  iwh_capacity : option Z;
  iwh_createdAt : option Time;
  iwh_updatedAt : option Time
}.

(** [Partial<InsertWarehouse>]: an absent key is [None]; for a nullable
    column a present key may carry [null]. *)
Record PartialWarehouse : Type := mkPartialWarehouse {
  pwh_id : option string;
  pwh_name : option string;
  pwh_location : option (option string);
  pwh_description : option (option string);
  pwh_capacity : option Z;
  pwh_createdAt : option Time;
  pwh_updatedAt : option Time
}.

Record InventoryItem : Type := mkInventoryItem {
  item_id : string;
  item_warehouseId : string;
  item_name : string;
  item_sku : string;
  item_category : option string;
  item_quantity : Z;
  item_unit : string;
  item_batchNumber : option string;
  item_expirationDate : option Time;
  item_location : option string;
  item_description : option string;
  item_createdAt : Time;
  item_updatedAt : Time
}.

Record InsertInventoryItem : Type := mkInsertInventoryItem {
  iitem_id : option string;
  iitem_warehouseId : string;
  iitem_name : string;
  iitem_sku : string;
  iitem_category : option string;
  iitem_quantity : option Z;
  iitem_unit : option string;
  iitem_batchNumber : option string;
  iitem_expirationDate : option Time;
  iitem_location : option string;
  iitem_description : option string;
  iitem_createdAt : option Time;
  iitem_updatedAt : option Time
}.

Record PartialInventoryItem : Type := mkPartialInventoryItem {
  pitem_id : option string;
  pitem_warehouseId : option string;
  pitem_name : option string;
  pitem_sku : option string;
  pitem_category : option (option string);
  pitem_quantity : option Z;
  pitem_unit : option string;
  pitem_batchNumber : option (option string);
  pitem_expirationDate : option (option Time);
  pitem_location : option (option string);
  pitem_description : option (option string);
  pitem_createdAt : option Time;
  pitem_updatedAt : option Time
}.

Record ProductHistory : Type := mkProductHistory {
  hist_id : string;
  hist_inventoryItemId : string;
  hist_actionType : string;
  hist_quantityChange : Z;
  hist_previousQuantity : Z;
  hist_newQuantity : Z;
  hist_userId : option string;
  hist_notes : option string;
  hist_timestamp : Time
}.

Record InsertProductHistory : Type := mkInsertProductHistory {
  ihist_id : option string;
  ihist_inventoryItemId : string;
  ihist_actionType : string;
  ihist_quantityChange : Z;
  ihist_previousQuantity : Z;
  ihist_newQuantity : Z;
  ihist_userId : option string;
  ihist_notes : option string;
  ihist_timestamp : option Time
}.

Record DataTable : Type := mkDataTable {
  table_id : string;
  table_name : string;
  table_description : option string;
  table_createdBy : option string;
  table_createdAt : Time
}.

Record InsertTable : Type := mkInsertTable {
  itable_id : option string;
  itable_name : string;
  itable_description : option string;
  itable_createdBy : option string;
  itable_createdAt : option Time
}.

Record AuditLog : Type := mkAuditLog {
  log_id : string;
  log_userId : option string;
  log_action : string;
  log_endpoint : string;
  log_method : string;
  log_metadata : Json;
  log_ipAddress : option string;
  log_timestamp : Time
}.

Record InsertAuditLog : Type := mkInsertAuditLog {
  ilog_id : option string;
  ilog_userId : option string;
  ilog_action : string;
  ilog_endpoint : string;
  ilog_method : string;
  ilog_metadata : option Json;
  ilog_ipAddress : option string;
  ilog_timestamp : option Time
}.

(** [updateUserRoleSchema = z.object({ role: z.enum(userRoles) })] *)
Definition role_of_string (s : string) : option UserRole :=
  List.find (fun r => String.eqb (role_name r) s) userRoles.

Definition updateUserRoleSchema_parse (body : Json) : Outcome UpdateUserRole :=
  match body with
  | JObj props =>
      match obj_get "role" props with
      | Some (JStr s) =>
          match role_of_string s with
          | Some r => Ok (mkUpdateUserRole r)
          | None => Throw (ZodError "invalid_enum_value")
          end
      | _ => Throw (ZodError "invalid_type")
      end
  | _ => Throw (ZodError "invalid_type")
  end.

(** The insert schemas are produced by [createInsertSchema] (drizzle-zod);
    the handlers only call [parse] on them, so they enter as the parse
    functions themselves. *)
Record Schemas : Type := mkSchemas {
  insertWarehouseSchema_parse : Json -> Outcome InsertWarehouse;
  insertWarehouseSchema_partial_parse : Json -> Outcome PartialWarehouse;
  insertInventoryItemSchema_parse : Json -> Outcome InsertInventoryItem;
  insertInventoryItemSchema_partial_parse : Json -> Outcome PartialInventoryItem;
  insertTableSchema_parse : Json -> Outcome InsertTable
}.

(* ===================================================================== *)
(** ** server/storage.ts: the storage interface *)
(* ===================================================================== *)

(** [IStorage], for the operations the server calls.  [St] is the state
    of the store behind an implementation. *)
Record IStorage (St : Type) : Type := mkStorage {
  (* Users *)
  upsertUser : UpsertUser -> M St User;
  getUserById : string -> M St (option User);
  updateUserRole : string -> UpdateUserRole -> M St User;
  (* Warehouses *)
  createWarehouse : InsertWarehouse -> M St Warehouse;
  updateWarehouse : string -> PartialWarehouse -> M St Warehouse;
  deleteWarehouse : string -> M St unit;
  (* Inventory *)
  createInventoryItem : InsertInventoryItem -> M St InventoryItem;
  getInventoryItemById : string -> M St (option InventoryItem);
  updateInventoryItem : string -> PartialInventoryItem -> M St InventoryItem;
  deleteInventoryItem : string -> M St unit;
  (* Product History *)
  createProductHistory : InsertProductHistory -> M St ProductHistory;
  (* Tables *)
  createTable : InsertTable -> M St DataTable;
  deleteTable : string -> M St unit;
  (* Audit Logs *)
  createAuditLog : InsertAuditLog -> M St AuditLog;
  getAuditLogs : option Z -> M St (list AuditLog)
}.
Arguments upsertUser {St} _ _ _.
Arguments getUserById {St} _ _ _.
Arguments updateUserRole {St} _ _ _ _.
Arguments createWarehouse {St} _ _ _.
Arguments updateWarehouse {St} _ _ _ _.
Arguments deleteWarehouse {St} _ _ _.
Arguments createInventoryItem {St} _ _ _.
Arguments getInventoryItemById {St} _ _ _.
Arguments updateInventoryItem {St} _ _ _ _.
Arguments deleteInventoryItem {St} _ _ _.
Arguments createProductHistory {St} _ _ _.
Arguments createTable {St} _ _ _.
Arguments deleteTable {St} _ _ _.
Arguments createAuditLog {St} _ _ _.
Arguments getAuditLogs {St} _ _ _.

(* ===================================================================== *)
(** ** Requests and responses *)
(* ===================================================================== *)

(** [SessionData], as extended by the server. *)
Record SessionData : Type := mkSession {
  sess_userId : option string;
  sess_codeVerifier : option string;
  sess_state : option string
}.

(** The part of an Express request the handlers read.  [req_user] is the
    property [isAuthenticated] attaches. *)
Record Request : Type := mkRequest {
  req_session : SessionData;
  req_param_id : string;
  req_body : Json;
  req_query : list (string * string);
  req_ip : option string;
  req_user : option User
}.

Definition with_user (req : Request) (u : User) : Request :=
  {| req_session := req_session req;
     req_param_id := req_param_id req;
     req_body := req_body req;
     req_query := req_query req;
     req_ip := req_ip req;
     req_user := Some u |}.

(** What was handed to [res.json], [res.send] or [res.redirect]. *)
Inductive Payload : Type :=
| NoContent
| Text (text : string)
| Message (message : string)
| UserJson (u : option User)
| WarehouseJson (w : Warehouse)
| InventoryItemJson (i : InventoryItem)
| TableJson (t : DataTable)
| Location (url : string).

Record Response : Type := mkResponse {
  status : Z;
  payload : Payload
}.

(** [res.status(code).json({ message })] *)
Definition json_message (code : Z) (message : string) : Response :=
  mkResponse code (Message message).

Definition Handler (St : Type) : Type := Request -> M St Response.

(* ===================================================================== *)
(** ** server/auth.ts: authentication middleware and audit logger *)
(* ===================================================================== *)

Section Auth.
Context {St : Type} (storage : IStorage St).

(** The [try] covers the user lookup; the downstream handler is
    asynchronous and deals with its own failures. *)
Definition isAuthenticated (req : Request) (next : Handler St) : M St Response :=
  let userId := sess_userId (req_session req) in
  match or_null userId with
  | None => ret (json_message 401 "Unauthorized: No user session")
  | Some userId =>
      fun s =>
        match getUserById storage userId s with
        | (Ok None, s') =>
            (Ok (json_message 401 "Unauthorized: User not found"), s')
        | (Ok (Some user), s') => next (with_user req user) s'
        | (Throw _, s') => (Ok (json_message 500 "Internal server error"), s')
        end
  end.

Definition includes (allowedRoles : list string) (role : string) : bool :=
  existsb (String.eqb role) allowedRoles.

Definition requireRole (allowedRoles : list string)
    (req : Request) (next : Handler St) : M St Response :=
  match req_user req with
  | None => ret (json_message 401 "Unauthorized")
  | Some user =>
      if includes allowedRoles (role_name (user_role user))
      then next req
      else ret (json_message 403 "Forbidden: Insufficient permissions")
  end.

Definition auditLog (userId : option string) (action endpoint method : string)
    (details : option Json) (ipAddress : option string) : M St unit :=
  try_catch
    (let* _ := createAuditLog storage
       {| ilog_id := None;
          ilog_userId := or_null userId;
          ilog_action := action;
          ilog_endpoint := endpoint;
          ilog_method := method;
          ilog_metadata := Some (nullish_or (JObj []) details);
          ilog_ipAddress := or_null ipAddress;
          ilog_timestamp := None |} in
     ret tt)
    (fun _ => ret tt).

End Auth.

(* ===================================================================== *)
(** ** server/routes.ts *)
(* ===================================================================== *)

(** The routes modelled: the profile route and the nine routes that
    write through JSON bodies.  [registerRoutes] registers nine more (the
    eight [GET] listings and lookups and the image upload); they are not
    part of [Route], so a statement over every [Route] speaks of these ten
    only. *)
Inductive Route : Type :=
| GET_auth_user
| POST_warehouses
| PATCH_warehouses_id
| DELETE_warehouses_id
| POST_inventory
| PATCH_inventory_id
| DELETE_inventory_id
| POST_tables
| DELETE_tables_id
| PATCH_users_id_role.

Section Routes.
Context {St : Type} (storage : IStorage St) (schemas : Schemas).

Definition Middleware : Type := Request -> Handler St -> M St Response.

(** [app.METHOD(path, m1, ..., mn, handler)] *)
Fixpoint chain (middlewares : list Middleware) (handler : Handler St) : Handler St :=
  match middlewares with
  | [] => handler
  | m :: rest => fun req => m req (chain rest handler)
  end.

(** [req.user?.id] *)
Definition req_user_id (req : Request) : option string :=
  user_id <$> req_user req.

(** [{ message: error.message }] with the given status. *)
Definition fail_with (code : Z) (error : Exn) : M St Response :=
  ret (json_message code (exn_message error)).

Definition get_auth_user : Handler St := fun req =>
  ret (mkResponse 200 (UserJson (req_user req))).

Definition post_warehouses : Handler St := fun req =>
  try_catch
    (let* data := lift_outcome (insertWarehouseSchema_parse schemas (req_body req)) in
     let* warehouse := createWarehouse storage data in
     auditLog storage (req_user_id req) "CREATE_WAREHOUSE" "/api/warehouses" "POST"
       (Some (JObj [("warehouseId", JStr (wh_id warehouse))])) (req_ip req) ;;;
     ret (mkResponse 201 (WarehouseJson warehouse)))
    (fail_with 400).

Definition patch_warehouses_id : Handler St := fun req =>
  try_catch
    (let* data := lift_outcome (insertWarehouseSchema_partial_parse schemas (req_body req)) in
     let* warehouse := updateWarehouse storage (req_param_id req) data in
     auditLog storage (req_user_id req) "UPDATE_WAREHOUSE"
       ("/api/warehouses/" ++ req_param_id req) "PATCH"
       (Some (JObj [("warehouseId", JStr (req_param_id req))])) (req_ip req) ;;;
     ret (mkResponse 200 (WarehouseJson warehouse)))
    (fail_with 400).

Definition delete_warehouses_id : Handler St := fun req =>
  try_catch
    (deleteWarehouse storage (req_param_id req) ;;;
     auditLog storage (req_user_id req) "DELETE_WAREHOUSE"
       ("/api/warehouses/" ++ req_param_id req) "DELETE"
       (Some (JObj [("warehouseId", JStr (req_param_id req))])) (req_ip req) ;;;
     ret (mkResponse 204 NoContent))
    (fail_with 500).

Definition post_inventory : Handler St := fun req =>
  try_catch
    (let* data := lift_outcome (insertInventoryItemSchema_parse schemas (req_body req)) in
     let* item := createInventoryItem storage data in
     createProductHistory storage
       {| ihist_id := None;
          ihist_inventoryItemId := item_id item;
          ihist_actionType := "in";
          ihist_quantityChange := item_quantity item;
          ihist_previousQuantity := 0;
          ihist_newQuantity := item_quantity item;
          ihist_userId := or_null (req_user_id req);
          ihist_notes := Some "Initial inventory";
          ihist_timestamp := None |} ;;;
     auditLog storage (req_user_id req) "CREATE_INVENTORY" "/api/inventory" "POST"
       (Some (JObj [("itemId", JStr (item_id item)); ("sku", JStr (item_sku item))]))
       (req_ip req) ;;;
     ret (mkResponse 201 (InventoryItemJson item)))
    (fail_with 400).

Definition patch_inventory_id : Handler St := fun req =>
  try_catch
    (let* currentItem := getInventoryItemById storage (req_param_id req) in
     match currentItem with
     | None => ret (json_message 404 "Item not found")
     | Some currentItem =>
         let* data :=
           lift_outcome (insertInventoryItemSchema_partial_parse schemas (req_body req)) in
         let* item := updateInventoryItem storage (req_param_id req) data in
         match pitem_quantity data with
         | Some quantity =>
             if bool_decide (quantity = item_quantity currentItem) then ret tt
             else
               createProductHistory storage
                 {| ihist_id := None;
                    ihist_inventoryItemId := item_id item;
                    ihist_actionType := "adjust";
                    ihist_quantityChange := quantity - item_quantity currentItem;
                    ihist_previousQuantity := item_quantity currentItem;
                    ihist_newQuantity := quantity;
                    ihist_userId := or_null (req_user_id req);
                    ihist_notes := Some "Quantity adjusted";
                    ihist_timestamp := None |} ;;;
               ret tt
         | None => ret tt
         end ;;;
         auditLog storage (req_user_id req) "UPDATE_INVENTORY"
           ("/api/inventory/" ++ req_param_id req) "PATCH"
           (Some (JObj [("itemId", JStr (req_param_id req))])) (req_ip req) ;;;
         ret (mkResponse 200 (InventoryItemJson item))
     end)
    (fail_with 400).

Definition delete_inventory_id : Handler St := fun req =>
  try_catch
    (deleteInventoryItem storage (req_param_id req) ;;;
     auditLog storage (req_user_id req) "DELETE_INVENTORY"
       ("/api/inventory/" ++ req_param_id req) "DELETE"
       (Some (JObj [("itemId", JStr (req_param_id req))])) (req_ip req) ;;;
     ret (mkResponse 204 NoContent))
    (fail_with 500).

Definition post_tables : Handler St := fun req =>
  try_catch
    (let* data :=
       lift_outcome
         (insertTableSchema_parse schemas
            (JObj (spread (req_body req) ++
                   [("createdBy", from_option JStr JUndefined (req_user_id req))]))) in
     let* table := createTable storage data in
     auditLog storage (req_user_id req) "CREATE_TABLE" "/api/tables" "POST"
       (Some (JObj [("tableId", JStr (table_id table))])) (req_ip req) ;;;
     ret (mkResponse 201 (TableJson table)))
    (fail_with 400).

Definition delete_tables_id : Handler St := fun req =>
  try_catch
    (deleteTable storage (req_param_id req) ;;;
     auditLog storage (req_user_id req) "DELETE_TABLE"
       ("/api/tables/" ++ req_param_id req) "DELETE"
       (Some (JObj [("tableId", JStr (req_param_id req))])) (req_ip req) ;;;
     ret (mkResponse 204 NoContent))
    (fail_with 500).

(** [req.user?.role !== "super_admin"] *)
Definition actor_is_super_admin (req : Request) : bool :=
  match req_user req with
  | Some actor => String.eqb (role_name (user_role actor)) "super_admin"
  | None => false
  end.

Definition patch_users_id_role : Handler St := fun req =>
  try_catch
    (let* data := lift_outcome (updateUserRoleSchema_parse (req_body req)) in
     if String.eqb (role_name (new_role data)) "super_admin"
        && negb (actor_is_super_admin req)
     then ret (json_message 403 "Only super admins can assign super admin role")
     else
       let* user := updateUserRole storage (req_param_id req) data in
       auditLog storage (req_user_id req) "UPDATE_USER_ROLE"
         ("/api/users/" ++ req_param_id req ++ "/role") "PATCH"
         (Some (JObj [("userId", JStr (req_param_id req));
                      ("newRole", JStr (role_name (new_role data)))]))
         (req_ip req) ;;;
       ret (mkResponse 200 (UserJson (Some user))))
    (fail_with 400).

(** The middleware stack and handler registered for each route. *)
Definition registerRoutes (route : Route) : list Middleware * Handler St :=
  match route with
  | GET_auth_user =>
      ([isAuthenticated storage], get_auth_user)
  | POST_warehouses =>
      ([isAuthenticated storage; requireRole ["super_admin"; "admin"; "manager"]],
       post_warehouses)
  | PATCH_warehouses_id =>
      ([isAuthenticated storage; requireRole ["super_admin"; "admin"; "manager"]],
       patch_warehouses_id)
  | DELETE_warehouses_id =>
      ([isAuthenticated storage; requireRole ["super_admin"; "admin"]],
       delete_warehouses_id)
  | POST_inventory =>
      ([isAuthenticated storage; requireRole ["super_admin"; "admin"; "manager"]],
       post_inventory)
  | PATCH_inventory_id =>
      ([isAuthenticated storage; requireRole ["super_admin"; "admin"; "manager"]],
       patch_inventory_id)
  | DELETE_inventory_id =>
      ([isAuthenticated storage; requireRole ["super_admin"; "admin"]],
       delete_inventory_id)
  | POST_tables =>
      ([isAuthenticated storage], post_tables)
  | DELETE_tables_id =>
      ([isAuthenticated storage], delete_tables_id)
  | PATCH_users_id_role =>
      ([isAuthenticated storage; requireRole ["super_admin"; "admin"]],
       patch_users_id_role)
  end.

Definition serve (route : Route) : Handler St :=
  chain (registerRoutes route).1 (registerRoutes route).2.

End Routes.

(* ===================================================================== *)
(** ** server/db-storage.ts: [DatabaseStorage] *)
(* ===================================================================== *)

(** The relational store.  The [users] table is a finite map keyed by
    its primary key; [audit_logs] is the list of its rows in insertion
    order.  [db_now] is the clock read by [new Date()] and by the
    [now()] column defaults, and [db_uuid] the supply behind
    [gen_random_uuid()], whose values are taken to be fresh.  [db_ties]
    is the engine's choice between two rows that an [ORDER BY] does not
    tell apart: the queries give no second sort key, so the order of rows
    with equal timestamps is the engine's, not the code's.  The tables
    for warehouses, inventory, history and custom tables sit in
    [db_entities]; their queries are plain CRUD whose outcome is decided
    by the database engine, and they enter through [EntityQueries]. *)
Record Database (Ext : Type) : Type := mkDatabase {
  db_now : Time;
  db_uuid : nat -> string;
  db_uuid_count : nat;
  db_ties : AuditLog -> AuditLog -> bool;
  db_users : gmap string User;
  db_audit_logs : list AuditLog;
  db_entities : Ext
}.
Arguments mkDatabase {Ext} _ _ _ _ _ _ _.
Arguments db_ties {Ext} _ _ _.
Arguments db_now {Ext} _.
Arguments db_uuid {Ext} _ _.
Arguments db_uuid_count {Ext} _.
Arguments db_users {Ext} _.
Arguments db_audit_logs {Ext} _.
Arguments db_entities {Ext} _.

Record EntityQueries (Ext : Type) : Type := mkEntityQueries {
  q_createWarehouse : InsertWarehouse -> M Ext Warehouse;
  q_updateWarehouse : string -> PartialWarehouse -> M Ext Warehouse;
  q_deleteWarehouse : string -> M Ext unit;
  q_createInventoryItem : InsertInventoryItem -> M Ext InventoryItem;
  q_getInventoryItemById : string -> M Ext (option InventoryItem);
  q_updateInventoryItem : string -> PartialInventoryItem -> M Ext InventoryItem;
  q_deleteInventoryItem : string -> M Ext unit;
  q_createProductHistory : InsertProductHistory -> M Ext ProductHistory;
  q_createTable : InsertTable -> M Ext DataTable;
  q_deleteTable : string -> M Ext unit
}.
Arguments q_createWarehouse {Ext} _ _ _.
Arguments q_updateWarehouse {Ext} _ _ _ _.
Arguments q_deleteWarehouse {Ext} _ _ _.
Arguments q_createInventoryItem {Ext} _ _ _.
Arguments q_getInventoryItemById {Ext} _ _ _.
Arguments q_updateInventoryItem {Ext} _ _ _ _.
Arguments q_deleteInventoryItem {Ext} _ _ _.
Arguments q_createProductHistory {Ext} _ _ _.
Arguments q_createTable {Ext} _ _ _.
Arguments q_deleteTable {Ext} _ _ _.

(** Rows ordered by ascending timestamp ([orderBy(auditLogs.timestamp)]).
    Between two rows with equal timestamps [ties] decides which comes
    first. *)
Fixpoint insert_by_timestamp (ties : AuditLog -> AuditLog -> bool) (row : AuditLog)
    (sorted : list AuditLog) : list AuditLog :=
  match sorted with
  | [] => [row]
  | r :: rest =>
      if (log_timestamp row <? log_timestamp r)
         || ((log_timestamp row =? log_timestamp r) && ties row r)
      then row :: r :: rest
      else r :: insert_by_timestamp ties row rest
  end.

Definition order_by_timestamp (ties : AuditLog -> AuditLog -> bool)
    (rows : list AuditLog) : list AuditLog :=
  foldr (fun row acc => insert_by_timestamp ties row acc) [] rows.

Definition oldest_first (rows : list AuditLog) : Prop :=
  Sorted (fun a b => log_timestamp a <= log_timestamp b) rows.

(** No two rows share a timestamp, and the rows are in that order. *)
Definition strictly_oldest_first (rows : list AuditLog) : Prop :=
  Sorted (fun a b => log_timestamp a < log_timestamp b) rows.

Module DatabaseStorage.
Section Queries.
Context {Ext : Type} (entities : EntityQueries Ext).

Definition set_users (users : gmap string User) (db : Database Ext) : Database Ext :=
  mkDatabase (db_now db) (db_uuid db) (db_uuid_count db) (db_ties db) users
    (db_audit_logs db) (db_entities db).

Definition set_audit_logs (rows : list AuditLog) (db : Database Ext) : Database Ext :=
  mkDatabase (db_now db) (db_uuid db) (db_uuid_count db) (db_ties db) (db_users db)
    rows (db_entities db).

Definition set_entities (ext : Ext) (db : Database Ext) : Database Ext :=
  mkDatabase (db_now db) (db_uuid db) (db_uuid_count db) (db_ties db) (db_users db)
    (db_audit_logs db) ext.

(** [new Date()] *)
Definition new_Date : M (Database Ext) Time := fun db => (Ok (db_now db), db).

(** [gen_random_uuid()] *)
Definition gen_random_uuid : M (Database Ext) string := fun db =>
  (Ok (db_uuid db (db_uuid_count db)),
   mkDatabase (db_now db) (db_uuid db) (S (db_uuid_count db)) (db_ties db) (db_users db)
     (db_audit_logs db) (db_entities db)).

(** [db.select().from(users).where(eq(users.id, id)).limit(1)] *)
Definition select_users_by_id (id : string) : M (Database Ext) (list User) := fun db =>
  (Ok (option_list (db_users db !! id)), db).

(** [db.update(users).set(...).where(eq(users.id, id)).returning()];
    [set] never touches the key column here. *)
Definition update_users_by_id (id : string) (set : User -> User)
    : M (Database Ext) (list User) := fun db =>
  match db_users db !! id with
  | Some row => (Ok [set row], set_users (<[id := set row]> (db_users db)) db)
  | None => (Ok [], db)
  end.

(** [db.insert(users).values(row).returning()] *)
Definition insert_user (row : User) : M (Database Ext) (list User) := fun db =>
  match db_users db !! user_id row with
  | Some _ =>
      (Throw (ExternalError "duplicate key value violates unique constraint"), db)
  | None => (Ok [row], set_users (<[user_id row := row]> (db_users db)) db)
  end.

(** [const [row] = rows; return row]: both branches read back the one
    row they have just written, so the [undefined] case is dead (see
    [upsertUser_returns]). *)
Definition upsertUser (user : UpsertUser) : M (Database Ext) User :=
  let* existing := select_users_by_id (upsert_id user) in
  match head existing with
  | Some existingUser =>
      let* now := new_Date in
      let* updated := update_users_by_id (upsert_id user) (set_profile user now) in
      match head updated with
      | Some updated => ret updated
      | None => throw (JsError "undefined")
      end
  | None =>
      let* now := new_Date in
      let* created :=
        insert_user
          {| user_id := upsert_id user;
             user_email := upsert_email user;
             user_firstName := upsert_firstName user;
             user_lastName := upsert_lastName user;
             user_profileImageUrl := upsert_profileImageUrl user;
             user_role := viewer;
             user_createdAt := now;
             user_updatedAt := now |} in
      match head created with
      | Some created => ret created
      | None => throw (JsError "undefined")
      end
  end.

Definition getUserById (id : string) : M (Database Ext) (option User) :=
  let* rows := select_users_by_id id in
  ret (head rows).

Definition updateUserRole (userId : string) (data : UpdateUserRole)
    : M (Database Ext) User :=
  let* now := new_Date in
  let* updated := update_users_by_id userId (set_role (new_role data) now) in
  match head updated with
  | Some updated => ret updated
  | None => throw (JsError "User not found")
  end.

(** The [id] column of an entry: the one it carries, which the primary
    key refuses when a row already has it, or else the column default.
    [auditLog] never sends an id; whether one that is sent is written as
    the column's type asks is not looked at here. *)
Definition audit_log_id (log : InsertAuditLog) : M (Database Ext) string :=
  match ilog_id log with
  | Some id =>
      fun db =>
        if existsb (fun row => String.eqb (log_id row) id) (db_audit_logs db)
        then (Throw (ExternalError "duplicate key value violates unique constraint"), db)
        else (Ok id, db)
  | None => gen_random_uuid
  end.

(** [db.insert(auditLogs).values(log).returning()] *)
Definition createAuditLog (log : InsertAuditLog) : M (Database Ext) AuditLog :=
  let* id := audit_log_id log in
  let* now := new_Date in
  let created :=
    {| log_id := id;
       log_userId := ilog_userId log;
       log_action := ilog_action log;
       log_endpoint := ilog_endpoint log;
       log_method := ilog_method log;
       log_metadata := default (JObj []) (ilog_metadata log);
       log_ipAddress := ilog_ipAddress log;
       log_timestamp := default now (ilog_timestamp log) |} in
  fun db => (Ok created, set_audit_logs (db_audit_logs db ++ [created]) db).

(** [getAuditLogs(limit = 100)].  The query builder writes the [LIMIT]
    clause for a non-negative number only; with a negative one the query
    has no limit and answers with every row. *)
Definition getAuditLogs (limit : option Z) : M (Database Ext) (list AuditLog) :=
  let limit := default 100 limit in
  fun db =>
    let ordered := order_by_timestamp (db_ties db) (db_audit_logs db) in
    if limit <? 0
    then (Ok ordered, db)
    else (Ok (take (Z.to_nat limit) ordered), db).

(** A query on the other tables, run against [db_entities]. *)
Definition on_entities {A} (query : M Ext A) : M (Database Ext) A := fun db =>
  let (outcome, ext) := query (db_entities db) in
  (outcome, set_entities ext db).

(** [export const storage = new DatabaseStorage()] *)
Definition storage : IStorage (Database Ext) :=
  mkStorage _
    upsertUser
    getUserById
    updateUserRole
    (fun w => on_entities (q_createWarehouse entities w))
    (fun id w => on_entities (q_updateWarehouse entities id w))
    (fun id => on_entities (q_deleteWarehouse entities id))
    (fun i => on_entities (q_createInventoryItem entities i))
    (fun id => on_entities (q_getInventoryItemById entities id))
    (fun id i => on_entities (q_updateInventoryItem entities id i))
    (fun id => on_entities (q_deleteInventoryItem entities id))
    (fun h => on_entities (q_createProductHistory entities h))
    (fun t => on_entities (q_createTable entities t))
    (fun id => on_entities (q_deleteTable entities id))
    createAuditLog
    getAuditLogs.

End Queries.
End DatabaseStorage.

(* ===================================================================== *)
(** ** server/storage.ts: [MemStorage], users and audit log *)
(* ===================================================================== *)

(** [array.slice(start)] *)
Definition js_slice_from {A} (start : Z) (items : list A) : list A :=
  let len := Z.of_nat (length items) in
  let from := if start <? 0 then Z.max (len + start) 0 else Z.min start len in
  drop (Z.to_nat from) items.

Module MemStorage.

Record State : Type := mkState {
  mem_now : Time;
  users : gmap string User;
  auditLogs : list AuditLog
}.

Definition upsertUser (user : UpsertUser) : M State User := fun this =>
  let existing := users this !! upsert_id user in
  let now := mem_now this in
  let fullUser :=
    {| user_id := upsert_id user;
       user_email := upsert_email user;
       user_firstName := upsert_firstName user;
       user_lastName := upsert_lastName user;
       user_profileImageUrl := upsert_profileImageUrl user;
       user_role := from_option user_role viewer existing;
       user_createdAt := from_option user_createdAt now existing;
       user_updatedAt := now |} in
  (Ok fullUser,
   mkState (mem_now this) (<[upsert_id user := fullUser]> (users this)) (auditLogs this)).

Definition getUserById (id : string) : M State (option User) := fun this =>
  (Ok (users this !! id), this).

Definition updateUserRole (userId : string) (data : UpdateUserRole) : M State User :=
  fun this =>
    match users this !! userId with
    | None => (Throw (JsError "User not found"), this)
    | Some user =>
        let user' := set_role (new_role data) (mem_now this) user in
        (Ok user',
         mkState (mem_now this) (<[userId := user']> (users this)) (auditLogs this))
    end.

Definition createAuditLog (log : InsertAuditLog) : M State AuditLog := fun this =>
  let newLog :=
    {| log_id := "log_" ++ pretty (mem_now this);
       log_userId := ilog_userId log;
       log_action := ilog_action log;
       log_endpoint := ilog_endpoint log;
       log_method := ilog_method log;
       log_metadata := default (JObj []) (ilog_metadata log);
       log_ipAddress := ilog_ipAddress log;
       log_timestamp := mem_now this |} in
  (Ok newLog, mkState (mem_now this) (users this) (auditLogs this ++ [newLog])).

(** [this.auditLogs.slice(-limit)] with [limit = 100] by default. *)
Definition getAuditLogs (limit : option Z) : M State (list AuditLog) := fun this =>
  (Ok (js_slice_from (- default 100 limit) (auditLogs this)), this).

End MemStorage.

(* ===================================================================== *)
(** ** server/app.ts: OIDC login and callback *)
(* ===================================================================== *)

(** [client.Configuration], the result of discovery. *)
Record Configuration : Type := mkConfiguration {
  cfg_issuer : string;
  cfg_clientId : string
}.

Record TokenSet : Type := mkTokenSet {
  access_token : string;
  token_type : string
}.

Record UserInfo : Type := mkUserInfo {
  sub : string;
  email : option string;
  given_name : option string;
  family_name : option string;
  picture : option string
}.

Record Url : Type := mkUrl {
  url_base : string;
  url_search : list (string * string)
}.

Record AuthorizationParams : Type := mkAuthorizationParams {
  redirect_uri : string;
  scope : string;
  code_challenge : string;
  code_challenge_method : string;
  param_state : string
}.

(** The [openid-client] calls the server makes, with the answers the
    identity provider gives while one request is being served. *)
Record OidcClient : Type := mkOidcClient {
  discovery : Outcome Configuration;
  randomPKCECodeVerifier : string;
  calculatePKCECodeChallenge : string -> string;
  randomState : string;
  buildAuthorizationUrl : Configuration -> AuthorizationParams -> Outcome string;
  authorizationCodeGrant :
    Configuration -> Url -> (* pkceCodeVerifier *) string -> (* expectedState *) string ->
    Outcome TokenSet;
  fetchUserInfo :
    Configuration -> (* accessToken *) string -> (* tokenType *) string -> Outcome UserInfo
}.

(** [url.searchParams.get(name)] *)
Definition search_get (name : string) (search : list (string * string)) : option string :=
  snd <$> List.find (fun p => String.eqb (fst p) name) search.

(** The library's contract for [expectedState]: a callback URL whose
    [state] parameter differs from the expected one is refused. *)
Definition validates_state (client : OidcClient) : Prop :=
  forall config url verifier expectedState,
    search_get "state" (url_search url) <> Some expectedState ->
    exists e, authorizationCodeGrant client config url verifier expectedState = Throw e.

(** What the login and callback handlers read and write: the module
    variable [oidcConfig], the session object of the request being
    served, and the store. *)
Record App (St : Type) : Type := mkApp {
  oidcConfig : option Configuration;
  session : SessionData;
  store : St
}.
Arguments mkApp {St} _ _ _.
Arguments oidcConfig {St} _.
Arguments session {St} _.
Arguments store {St} _.

Section Login.
Context {St : Type} (storage : IStorage St).
Context (client : OidcClient).
(** [getRedirectUri()], fixed by the process environment. *)
Context (redirectUri : string).

Definition getOIDCConfig : M (App St) Configuration := fun app =>
  match oidcConfig app with
  | Some config => (Ok config, app)
  | None =>
      match discovery client with
      | Ok config => (Ok config, mkApp (Some config) (session app) (store app))
      | Throw e => (Throw e, app)
      end
  end.

Definition get_session : M (App St) SessionData := fun app => (Ok (session app), app).

Definition put_session (sess : SessionData) : M (App St) unit := fun app =>
  (Ok tt, mkApp (oidcConfig app) sess (store app)).

(** An [await storage.f(...)] inside these handlers. *)
Definition on_store {A} (call : M St A) : M (App St) A := fun app =>
  let (outcome, st) := call (store app) in
  (outcome, mkApp (oidcConfig app) (session app) st).

(** [res.redirect(url)] *)
Definition redirect (url : string) : Response := mkResponse 302 (Location url).

Definition login (req : Request) : M (App St) Response :=
  try_catch
    (let* config := getOIDCConfig in
     let codeVerifier := randomPKCECodeVerifier client in
     let codeChallenge := calculatePKCECodeChallenge client codeVerifier in
     let state := randomState client in
     let* sess := get_session in
     put_session (mkSession (sess_userId sess) (Some codeVerifier) (Some state)) ;;;
     let* authUrl :=
       lift_outcome
         (buildAuthorizationUrl client config
            {| redirect_uri := redirectUri;
               scope := "openid profile email";
               code_challenge := codeChallenge;
               code_challenge_method := "S256";
               param_state := state |}) in
     ret (redirect authUrl))
    (fun _ => ret (mkResponse 500 (Text "Authentication error"))).

Definition callback (req : Request) : M (App St) Response :=
  try_catch
    (let* config := getOIDCConfig in
     let* sess := get_session in
     match or_null (sess_codeVerifier sess), or_null (sess_state sess) with
     | Some codeVerifier, Some state =>
         let callbackUrl := mkUrl redirectUri (req_query req) in
         let* tokens :=
           lift_outcome
             (authorizationCodeGrant client config callbackUrl codeVerifier state) in
         let* userinfo :=
           lift_outcome
             (fetchUserInfo client config (access_token tokens) (token_type tokens)) in
         let* user :=
           on_store
             (upsertUser storage
                {| upsert_id := sub userinfo;
                   upsert_email := or_null (email userinfo);
                   upsert_firstName := or_null (given_name userinfo);
                   upsert_lastName := or_null (family_name userinfo);
                   upsert_profileImageUrl := or_null (picture userinfo) |}) in
         put_session (mkSession (Some (user_id user)) None None) ;;;
         ret (redirect "/")
     | _, _ => ret (mkResponse 400 (Text "Invalid session"))
     end)
    (fun _ => ret (mkResponse 500 (Text "Authentication failed"))).

End Login.

(* ===================================================================== *)
(** ** Variations of a store, and sample data *)
(* ===================================================================== *)

(** The same store with another audit sink: every operation but
    [createAuditLog] is kept. *)
Definition with_audit_sink {St} (sink : InsertAuditLog -> M St AuditLog)
    (storage : IStorage St) : IStorage St :=
  mkStorage St
    (upsertUser storage) (getUserById storage) (updateUserRole storage)
    (createWarehouse storage) (updateWarehouse storage) (deleteWarehouse storage)
    (createInventoryItem storage) (getInventoryItemById storage)
    (updateInventoryItem storage) (deleteInventoryItem storage)
    (createProductHistory storage)
    (createTable storage) (deleteTable storage)
    sink (getAuditLogs storage).

(** The same identity provider with other answers from the token and
    userinfo endpoints. *)
Definition with_endpoints
    (grant : Configuration -> Url -> string -> string -> Outcome TokenSet)
    (userinfo : Configuration -> string -> string -> Outcome UserInfo)
    (client : OidcClient) : OidcClient :=
  mkOidcClient (discovery client) (randomPKCECodeVerifier client)
    (calculatePKCECodeChallenge client) (randomState client)
    (buildAuthorizationUrl client) grant userinfo.

(** A run of sign-ins against the database: before each [upsertUser] the
    clock has moved to the given time. *)
Definition set_now {Ext} (now : Time) (db : Database Ext) : Database Ext :=
  mkDatabase now (db_uuid db) (db_uuid_count db) (db_ties db) (db_users db)
    (db_audit_logs db) (db_entities db).

Fixpoint db_upserts {Ext} (calls : list (Time * UpsertUser)) (db : Database Ext)
    : Database Ext :=
  match calls with
  | [] => db
  | (now, user) :: rest =>
      db_upserts rest (DatabaseStorage.upsertUser user (set_now now db)).2
  end.

Fixpoint mem_upserts (calls : list (Time * UpsertUser)) (this : MemStorage.State)
    : MemStorage.State :=
  match calls with
  | [] => this
  | (now, user) :: rest =>
      mem_upserts rest
        (MemStorage.upsertUser user
           (MemStorage.mkState now (MemStorage.users this) (MemStorage.auditLogs this))).2
  end.

(** The reading of "the [n] most recent entries, newest first" that the
    activity feed uses ([ORDER BY timestamp DESC LIMIT n]); among rows
    with equal timestamps, which the claim does not order, the one
    written later comes first. *)
Definition most_recent_first (n : nat) (rows : list AuditLog) : list AuditLog :=
  take n (reverse (order_by_timestamp (fun _ _ => true) rows)).

Module Fixture.

Definition alice : User :=
  mkUser "alice" (Some "alice@example.com") (Some "Alice") None None admin 1000 1000.
Definition root : User :=
  mkUser "root" (Some "root@example.com") None None None super_admin 900 900.
Definition bob : User :=
  mkUser "bob" None (Some "Bob") None None viewer 1100 1100.
Definition carol : User :=
  mkUser "carol" None None None None manager 1200 1200.

(** The other tables of the sample deployment: custom tables and
    inventory items, kept as lists of rows. *)
Record Tables : Type := mkTables {
  fx_tables : list DataTable;
  fx_items : list InventoryItem
}.

Definition refused {A} : M Tables A :=
  throw (ExternalError "permission denied for table").

Definition entities : EntityQueries Tables :=
  mkEntityQueries Tables
    (fun _ => refused)
    (fun _ _ => refused)
    (fun _ => refused)
    (fun i ext =>
       let row :=
         mkInventoryItem (default "item-1" (iitem_id i)) (iitem_warehouseId i)
           (iitem_name i) (iitem_sku i) (iitem_category i)
           (default 0 (iitem_quantity i)) (default "pcs" (iitem_unit i))
           (iitem_batchNumber i) (iitem_expirationDate i) (iitem_location i)
           (iitem_description i) (default 2000 (iitem_createdAt i))
           (default 2000 (iitem_updatedAt i)) in
       (Ok row, mkTables (fx_tables ext) (fx_items ext ++ [row])))
    (fun id ext =>
       (Ok (List.find (fun row => String.eqb (item_id row) id) (fx_items ext)), ext))
    (fun _ _ => refused)
    (fun _ => refused)
    (fun h ext =>
       (Ok (mkProductHistory (default "hist-1" (ihist_id h)) (ihist_inventoryItemId h)
              (ihist_actionType h) (ihist_quantityChange h) (ihist_previousQuantity h)
              (ihist_newQuantity h) (ihist_userId h) (ihist_notes h)
              (default 2000 (ihist_timestamp h))),
        ext))
    (fun t ext =>
       let row :=
         mkDataTable (default "table-1" (itable_id t)) (itable_name t)
           (itable_description t) (itable_createdBy t)
           (default 2000 (itable_createdAt t)) in
       (Ok row, mkTables (fx_tables ext ++ [row]) (fx_items ext)))
    (fun id ext =>
       (Ok tt,
        mkTables
          (List.filter (fun row => negb (String.eqb (table_id row) id)) (fx_tables ext))
          (fx_items ext))).

Definition get_string (k : string) (props : list (string * Json)) : option string :=
  match obj_get k props with
  | Some (JStr s) => Some s
  | _ => None
  end.

Definition schemas : Schemas :=
  mkSchemas
    (fun _ => Throw (ZodError "invalid_type"))
    (fun _ => Throw (ZodError "invalid_type"))
    (fun body =>
       match get_string "warehouseId" (spread body),
             get_string "name" (spread body),
             get_string "sku" (spread body) with
       | Some w, Some n, Some k =>
           Ok (mkInsertInventoryItem None w n k None None None None None None None
                 None None)
       | _, _, _ => Throw (ZodError "invalid_type")
       end)
    (fun _ => Throw (ZodError "invalid_type"))
    (fun body =>
       match get_string "name" (spread body) with
       | Some n =>
           Ok (mkInsertTable None n (get_string "description" (spread body))
                 (get_string "createdBy" (spread body)) None)
       | None => Throw (ZodError "invalid_type")
       end).

Definition db : Database Tables :=
  mkDatabase 2000 (fun n => "uuid-" ++ pretty n) 0
    (fun a b => String.ltb (log_id a) (log_id b))
    {[ "alice" := alice; "root" := root; "bob" := bob; "carol" := carol ]}
    []
    (mkTables [] []).

Definition storage : IStorage (Database Tables) := DatabaseStorage.storage entities.

Definition mem : MemStorage.State :=
  MemStorage.mkState 2000
    {[ "alice" := alice; "root" := root; "bob" := bob; "carol" := carol ]}
    [].

(** Claims the identity provider sends for bob on two later sign-ins,
    and for a newcomer. *)
Definition bob_profile : UpsertUser :=
  mkUpsertUser "bob" (Some "bob@example.com") (Some "Robert") (Some "Stone") None.
Definition bob_profile' : UpsertUser :=
  mkUpsertUser "bob" None (Some "Bob") None (Some "https://example.com/bob.png").
Definition erin_profile : UpsertUser :=
  mkUpsertUser "erin" (Some "erin@example.com") None None None.

(** The same deployment with the audit table unreachable. *)
Definition storage_audit_down : IStorage (Database Tables) :=
  with_audit_sink (fun _ => throw (ExternalError "connection terminated")) storage.

Definition request (sessionUser : option string) (id : string) (body : Json) : Request :=
  mkRequest (mkSession sessionUser None None) id body [] (Some "10.0.0.7") None.

Definition role_body (role : string) : Json := JObj [("role", JStr role)].

Definition log_at (id : string) (timestamp : Time) : AuditLog :=
  mkAuditLog id (Some "alice") "CREATE_TABLE" "/api/tables" "POST" (JObj []) None timestamp.

Definition idp : OidcClient :=
  mkOidcClient
    (Ok (mkConfiguration "https://replit.com" "localhost:5000"))
    "verifier-1"
    (fun v => "challenge-of-" ++ v)
    "state-1"
    (fun _ p => Ok ("https://replit.com/oidc/auth?state=" ++ param_state p))
    (fun _ url verifier expected =>
       if bool_decide (search_get "state" (url_search url) = Some expected)
       then Ok (mkTokenSet "token-1" "bearer")
       else Throw (ExternalError "unexpected state"))
    (fun _ _ _ => Ok (mkUserInfo "dave" (Some "dave@example.com") (Some "Dave") None None)).

Definition idp_down : OidcClient :=
  mkOidcClient
    (Throw (ExternalError "issuer unreachable"))
    "verifier-1" (fun v => v) "state-1"
    (fun _ _ => Throw (ExternalError "issuer unreachable"))
    (fun _ _ _ _ => Throw (ExternalError "issuer unreachable"))
    (fun _ _ _ => Throw (ExternalError "issuer unreachable")).

Definition callback_request (query : list (string * string)) : Request :=
  mkRequest (mkSession None None None) "" JNull query None None.

End Fixture.

(* ===================================================================== *)
(** ** server/routes.ts: who may call what *)
(* ===================================================================== *)

(** The role policy the registrations amount to: [true] where a route
    has no [requireRole] or lists the role. *)
Definition permits (route : Route) (role : UserRole) : bool :=
  match route with
  | GET_auth_user | POST_tables | DELETE_tables_id => true
  | POST_warehouses | PATCH_warehouses_id | POST_inventory | PATCH_inventory_id =>
      match role with
      | super_admin | admin | manager => true
      | viewer => false
      end
  | DELETE_warehouses_id | DELETE_inventory_id | PATCH_users_id_role =>
      match role with
      | super_admin | admin => true
      | manager | viewer => false
      end
  end.

(** Statuses of the answers that report success. *)
Definition succeeded (response : Response) : bool :=
  bool_decide (status response = 200)
  || bool_decide (status response = 201)
  || bool_decide (status response = 204).

(** The action name a route hands to [auditLog]. *)
Definition audit_action (route : Route) : option string :=
  match route with
  | GET_auth_user => None
  | POST_warehouses => Some "CREATE_WAREHOUSE"
  | PATCH_warehouses_id => Some "UPDATE_WAREHOUSE"
  | DELETE_warehouses_id => Some "DELETE_WAREHOUSE"
  | POST_inventory => Some "CREATE_INVENTORY"
  | PATCH_inventory_id => Some "UPDATE_INVENTORY"
  | DELETE_inventory_id => Some "DELETE_INVENTORY"
  | POST_tables => Some "CREATE_TABLE"
  | DELETE_tables_id => Some "DELETE_TABLE"
  | PATCH_users_id_role => Some "UPDATE_USER_ROLE"
  end.

(** Every row of the users table sits under its own id. *)
Definition users_keyed (users : gmap string User) : Prop :=
  forall key row, users !! key = Some row -> user_id row = key.

(* ===================================================================== *)
(** ** server/app.ts: logout *)
(* ===================================================================== *)

Section Logout.
Context {St : Type}.


End Logout.

(** The next request of the same browser: it carries the session as the
    previous handler left it. *)
Definition next_request {St} (app : App St) (id : string) (body : Json) : Request :=
  mkRequest (session app) id body [] None None.

(* ===================================================================== *)
(** ** JavaScript [Map] *)
(* ===================================================================== *)

(** A [Map<string, V>]: its entries in insertion order, each key once. *)
Definition JsMap (V : Type) : Type := list (string * V).

Fixpoint js_get {V} (key : string) (m : JsMap V) : option V :=
  match m with
  | [] => None
  | (k, v) :: rest => if String.eqb k key then Some v else js_get key rest
  end.

(** [m.set(key, value)]: an existing key keeps its place. *)
Fixpoint js_set {V} (key : string) (value : V) (m : JsMap V) : JsMap V :=
  match m with
  | [] => [(key, value)]
  | (k, v) :: rest =>
      if String.eqb k key then (k, value) :: rest else (k, v) :: js_set key value rest
  end.

Definition js_delete {V} (key : string) (m : JsMap V) : JsMap V :=
  List.filter (fun entry => negb (String.eqb (fst entry) key)) m.

(** [Array.from(m.values())] *)
Definition js_values {V} (m : JsMap V) : list V := List.map snd m.

Definition js_keys {V} (m : JsMap V) : list string := List.map fst m.

(* ===================================================================== *)
(** ** server/storage.ts: the rest of [MemStorage] *)
(* ===================================================================== *)

Record TableRow : Type := mkTableRow {
  row_id : string;
  row_tableId : string;
  row_data : Json;
  row_createdAt : Time
}.

Record InsertTableRow : Type := mkInsertTableRow {
  irow_id : option string;
  irow_tableId : string;
  irow_data : Json;
  irow_createdAt : option Time
}.

Record Activity : Type := mkActivity {
  activity_type : string;
  activity_description : string;
  activity_timestamp : string
}.

Record DashboardStats : Type := mkDashboardStats {
  totalWarehouses : nat;
  totalInventoryItems : nat;
  lowStockCount : nat;
  expiringCount : nat;
  recentActivity : list Activity
}.

(** [{ ...existing, ...warehouse, updatedAt }] *)
Definition merge_warehouse (existing : Warehouse) (warehouse : PartialWarehouse)
    (updatedAt : Time) : Warehouse :=
  {| wh_id := default (wh_id existing) (pwh_id warehouse);
     wh_name := default (wh_name existing) (pwh_name warehouse);
     wh_location := default (wh_location existing) (pwh_location warehouse);
     wh_description := default (wh_description existing) (pwh_description warehouse);
     wh_capacity := default (wh_capacity existing) (pwh_capacity warehouse);
     wh_createdAt := default (wh_createdAt existing) (pwh_createdAt warehouse);
     wh_updatedAt := updatedAt |}.

(** [{ ...existing, ...item, expirationDate, updatedAt }], where
    [expirationDate] is [item.expirationDate ? new Date(item.expirationDate)
    : existing.expirationDate]. *)
Definition merge_item (existing : InventoryItem) (item : PartialInventoryItem)
    (updatedAt : Time) : InventoryItem :=
  {| item_id := default (item_id existing) (pitem_id item);
     item_warehouseId := default (item_warehouseId existing) (pitem_warehouseId item);
     item_name := default (item_name existing) (pitem_name item);
     item_sku := default (item_sku existing) (pitem_sku item);
     item_category := default (item_category existing) (pitem_category item);
     item_quantity := default (item_quantity existing) (pitem_quantity item);
     item_unit := default (item_unit existing) (pitem_unit item);
     item_batchNumber := default (item_batchNumber existing) (pitem_batchNumber item);
     item_expirationDate :=
       match pitem_expirationDate item with
       | Some (Some date) => Some date
       | _ => item_expirationDate existing
       end;
     item_location := default (item_location existing) (pitem_location item);
     item_description := default (item_description existing) (pitem_description item);
     item_createdAt := default (item_createdAt existing) (pitem_createdAt item);
     item_updatedAt := updatedAt |}.

(** The loop of [deleteTableRow]: the first table that holds a row with
    the id loses its rows of that id, and the loop stops there. *)
Fixpoint delete_row_in (id : string) (entries : JsMap (list TableRow))
    : JsMap (list TableRow) :=
  match entries with
  | [] => []
  | (tableId, rows) :: rest =>
      let filtered := List.filter (fun row => negb (String.eqb (row_id row) id)) rows in
      if negb (length filtered =? length rows)%nat
      then (tableId, filtered) :: rest
      else (tableId, rows) :: delete_row_in id rest
  end.

Module MemStore.

(** The whole of [MemStorage]: users, audit log and clock as before,
    and the maps of the other entities. *)
Record State : Type := mkState {
  core : MemStorage.State;
  warehouses : JsMap Warehouse;
  inventoryItems : JsMap InventoryItem;
  productHistory : JsMap (list ProductHistory);
  tables : JsMap DataTable;
  tableRows : JsMap (list TableRow)
}.

(** [Date.now()] and [new Date()] *)
Definition now (this : State) : Time := MemStorage.mem_now (core this).

Definition set_warehouses (m : JsMap Warehouse) (this : State) : State :=
  mkState (core this) m (inventoryItems this) (productHistory this) (tables this)
    (tableRows this).

Definition set_inventoryItems (m : JsMap InventoryItem) (this : State) : State :=
  mkState (core this) (warehouses this) m (productHistory this) (tables this)
    (tableRows this).

Definition set_productHistory (m : JsMap (list ProductHistory)) (this : State) : State :=
  mkState (core this) (warehouses this) (inventoryItems this) m (tables this)
    (tableRows this).

Definition set_tables (m : JsMap DataTable) (rows : JsMap (list TableRow))
    (this : State) : State :=
  mkState (core this) (warehouses this) (inventoryItems this) (productHistory this) m rows.

(** The methods on users and the audit log, on the whole store. *)
Definition on_core {A} (call : M MemStorage.State A) : M State A := fun this =>
  let (outcome, core') := call (core this) in
  (outcome,
   mkState core' (warehouses this) (inventoryItems this) (productHistory this)
     (tables this) (tableRows this)).

Definition createWarehouse (warehouse : InsertWarehouse) : M State Warehouse := fun this =>
  let id := "wh_" ++ pretty (now this) in
  let newWarehouse :=
    {| wh_id := id;
       wh_name := iwh_name warehouse;
       wh_location := iwh_location warehouse;
       wh_description := iwh_description warehouse;
       wh_capacity := default 0 (iwh_capacity warehouse);
       wh_createdAt := now this;
       wh_updatedAt := now this |} in
  (Ok newWarehouse, set_warehouses (js_set id newWarehouse (warehouses this)) this).

Definition getWarehouses : M State (list Warehouse) := fun this =>
  (Ok (js_values (warehouses this)), this).

Definition getWarehouseById (id : string) : M State (option Warehouse) := fun this =>
  (Ok (js_get id (warehouses this)), this).

Definition updateWarehouse (id : string) (warehouse : PartialWarehouse)
    : M State Warehouse := fun this =>
  match js_get id (warehouses this) with
  | None => (Throw (JsError "Warehouse not found"), this)
  | Some existing =>
      let updated := merge_warehouse existing warehouse (now this) in
      (Ok updated, set_warehouses (js_set id updated (warehouses this)) this)
  end.

Definition deleteWarehouse (id : string) : M State unit := fun this =>
  (Ok tt, set_warehouses (js_delete id (warehouses this)) this).

Definition createInventoryItem (item : InsertInventoryItem) : M State InventoryItem :=
  fun this =>
    let id := "inv_" ++ pretty (now this) in
    let newItem :=
      {| item_id := id;
         item_name := iitem_name item;
         item_warehouseId := iitem_warehouseId item;
         item_sku := iitem_sku item;
         item_category := iitem_category item;
         item_quantity := default 0 (iitem_quantity item);
         item_unit := default "pcs" (iitem_unit item);
         item_batchNumber := iitem_batchNumber item;
         item_expirationDate := iitem_expirationDate item;
         item_location := iitem_location item;
         item_description := iitem_description item;
         item_createdAt := now this;
         item_updatedAt := now this |} in
    (Ok newItem, set_inventoryItems (js_set id newItem (inventoryItems this)) this).

Definition getInventoryItems : M State (list InventoryItem) := fun this =>
  (Ok (js_values (inventoryItems this)), this).

Definition getInventoryItemById (id : string) : M State (option InventoryItem) :=
  fun this => (Ok (js_get id (inventoryItems this)), this).

Definition getInventoryByWarehouse (warehouseId : string) : M State (list InventoryItem) :=
  fun this =>
    (Ok (List.filter (fun item => String.eqb (item_warehouseId item) warehouseId)
           (js_values (inventoryItems this))),
     this).

Definition updateInventoryItem (id : string) (item : PartialInventoryItem)
    : M State InventoryItem := fun this =>
  match js_get id (inventoryItems this) with
  | None => (Throw (JsError "Inventory item not found"), this)
  | Some existing =>
      let updated := merge_item existing item (now this) in
      (Ok updated, set_inventoryItems (js_set id updated (inventoryItems this)) this)
  end.

Definition deleteInventoryItem (id : string) : M State unit := fun this =>
  (Ok tt, set_inventoryItems (js_delete id (inventoryItems this)) this).

(** [getLowStockItems(threshold = 10)] *)
Definition getLowStockItems (threshold : option Z) : M State (list InventoryItem) :=
  fun this =>
    (Ok (List.filter (fun item => item_quantity item <? default 10 threshold)
           (js_values (inventoryItems this))),
     this).

(** [getExpiringItems(daysAhead = 30)]; [addDays] is the calendar
    arithmetic of [setDate(getDate() + daysAhead)]. *)
Definition getExpiringItems (addDays : Time -> Z -> Time) (daysAhead : option Z)
    : M State (list InventoryItem) := fun this =>
  let futureDate := addDays (now this) (default 30 daysAhead) in
  (Ok (List.filter
         (fun item =>
            match item_expirationDate item with
            | Some date => date <=? futureDate
            | None => false
            end)
         (js_values (inventoryItems this))),
   this).

Definition createProductHistory (history : InsertProductHistory) : M State ProductHistory :=
  fun this =>
    let id := "hist_" ++ pretty (now this) in
    let newHistory :=
      {| hist_id := id;
         hist_inventoryItemId := ihist_inventoryItemId history;
         hist_actionType := ihist_actionType history;
         hist_quantityChange := ihist_quantityChange history;
         hist_previousQuantity := ihist_previousQuantity history;
         hist_newQuantity := ihist_newQuantity history;
         hist_userId := ihist_userId history;
         hist_notes := ihist_notes history;
         hist_timestamp := now this |} in
    let existing :=
      default [] (js_get (ihist_inventoryItemId history) (productHistory this)) in
    (Ok newHistory,
     set_productHistory
       (js_set (ihist_inventoryItemId history) (existing ++ [newHistory])%list
          (productHistory this))
       this).

Definition getProductHistory (inventoryItemId : string) : M State (list ProductHistory) :=
  fun this => (Ok (default [] (js_get inventoryItemId (productHistory this))), this).

Definition createTable (table : InsertTable) : M State DataTable := fun this =>
  let id := "tbl_" ++ pretty (now this) in
  let newTable :=
    {| table_id := id;
       table_name := itable_name table;
       table_description := itable_description table;
       table_createdBy := itable_createdBy table;
       table_createdAt := now this |} in
  (Ok newTable, set_tables (js_set id newTable (tables this)) (tableRows this) this).

Definition getTables : M State (list DataTable) := fun this =>
  (Ok (js_values (tables this)), this).

Definition getTableById (id : string) : M State (option DataTable) := fun this =>
  (Ok (js_get id (tables this)), this).

Definition deleteTable (id : string) : M State unit := fun this =>
  (Ok tt, set_tables (js_delete id (tables this)) (js_delete id (tableRows this)) this).

(** [{ id, ...row, createdAt: new Date() }]: an id that comes with the
    row replaces the generated one. *)
Definition createTableRow (row : InsertTableRow) : M State TableRow := fun this =>
  let id := "row_" ++ pretty (now this) in
  let newRow :=
    {| row_id := default id (irow_id row);
       row_tableId := irow_tableId row;
       row_data := irow_data row;
       row_createdAt := now this |} in
  let existing := default [] (js_get (irow_tableId row) (tableRows this)) in
  (Ok newRow,
   set_tables (tables this)
     (js_set (irow_tableId row) (existing ++ [newRow])%list (tableRows this)) this).

Definition getTableRows (tableId : string) : M State (list TableRow) := fun this =>
  (Ok (default [] (js_get tableId (tableRows this))), this).

Definition deleteTableRow (id : string) : M State unit := fun this =>
  (Ok tt, set_tables (tables this) (delete_row_in id (tableRows this)) this).

(** [getDashboardStats()]; [toISOString] renders a date. *)
Definition getDashboardStats (addDays : Time -> Z -> Time) (toISOString : Time -> string)
    : M State DashboardStats :=
  let* warehouses := getWarehouses in
  let* items := getInventoryItems in
  let* lowStock := getLowStockItems None in
  let* expiring := getExpiringItems addDays None in
  fun this =>
    (Ok {| totalWarehouses := length warehouses;
           totalInventoryItems := length items;
           lowStockCount := length lowStock;
           expiringCount := length expiring;
           recentActivity :=
             List.map
               (fun log =>
                  {| activity_type := log_action log;
                     activity_description := log_action log;
                     activity_timestamp := toISOString (log_timestamp log) |})
               (rev (js_slice_from (-5) (MemStorage.auditLogs (core this)))) |},
     this).

(** [MemStorage implements IStorage] *)
Definition storage : IStorage State :=
  mkStorage State
    (fun user => on_core (MemStorage.upsertUser user))
    (fun id => on_core (MemStorage.getUserById id))
    (fun id data => on_core (MemStorage.updateUserRole id data))
    createWarehouse updateWarehouse deleteWarehouse
    createInventoryItem getInventoryItemById updateInventoryItem deleteInventoryItem
    createProductHistory
    createTable deleteTable
    (fun log => on_core (MemStorage.createAuditLog log))
    (fun limit => on_core (MemStorage.getAuditLogs limit)).

End MemStore.

(* ===================================================================== *)
(** ** More sample data *)
(* ===================================================================== *)

Module Sample.

(** An identity provider that answers discovery but whose authorization
    endpoint is missing from the metadata. *)
Definition idp_no_endpoint : OidcClient :=
  mkOidcClient
    (Ok (mkConfiguration "https://replit.com" "localhost:5000"))
    "verifier-2" (fun v => "challenge-of-" ++ v) "state-2"
    (fun _ _ => Throw (JsError "authorization_endpoint missing"))
    (fun _ _ _ _ => Throw (ExternalError "no token endpoint"))
    (fun _ _ _ => Throw (ExternalError "no userinfo endpoint")).

Definition callbackUri : string := "http://localhost:5000/api/auth/callback".

(** A deployment whose database role may read the other tables but not
    write them. *)
Definition entities_read_only : EntityQueries Fixture.Tables :=
  mkEntityQueries Fixture.Tables
    (fun _ => Fixture.refused)
    (fun _ _ => Fixture.refused)
    (fun _ => Fixture.refused)
    (fun _ => Fixture.refused)
    (q_getInventoryItemById Fixture.entities)
    (fun _ _ => Fixture.refused)
    (fun _ => Fixture.refused)
    (fun _ => Fixture.refused)
    (fun _ => Fixture.refused)
    (fun _ => Fixture.refused).

Definition config : Configuration := mkConfiguration "https://replit.com" "localhost:5000".

End Sample.

(* ===================================================================== *)
(** * Properties *)
(* ===================================================================== *)

(** ** Middleware *)

Lemma isAuthenticated_resolved {St} (storage : IStorage St) req next sid actor s s' :
  or_null (sess_userId (req_session req)) = Some sid ->
  getUserById storage sid s = (Ok (Some actor), s') ->
  isAuthenticated storage req next s = next (with_user req actor) s'.
Proof. intros Hsid Hget. unfold isAuthenticated. rewrite Hsid, Hget. reflexivity. Qed.

Lemma requireRole_member {St} allowed req (next : Handler St) actor s :
  req_user req = Some actor ->
  includes allowed (role_name (user_role actor)) = true ->
  requireRole allowed req next s = next req s.
Proof. intros Hu Hin. unfold requireRole. rewrite Hu, Hin. reflexivity. Qed.

Lemma requireRole_outsider {St} allowed req (next : Handler St) actor s :
  req_user req = Some actor ->
  includes allowed (role_name (user_role actor)) = false ->
  requireRole allowed req next s
  = (Ok (json_message 403 "Forbidden: Insufficient permissions"), s).
Proof. intros Hu Hin. unfold requireRole. rewrite Hu, Hin. reflexivity. Qed.

Lemma role_of_string_name r : role_of_string (role_name r) = Some r.
Proof. destruct r; reflexivity. Qed.

Lemma role_name_inj r1 r2 : role_name r1 = role_name r2 -> r1 = r2.
Proof.
  intros H. assert (Some r1 = Some r2) as [= ->]; [|done].
  rewrite <- !role_of_string_name. by rewrite H.
Qed.

(** The schema lets through exactly the bodies whose [role] property is
    the name of one of the four roles. *)
Lemma updateUserRoleSchema_accepts body data :
  updateUserRoleSchema_parse body = Ok data
  <-> exists props,
        body = JObj props
        /\ obj_get "role" props = Some (JStr (role_name (new_role data)))
        /\ In (new_role data) userRoles.
Proof.
  unfold updateUserRoleSchema_parse. split.
  - destruct body as [| | | | | |props]; try discriminate.
    destruct (obj_get "role" props) as [[| | | |s| |]|] eqn:Hget; try discriminate.
    destruct (role_of_string s) as [r|] eqn:Hrole; [|discriminate].
    intros [= <-]. exists props. cbn [new_role].
    assert (role_name r = s) as <-.
    { unfold role_of_string in Hrole. apply find_some in Hrole as [_ Heq].
      by apply String.eqb_eq in Heq. }
    split; [reflexivity|]. split; [assumption|]. destruct r; cbn; tauto.
  - intros (props & -> & -> & _). rewrite role_of_string_name. by destruct data.
Qed.

Lemma is_super_admin_name r :
  String.eqb (role_name r) "super_admin" = bool_decide (r = super_admin).
Proof. destruct r; reflexivity. Qed.

(** ** Users in the database *)

Section DatabaseUsers.
Context {Ext : Type} (entities : EntityQueries Ext).
Implicit Types (db : Database Ext) (id : string).

Lemma db_getUserById id db :
  DatabaseStorage.getUserById id db = (Ok (db_users db !! id), db).
Proof.
  unfold DatabaseStorage.getUserById, DatabaseStorage.select_users_by_id, bind, ret.
  destruct (db_users db !! id); reflexivity.
Qed.

Lemma db_updateUserRole_found id data db u :
  db_users db !! id = Some u ->
  DatabaseStorage.updateUserRole id data db
  = (Ok (set_role (new_role data) (db_now db) u),
     DatabaseStorage.set_users
       (<[id := set_role (new_role data) (db_now db) u]> (db_users db)) db).
Proof.
  intros Hu.
  unfold DatabaseStorage.updateUserRole, DatabaseStorage.update_users_by_id,
    DatabaseStorage.new_Date, bind.
  rewrite Hu. reflexivity.
Qed.

Lemma db_updateUserRole_missing id data db :
  db_users db !! id = None ->
  DatabaseStorage.updateUserRole id data db = (Throw (JsError "User not found"), db).
Proof.
  intros Hu.
  unfold DatabaseStorage.updateUserRole, DatabaseStorage.update_users_by_id,
    DatabaseStorage.new_Date, bind.
  rewrite Hu. reflexivity.
Qed.

(** An entry that leaves the id to the column default, as every entry
    of [auditLog] does, is appended. *)
Lemma db_createAuditLog_appends log db :
  ilog_id log = None ->
  exists row db',
    DatabaseStorage.createAuditLog log db = (Ok row, db')
    /\ db_users db' = db_users db
    /\ db_audit_logs db' = (db_audit_logs db ++ [row])%list
    /\ log_action row = ilog_action log.
Proof.
  intros Hid.
  unfold DatabaseStorage.createAuditLog, DatabaseStorage.audit_log_id,
    DatabaseStorage.gen_random_uuid, DatabaseStorage.new_Date, bind, ret.
  rewrite Hid. eexists _, _. (split; [reflexivity|]); cbn; auto.
Qed.

Lemma db_auditLog_appends userId action endpoint method details ip db :
  exists row db',
    auditLog (DatabaseStorage.storage entities) userId action endpoint method details ip db
    = (Ok tt, db')
    /\ db_users db' = db_users db
    /\ db_audit_logs db' = (db_audit_logs db ++ [row])%list
    /\ log_action row = action.
Proof.
  unfold auditLog, try_catch, bind. cbn [createAuditLog DatabaseStorage.storage].
  match goal with |- context [DatabaseStorage.createAuditLog ?l db] =>
    destruct (db_createAuditLog_appends l db eq_refl) as (row & db' & -> & Hu & Hl & Ha)
  end.
  exists row, db'. cbn in Ha. auto.
Qed.

(** The role route once authentication and the route's allow-set have
    let the actor through. *)
Lemma patch_role_enters schemas req sid actor db :
  or_null (sess_userId (req_session req)) = Some sid ->
  db_users db !! sid = Some actor ->
  user_role actor = admin \/ user_role actor = super_admin ->
  serve (DatabaseStorage.storage entities) schemas PATCH_users_id_role req db
  = patch_users_id_role (DatabaseStorage.storage entities) (with_user req actor) db.
Proof.
  intros Hsid Hactor Hrole. unfold serve. cbn [registerRoutes fst snd chain].
  rewrite (isAuthenticated_resolved _ _ _ sid actor db db Hsid).
  2:{ cbn [getUserById DatabaseStorage.storage]. by rewrite db_getUserById, Hactor. }
  apply requireRole_member with actor; [reflexivity|].
  destruct Hrole as [-> | ->]; reflexivity.
Qed.

Lemma patch_role_denied req actor db :
  req_user req = Some actor ->
  updateUserRoleSchema_parse (req_body req) = Ok (mkUpdateUserRole super_admin) ->
  user_role actor <> super_admin ->
  patch_users_id_role (DatabaseStorage.storage entities) req db
  = (Ok (json_message 403 "Only super admins can assign super admin role"), db).
Proof.
  intros Hu Hparse Hrole.
  unfold patch_users_id_role, try_catch, bind, lift_outcome, actor_is_super_admin.
  rewrite Hparse, Hu. cbn [new_role]. rewrite !is_super_admin_name.
  rewrite (bool_decide_eq_false_2 _ Hrole). reflexivity.
Qed.

Lemma patch_role_guard_open req actor target :
  req_user req = Some actor ->
  user_role actor = super_admin \/ target <> super_admin ->
  String.eqb (role_name target) "super_admin" && negb (actor_is_super_admin req) = false.
Proof.
  intros Hu Hopen. unfold actor_is_super_admin. rewrite Hu, !is_super_admin_name.
  destruct Hopen as [-> | Hne].
  - cbn. apply andb_false_r.
  - by rewrite (bool_decide_eq_false_2 _ Hne).
Qed.

Lemma patch_role_proceeds req actor target u db :
  req_user req = Some actor ->
  updateUserRoleSchema_parse (req_body req) = Ok (mkUpdateUserRole target) ->
  user_role actor = super_admin \/ target <> super_admin ->
  db_users db !! req_param_id req = Some u ->
  exists row db',
    patch_users_id_role (DatabaseStorage.storage entities) req db
    = (Ok (mkResponse 200 (UserJson (Some (set_role target (db_now db) u)))), db')
    /\ db_users db' = <[req_param_id req := set_role target (db_now db) u]> (db_users db)
    /\ db_audit_logs db' = (db_audit_logs db ++ [row])%list
    /\ log_action row = "UPDATE_USER_ROLE".
Proof.
  intros Hu Hparse Hopen Htarget.
  unfold patch_users_id_role, try_catch, bind at 1, lift_outcome.
  rewrite Hparse. cbn [new_role].
  rewrite (patch_role_guard_open req actor target Hu Hopen).
  unfold bind at 1. cbn [updateUserRole DatabaseStorage.storage].
  rewrite (db_updateUserRole_found _ _ _ u Htarget). cbn [new_role].
  unfold bind at 1.
  match goal with |- context [auditLog _ ?a ?b ?c ?d ?e ?f ?g] =>
    destruct (db_auditLog_appends a b c d e f g) as (row & db' & -> & Hus & Hls & Ha)
  end.
  exists row, db'. unfold ret. repeat split; auto.
Qed.

Lemma patch_role_missing req actor target db :
  req_user req = Some actor ->
  updateUserRoleSchema_parse (req_body req) = Ok (mkUpdateUserRole target) ->
  user_role actor = super_admin \/ target <> super_admin ->
  db_users db !! req_param_id req = None ->
  patch_users_id_role (DatabaseStorage.storage entities) req db
  = (Ok (json_message 400 "User not found"), db).
Proof.
  intros Hu Hparse Hopen Htarget.
  unfold patch_users_id_role, try_catch, bind at 1, lift_outcome.
  rewrite Hparse. cbn [new_role].
  rewrite (patch_role_guard_open req actor target Hu Hopen).
  unfold bind at 1. cbn [updateUserRole DatabaseStorage.storage].
  rewrite (db_updateUserRole_missing _ _ _ Htarget). reflexivity.
Qed.

End DatabaseUsers.

(** ** Role assignment *)

(** C1. An actor admitted by the allow-set of PATCH /api/users/:id/role
    who asks for [super_admin] without holding it gets 403 and the store
    is untouched; a [super_admin] actor, or any other target role, gets
    through the guard, and the addressed user comes back (200) with the
    new role, which is also what the users table then holds under that
    id: [role] is the requested one, [updatedAt] the clock, and every
    other column as it was. *)
Theorem role_assignment_guard {Ext} (entities : EntityQueries Ext) (schemas : Schemas)
    (db : Database Ext) (req : Request) (sid : string) (actor : User) (target : UserRole) :
  or_null (sess_userId (req_session req)) = Some sid ->
  db_users db !! sid = Some actor ->
  user_role actor = admin \/ user_role actor = super_admin ->
  updateUserRoleSchema_parse (req_body req) = Ok (mkUpdateUserRole target) ->
  (target = super_admin -> user_role actor <> super_admin ->
     serve (DatabaseStorage.storage entities) schemas PATCH_users_id_role req db
     = (Ok (json_message 403 "Only super admins can assign super admin role"), db))
  /\
  (user_role actor = super_admin \/ target <> super_admin ->
     forall u, db_users db !! req_param_id req = Some u ->
     exists updated db',
       serve (DatabaseStorage.storage entities) schemas PATCH_users_id_role req db
       = (Ok (mkResponse 200 (UserJson (Some updated))), db')
       /\ db_users db' !! req_param_id req = Some updated
       /\ user_role updated = target
       /\ user_updatedAt updated = db_now db
       /\ updated
          = mkUser (user_id u) (user_email u) (user_firstName u) (user_lastName u)
              (user_profileImageUrl u) target (user_createdAt u) (db_now db)
       /\ (forall id, id <> req_param_id req -> db_users db' !! id = db_users db !! id)).
Proof.
  intros Hsid Hactor Hallowed Hparse.
  rewrite (patch_role_enters entities schemas req sid actor db Hsid Hactor Hallowed).
  split.
  - intros -> Hnot. by apply patch_role_denied with actor.
  - intros Hopen u Hu.
    destruct (patch_role_proceeds entities (with_user req actor) actor target u db)
      as (row & db' & Hrun & Husers & _); auto.
    exists (set_role target (db_now db) u), db'. split; [assumption|].
    rewrite Husers. split; [apply lookup_insert_eq|].
    repeat (split; [reflexivity|]).
    intros id Hne. by apply lookup_insert_ne.
Qed.

Lemma role_assignment_guard_witness :
  serve Fixture.storage Fixture.schemas PATCH_users_id_role
    (Fixture.request (Some "alice") "bob" (Fixture.role_body "super_admin")) Fixture.db
  = (Ok (json_message 403 "Only super admins can assign super admin role"), Fixture.db)
  /\
  user_role Fixture.bob = viewer
  /\ exists updated db',
       serve Fixture.storage Fixture.schemas PATCH_users_id_role
         (Fixture.request (Some "root") "bob" (Fixture.role_body "super_admin")) Fixture.db
       = (Ok (mkResponse 200 (UserJson (Some updated))), db')
       /\ db_users db' !! "bob" = Some updated
       /\ user_role updated = super_admin.
Proof.
  split; [|split; [reflexivity|]].
  - apply (role_assignment_guard Fixture.entities Fixture.schemas Fixture.db
             (Fixture.request (Some "alice") "bob" (Fixture.role_body "super_admin"))
             "alice" Fixture.alice super_admin);
      [reflexivity | reflexivity | left; reflexivity | reflexivity
      | reflexivity | discriminate].
  - destruct (role_assignment_guard Fixture.entities Fixture.schemas Fixture.db
                (Fixture.request (Some "root") "bob" (Fixture.role_body "super_admin"))
                "root" Fixture.root super_admin eq_refl eq_refl (or_intror eq_refl)
                eq_refl) as [_ Hproceeds].
    destruct (Hproceeds (or_introl eq_refl) Fixture.bob eq_refl)
      as (updated & db' & Hrun & Hstored & Hrole & _).
    exists updated, db'. auto.
Defined.

(** C9. The guard looks at the role being assigned only.  An [admin]
    actor may give any existing user, whatever that user's current role
    (a [super_admin] included), one of the roles viewer, manager or
    admin: the answer is 200 and the users table holds the new role. *)
Theorem admin_reassigns_any_user {Ext} (entities : EntityQueries Ext) (schemas : Schemas)
    (db : Database Ext) (req : Request) (sid : string) (actor u : User) (target : UserRole) :
  or_null (sess_userId (req_session req)) = Some sid ->
  db_users db !! sid = Some actor ->
  user_role actor = admin ->
  db_users db !! req_param_id req = Some u ->
  target = viewer \/ target = manager \/ target = admin ->
  updateUserRoleSchema_parse (req_body req) = Ok (mkUpdateUserRole target) ->
  exists db',
    serve (DatabaseStorage.storage entities) schemas PATCH_users_id_role req db
    = (Ok (mkResponse 200 (UserJson (Some (set_role target (db_now db) u)))), db')
    /\ db_users db' !! req_param_id req = Some (set_role target (db_now db) u)
    /\ user_role (set_role target (db_now db) u) = target.
Proof.
  intros Hsid Hactor Hadmin Hu Htarget Hparse.
  rewrite (patch_role_enters entities schemas req sid actor db Hsid Hactor (or_introl Hadmin)).
  destruct (patch_role_proceeds entities (with_user req actor) actor target u db)
    as (row & db' & Hrun & Husers & _); auto.
  { right. destruct Htarget as [-> | [-> | ->]]; discriminate. }
  exists db'. split; [assumption|]. split; [|reflexivity].
  rewrite Husers. apply lookup_insert_eq.
Qed.

Lemma admin_reassigns_any_user_witness :
  user_role Fixture.root = super_admin /\
  exists db',
    serve Fixture.storage Fixture.schemas PATCH_users_id_role
      (Fixture.request (Some "alice") "root" (Fixture.role_body "viewer")) Fixture.db
    = (Ok (mkResponse 200 (UserJson (Some (set_role viewer 2000 Fixture.root)))), db')
    /\ db_users db' !! "root" = Some (set_role viewer 2000 Fixture.root)
    /\ user_role (set_role viewer 2000 Fixture.root) = viewer.
Proof.
  split; [reflexivity|].
  apply (admin_reassigns_any_user Fixture.entities Fixture.schemas Fixture.db
           (Fixture.request (Some "alice") "root" (Fixture.role_body "viewer"))
           "alice" Fixture.alice Fixture.root viewer);
    [reflexivity | reflexivity | reflexivity | reflexivity
    | left; reflexivity | reflexivity].
Defined.

(** C7. A role update addressed to an id that matches no user makes the
    store throw "User not found"; the route's handler turns every thrown
    error into status 400, so the answer is 400, not 404.  A role outside
    the four recognised values is refused by the schema (also 400) before
    the store is called. *)
Theorem role_update_missing_user_answers_400 :
  db_users Fixture.db !! "ghost" = None
  /\ serve Fixture.storage Fixture.schemas PATCH_users_id_role
       (Fixture.request (Some "alice") "ghost" (Fixture.role_body "viewer")) Fixture.db
     = (Ok (json_message 400 "User not found"), Fixture.db)
  /\ status (json_message 400 "User not found") <> 404
  /\ (exists message,
        serve Fixture.storage Fixture.schemas PATCH_users_id_role
          (Fixture.request (Some "alice") "bob" (Fixture.role_body "owner")) Fixture.db
        = (Ok (json_message 400 message), Fixture.db)).
Proof.
  split; [reflexivity|]. split; [|split; [discriminate|]].
  - unfold Fixture.storage.
    rewrite (patch_role_enters Fixture.entities Fixture.schemas _ "alice" Fixture.alice);
      [|reflexivity|reflexivity|left; reflexivity].
    apply patch_role_missing with Fixture.alice viewer;
      [reflexivity|reflexivity|right; discriminate|reflexivity].
  - unfold Fixture.storage.
    rewrite (patch_role_enters Fixture.entities Fixture.schemas _ "alice" Fixture.alice);
      [|reflexivity|reflexivity|left; reflexivity].
    eexists. reflexivity.
Qed.

(** ** The OIDC callback *)

Section Callback.
Context {St : Type} (storage : IStorage St).
Implicit Types (client : OidcClient) (app : App St) (req : Request).

Lemma getOIDCConfig_frame client app o app1 :
  getOIDCConfig client app = (o, app1) ->
  session app1 = session app /\ store app1 = store app
  /\ (forall config, o = Ok config -> oidcConfig app1 = Some config)
  /\ (forall e, o = Throw e -> app1 = app).
Proof.
  unfold getOIDCConfig.
  destruct (oidcConfig app) as [cached|] eqn:Hc.
  - intros [= <- <-]. repeat split; intros; congruence.
  - destruct (discovery client) as [config|e]; intros [= <- <-]; cbn;
      repeat split; intros; congruence.
Qed.

Lemma getOIDCConfig_cached client app config :
  oidcConfig app = Some config -> getOIDCConfig client app = (Ok config, app).
Proof. intros H. unfold getOIDCConfig. by rewrite H. Qed.

Lemma getOIDCConfig_endpoints grant userinfo client app :
  getOIDCConfig (with_endpoints grant userinfo client) app = getOIDCConfig client app.
Proof. reflexivity. Qed.

(** Without a usable pending-login record the handler stops right
    after obtaining the configuration. *)
Lemma callback_no_pending client redirectUri req app :
  falsy (sess_codeVerifier (session app)) = true
  \/ falsy (sess_state (session app)) = true ->
  callback storage client redirectUri req app
  = match getOIDCConfig client app with
    | (Ok _, app1) => (Ok (mkResponse 400 (Text "Invalid session")), app1)
    | (Throw _, app1) => (Ok (mkResponse 500 (Text "Authentication failed")), app1)
    end.
Proof.
  intros Hfalsy. unfold callback, try_catch, bind at 1.
  destruct (getOIDCConfig client app) as [[config|e] app1] eqn:Hcfg; [|reflexivity].
  destruct (getOIDCConfig_frame _ _ _ _ Hcfg) as (Hsess & _).
  unfold bind at 1, get_session. rewrite Hsess.
  unfold falsy in Hfalsy.
  destruct (or_null (sess_codeVerifier (session app))),
    (or_null (sess_state (session app))); try reflexivity;
    destruct Hfalsy; discriminate.
Qed.

(** With a pending-login record and the configuration at hand, the
    handler's fate is that of the exchange, the claims fetch and the
    upsert, in this order. *)
Lemma callback_pending client redirectUri req app config app1 verifier state :
  getOIDCConfig client app = (Ok config, app1) ->
  or_null (sess_codeVerifier (session app)) = Some verifier ->
  or_null (sess_state (session app)) = Some state ->
  callback storage client redirectUri req app
  = match authorizationCodeGrant client config (mkUrl redirectUri (req_query req))
            verifier state with
    | Throw _ => (Ok (mkResponse 500 (Text "Authentication failed")), app1)
    | Ok tokens =>
        match fetchUserInfo client config (access_token tokens) (token_type tokens) with
        | Throw _ => (Ok (mkResponse 500 (Text "Authentication failed")), app1)
        | Ok userinfo =>
            match upsertUser storage
                    {| upsert_id := sub userinfo;
                       upsert_email := or_null (email userinfo);
                       upsert_firstName := or_null (given_name userinfo);
                       upsert_lastName := or_null (family_name userinfo);
                       upsert_profileImageUrl := or_null (picture userinfo) |}
                    (store app) with
            | (Ok user, st) =>
                (Ok (redirect "/"),
                 mkApp (oidcConfig app1) (mkSession (Some (user_id user)) None None) st)
            | (Throw _, st) =>
                (Ok (mkResponse 500 (Text "Authentication failed")),
                 mkApp (oidcConfig app1) (session app) st)
            end
        end
    end.
Proof.
  intros Hcfg Hv Hs.
  destruct (getOIDCConfig_frame _ _ _ _ Hcfg) as (Hsess & Hstore & _).
  unfold callback, try_catch, bind at 1. rewrite Hcfg.
  unfold bind at 1, get_session. rewrite Hsess, Hv, Hs.
  unfold bind at 1, lift_outcome.
  destruct (authorizationCodeGrant _ _ _ _ _) as [tokens|e]; [|reflexivity].
  unfold bind at 1.
  destruct (fetchUserInfo _ _ _ _) as [userinfo|e]; [|reflexivity].
  unfold bind at 1, on_store. rewrite Hstore, Hsess.
  destruct (upsertUser storage _ (store app)) as [[user|e] st]; reflexivity.
Qed.

End Callback.

(** C2. When the token exchange fails (a [state] parameter that differs
    from the one kept in the session is such a failure, by the library's
    contract) or the claims fetch fails, the callback answers 500
    "Authentication failed"; the session, its [userId] included, and the
    store are exactly as before, so no user was created or updated. *)
Theorem callback_failure_keeps_session {St} (storage : IStorage St) (client : OidcClient)
    (redirectUri : string) (req : Request) (app app1 : App St) (config : Configuration)
    (verifier state : string) :
  getOIDCConfig client app = (Ok config, app1) ->
  or_null (sess_codeVerifier (session app)) = Some verifier ->
  or_null (sess_state (session app)) = Some state ->
  (exists e,
      authorizationCodeGrant client config (mkUrl redirectUri (req_query req))
        verifier state = Throw e)
  \/ (validates_state client /\ search_get "state" (req_query req) <> Some state)
  \/ (exists tokens e,
        authorizationCodeGrant client config (mkUrl redirectUri (req_query req))
          verifier state = Ok tokens
        /\ fetchUserInfo client config (access_token tokens) (token_type tokens) = Throw e) ->
  callback storage client redirectUri req app
  = (Ok (mkResponse 500 (Text "Authentication failed")), app1)
  /\ session app1 = session app
  /\ store app1 = store app.
Proof.
  intros Hcfg Hv Hs Hfail.
  destruct (getOIDCConfig_frame _ _ _ _ Hcfg) as (Hsess & Hstore & _).
  split; [|split; assumption].
  rewrite (callback_pending storage client redirectUri req app config app1 verifier state
             Hcfg Hv Hs).
  destruct Hfail as [[e He] | [[Hlib Hne] | (tokens & e & Hgrant & Hinfo)]].
  - by rewrite He.
  - destruct (Hlib config (mkUrl redirectUri (req_query req)) verifier state Hne) as [e He].
    by rewrite He.
  - by rewrite Hgrant, Hinfo.
Qed.

Lemma callback_failure_keeps_session_witness :
  let app :=
    mkApp None (mkSession (Some "bob") (Some "verifier-1") (Some "state-1")) Fixture.db in
  let app1 :=
    mkApp (Some (mkConfiguration "https://replit.com" "localhost:5000"))
      (session app) (store app) in
  callback Fixture.storage Fixture.idp "http://localhost:5000/api/auth/callback"
    (Fixture.callback_request [("code", "c0de"); ("state", "forged")]) app
  = (Ok (mkResponse 500 (Text "Authentication failed")), app1)
  /\ session app1 = session app
  /\ store app1 = store app.
Proof.
  intros app app1.
  apply (callback_failure_keeps_session Fixture.storage Fixture.idp
           "http://localhost:5000/api/auth/callback"
           (Fixture.callback_request [("code", "c0de"); ("state", "forged")])
           app app1 (mkConfiguration "https://replit.com" "localhost:5000")
           "verifier-1" "state-1");
    [reflexivity | reflexivity | reflexivity |].
  right; left. split; [|discriminate].
  intros config url verifier expected Hne. cbn.
  rewrite (bool_decide_eq_false_2 _ Hne). eexists; reflexivity.
Defined.

(** C3. A callback whose exchange, claims fetch and upsert all succeed
    redirects to "/", sets the session's [userId] to the id of the
    upserted user and removes [codeVerifier] and [state]; any further
    callback on that session finds no pending-login record and is
    answered 400 "Invalid session". *)
Theorem callback_success_is_single_use {St} (storage : IStorage St) (client : OidcClient)
    (redirectUri : string) (req : Request) (app app1 : App St) (config : Configuration)
    (verifier state : string) (tokens : TokenSet) (userinfo : UserInfo)
    (user : User) (st : St) :
  getOIDCConfig client app = (Ok config, app1) ->
  or_null (sess_codeVerifier (session app)) = Some verifier ->
  or_null (sess_state (session app)) = Some state ->
  authorizationCodeGrant client config (mkUrl redirectUri (req_query req)) verifier state
  = Ok tokens ->
  fetchUserInfo client config (access_token tokens) (token_type tokens) = Ok userinfo ->
  upsertUser storage
    {| upsert_id := sub userinfo;
       upsert_email := or_null (email userinfo);
       upsert_firstName := or_null (given_name userinfo);
       upsert_lastName := or_null (family_name userinfo);
       upsert_profileImageUrl := or_null (picture userinfo) |}
    (store app) = (Ok user, st) ->
  let app2 := mkApp (Some config) (mkSession (Some (user_id user)) None None) st in
  callback storage client redirectUri req app = (Ok (redirect "/"), app2)
  /\ (forall client' redirectUri' req',
        callback storage client' redirectUri' req' app2
        = (Ok (mkResponse 400 (Text "Invalid session")), app2)).
Proof.
  intros Hcfg Hv Hs Hgrant Hinfo Hupsert app2.
  destruct (getOIDCConfig_frame _ _ _ _ Hcfg) as (_ & _ & Hcached & _).
  split.
  - rewrite (callback_pending storage client redirectUri req app config app1 verifier state
               Hcfg Hv Hs).
    rewrite Hgrant, Hinfo, Hupsert, (Hcached config eq_refl). reflexivity.
  - intros client' redirectUri' req'.
    rewrite callback_no_pending by (left; reflexivity).
    by rewrite (getOIDCConfig_cached client' app2 config).
Qed.

Lemma callback_success_is_single_use_witness :
  let app := mkApp None (mkSession None (Some "verifier-1") (Some "state-1")) Fixture.db in
  exists app2,
    callback Fixture.storage Fixture.idp "http://localhost:5000/api/auth/callback"
      (Fixture.callback_request [("code", "c0de"); ("state", "state-1")]) app
    = (Ok (redirect "/"), app2)
    /\ session app2 = mkSession (Some "dave") None None
    /\ callback Fixture.storage Fixture.idp "http://localhost:5000/api/auth/callback"
         (Fixture.callback_request [("code", "c0de"); ("state", "state-1")]) app2
       = (Ok (mkResponse 400 (Text "Invalid session")), app2).
Proof.
  intros app.
  edestruct (callback_success_is_single_use Fixture.storage Fixture.idp
               "http://localhost:5000/api/auth/callback"
               (Fixture.callback_request [("code", "c0de"); ("state", "state-1")])
               app) as [Hfirst Hagain];
    [reflexivity | reflexivity | reflexivity | reflexivity | reflexivity | reflexivity |].
  eexists. split; [exact Hfirst|]. split; [reflexivity|]. apply Hagain.
Defined.

(** C8, as the code has it: the discovery document is obtained before
    the session is looked at, so a discovery failure answers 500 even
    without a pending-login record. *)
Lemma callback_without_pending_login_answers_500 :
  let app := mkApp None (mkSession None None None) Fixture.db in
  falsy (sess_codeVerifier (session app)) = true
  /\ falsy (sess_state (session app)) = true
  /\ callback Fixture.storage Fixture.idp_down "http://localhost:5000/api/auth/callback"
       (Fixture.callback_request [("code", "c0de"); ("state", "s")]) app
     = (Ok (mkResponse 500 (Text "Authentication failed")), app)
  /\ status (mkResponse 500 (Text "Authentication failed")) <> 400.
Proof. repeat split. discriminate. Qed.

(** C8, amended. With the configuration available (cached, or freshly
    discovered), a callback on a session without a pending-login record
    ([codeVerifier] or [state] absent) is answered 400 "Invalid session";
    the session and the store are unchanged, and the answer does not
    depend on the token or userinfo endpoints, which are never asked. *)
Theorem callback_without_pending_login {St} (storage : IStorage St) (client : OidcClient)
    (redirectUri : string) (req : Request) (app app1 : App St) (config : Configuration) :
  falsy (sess_codeVerifier (session app)) = true
  \/ falsy (sess_state (session app)) = true ->
  getOIDCConfig client app = (Ok config, app1) ->
  callback storage client redirectUri req app
  = (Ok (mkResponse 400 (Text "Invalid session")), app1)
  /\ session app1 = session app
  /\ store app1 = store app
  /\ (forall grant userinfo,
        callback storage (with_endpoints grant userinfo client) redirectUri req app
        = callback storage client redirectUri req app).
Proof.
  intros Hnone Hcfg.
  destruct (getOIDCConfig_frame _ _ _ _ Hcfg) as (Hsess & Hstore & _).
  split; [|split; [assumption|split; [assumption|]]].
  - by rewrite callback_no_pending, Hcfg.
  - intros grant userinfo.
    by rewrite !callback_no_pending, getOIDCConfig_endpoints.
Qed.

Lemma callback_without_pending_login_witness :
  let app := mkApp None (mkSession (Some "bob") None (Some "state-1")) Fixture.db in
  let app1 :=
    mkApp (Some (mkConfiguration "https://replit.com" "localhost:5000"))
      (session app) (store app) in
  callback Fixture.storage Fixture.idp "http://localhost:5000/api/auth/callback"
    (Fixture.callback_request [("code", "c0de"); ("state", "state-1")]) app
  = (Ok (mkResponse 400 (Text "Invalid session")), app1).
Proof.
  intros app app1.
  apply (callback_without_pending_login Fixture.storage Fixture.idp
           "http://localhost:5000/api/auth/callback"
           (Fixture.callback_request [("code", "c0de"); ("state", "state-1")])
           app app1 (mkConfiguration "https://replit.com" "localhost:5000"));
    [left; reflexivity | reflexivity].
Defined.

(** ** Upserting users *)

Section DatabaseUpsert.
Context {Ext : Type}.
Implicit Types (db : Database Ext) (user : UpsertUser).

Lemma db_upsertUser_existing user db existing :
  db_users db !! upsert_id user = Some existing ->
  DatabaseStorage.upsertUser user db
  = (Ok (set_profile user (db_now db) existing),
     DatabaseStorage.set_users
       (<[upsert_id user := set_profile user (db_now db) existing]> (db_users db)) db).
Proof.
  intros Hex.
  unfold DatabaseStorage.upsertUser, DatabaseStorage.select_users_by_id, bind at 1.
  rewrite Hex.
  unfold bind, DatabaseStorage.new_Date, DatabaseStorage.update_users_by_id.
  simpl. rewrite Hex. reflexivity.
Qed.

Lemma db_upsertUser_absent user db :
  db_users db !! upsert_id user = None ->
  let created :=
    mkUser (upsert_id user) (upsert_email user) (upsert_firstName user)
      (upsert_lastName user) (upsert_profileImageUrl user) viewer (db_now db) (db_now db) in
  DatabaseStorage.upsertUser user db
  = (Ok created,
     DatabaseStorage.set_users (<[upsert_id user := created]> (db_users db)) db).
Proof.
  intros Hno created.
  unfold DatabaseStorage.upsertUser, DatabaseStorage.select_users_by_id, bind at 1.
  rewrite Hno.
  unfold bind, DatabaseStorage.new_Date, DatabaseStorage.insert_user.
  simpl. rewrite Hno. reflexivity.
Qed.

(** The dead [undefined] branches are never taken. *)
Lemma upsertUser_returns user db :
  exists row db', DatabaseStorage.upsertUser user db = (Ok row, db').
Proof.
  destruct (db_users db !! upsert_id user) as [existing|] eqn:Hex.
  - rewrite (db_upsertUser_existing _ _ _ Hex). eauto.
  - rewrite (db_upsertUser_absent _ _ Hex). eauto.
Qed.

(** One sign-in leaves the role and creation time of every stored user
    where they were. *)
Lemma db_upsertUser_keeps user db id u :
  db_users db !! id = Some u ->
  exists u',
    db_users (DatabaseStorage.upsertUser user db).2 !! id = Some u'
    /\ user_role u' = user_role u
    /\ user_createdAt u' = user_createdAt u.
Proof.
  intros Hu. destruct (decide (upsert_id user = id)) as [Heq | Hne].
  - subst id. rewrite (db_upsertUser_existing _ _ _ Hu). cbn.
    rewrite lookup_insert_eq. eauto.
  - destruct (db_users db !! upsert_id user) as [existing|] eqn:Hex.
    + rewrite (db_upsertUser_existing _ _ _ Hex). cbn.
      rewrite lookup_insert_ne by done. eauto.
    + rewrite (db_upsertUser_absent _ _ Hex). cbn.
      rewrite lookup_insert_ne by done. eauto.
Qed.

Lemma db_upserts_keep calls db id u :
  db_users db !! id = Some u ->
  exists u',
    db_users (db_upserts calls db) !! id = Some u'
    /\ user_role u' = user_role u
    /\ user_createdAt u' = user_createdAt u.
Proof.
  revert db u. induction calls as [|[now user] calls IH]; intros db u Hu.
  - exists u. auto.
  - cbn [db_upserts].
    destruct (db_upsertUser_keeps user (set_now now db) id u Hu)
      as (u1 & Hu1 & Hrole1 & Hcreated1).
    destruct (IH _ _ Hu1) as (u' & Hu' & Hrole & Hcreated).
    exists u'. split; [assumption|]. split; congruence.
Qed.

End DatabaseUpsert.

Lemma mem_upsertUser_keeps user this id u :
  MemStorage.users this !! id = Some u ->
  exists u',
    MemStorage.users (MemStorage.upsertUser user this).2 !! id = Some u'
    /\ user_role u' = user_role u
    /\ user_createdAt u' = user_createdAt u.
Proof.
  intros Hu. unfold MemStorage.upsertUser. cbn.
  destruct (decide (upsert_id user = id)) as [Heq | Hne].
  - subst id. rewrite lookup_insert_eq, Hu. eauto.
  - rewrite lookup_insert_ne by done. eauto.
Qed.

Lemma mem_upserts_keep calls this id u :
  MemStorage.users this !! id = Some u ->
  exists u',
    MemStorage.users (mem_upserts calls this) !! id = Some u'
    /\ user_role u' = user_role u
    /\ user_createdAt u' = user_createdAt u.
Proof.
  revert this u. induction calls as [|[now user] calls IH]; intros this u Hu.
  - exists u. auto.
  - cbn [mem_upserts].
    destruct (mem_upsertUser_keeps user
                (MemStorage.mkState now (MemStorage.users this) (MemStorage.auditLogs this))
                id u Hu) as (u1 & Hu1 & Hrole1 & Hcreated1).
    destruct (IH _ _ Hu1) as (u' & Hu' & Hrole & Hcreated).
    exists u'. split; [assumption|]. split; congruence.
Qed.

(** C4. For a subject that already has a user, [upsertUser] (in the
    database and in the in-memory store) returns and stores that user
    with the four profile fields and [updatedAt] replaced and with [role]
    and [createdAt] as they were; no other row or table changes, and
    after any run of further upserts the role and creation time are still
    the original ones.  For a subject without a user (on an empty users
    table too) the user is created with role viewer and the clock as
    creation time, and further upserts keep both. *)
Theorem upsert_keeps_role_and_createdAt {Ext} (db : Database Ext) (this : MemStorage.State)
    (user : UpsertUser) (calls : list (Time * UpsertUser)) :
  (* a subject that has a user: one call, then any number of calls *)
  (forall existing,
     db_users db !! upsert_id user = Some existing ->
     DatabaseStorage.upsertUser user db
     = (Ok (mkUser (user_id existing) (upsert_email user) (upsert_firstName user)
              (upsert_lastName user) (upsert_profileImageUrl user)
              (user_role existing) (user_createdAt existing) (db_now db)),
        DatabaseStorage.set_users
          (<[upsert_id user := set_profile user (db_now db) existing]> (db_users db)) db)
     /\ (exists u',
           db_users (db_upserts calls db) !! upsert_id user = Some u'
           /\ user_role u' = user_role existing
           /\ user_createdAt u' = user_createdAt existing))
  /\ (forall existing,
        MemStorage.users this !! upsert_id user = Some existing ->
        MemStorage.upsertUser user this
        = (let updated :=
             mkUser (upsert_id user) (upsert_email user) (upsert_firstName user)
               (upsert_lastName user) (upsert_profileImageUrl user)
               (user_role existing) (user_createdAt existing) (MemStorage.mem_now this) in
           (Ok updated,
            MemStorage.mkState (MemStorage.mem_now this)
              (<[upsert_id user := updated]> (MemStorage.users this))
              (MemStorage.auditLogs this)))
        /\ (exists u',
              MemStorage.users (mem_upserts calls this) !! upsert_id user = Some u'
              /\ user_role u' = user_role existing
              /\ user_createdAt u' = user_createdAt existing))
  (* a subject not seen before *)
  /\ (db_users db !! upsert_id user = None ->
      exists created db',
        DatabaseStorage.upsertUser user db = (Ok created, db')
        /\ db_users db' = <[upsert_id user := created]> (db_users db)
        /\ user_role created = viewer
        /\ user_createdAt created = db_now db
        /\ (exists u',
              db_users (db_upserts calls db') !! upsert_id user = Some u'
              /\ user_role u' = viewer
              /\ user_createdAt u' = db_now db))
  /\ (MemStorage.users this !! upsert_id user = None ->
      exists created this',
        MemStorage.upsertUser user this = (Ok created, this')
        /\ MemStorage.users this' = <[upsert_id user := created]> (MemStorage.users this)
        /\ user_role created = viewer
        /\ user_createdAt created = MemStorage.mem_now this
        /\ (exists u',
              MemStorage.users (mem_upserts calls this') !! upsert_id user = Some u'
              /\ user_role u' = viewer
              /\ user_createdAt u' = MemStorage.mem_now this)).
Proof.
  repeat apply conj.
  - intros existing Hdb. split.
    + apply (db_upsertUser_existing user db existing Hdb).
    + by apply db_upserts_keep.
  - intros existing Hmem. split.
    + unfold MemStorage.upsertUser. rewrite Hmem. reflexivity.
    + by apply mem_upserts_keep.
  - intros Hfresh. rewrite (db_upsertUser_absent user db Hfresh).
    eexists _, _. split; [reflexivity|]. repeat (split; [reflexivity|]).
    match goal with |- context [db_upserts calls ?db'] =>
      destruct (db_upserts_keep calls db' (upsert_id user)
                  (mkUser (upsert_id user) (upsert_email user) (upsert_firstName user)
                     (upsert_lastName user) (upsert_profileImageUrl user) viewer
                     (db_now db) (db_now db)))
        as (u' & Hu' & Hrole & Hcreated)
    end.
    { cbn. by rewrite lookup_insert_eq. }
    exists u'. auto.
  - intros Hfresh. unfold MemStorage.upsertUser. rewrite Hfresh.
    eexists _, _. split; [reflexivity|]. repeat (split; [reflexivity|]).
    match goal with |- context [mem_upserts calls ?this'] =>
      destruct (mem_upserts_keep calls this' (upsert_id user)
                  (mkUser (upsert_id user) (upsert_email user) (upsert_firstName user)
                     (upsert_lastName user) (upsert_profileImageUrl user) viewer
                     (MemStorage.mem_now this) (MemStorage.mem_now this)))
        as (u' & Hu' & Hrole & Hcreated)
    end.
    { cbn. by rewrite lookup_insert_eq. }
    exists u'. auto.
Qed.

(** Bob, a viewer since 1100, signs in three times; and Erin's first
    sign-in, on a users table that is still empty. *)
Lemma upsert_keeps_role_and_createdAt_witness :
  (exists u',
     db_users
       (db_upserts [(3000, Fixture.bob_profile); (3500, Fixture.erin_profile);
                    (4000, Fixture.bob_profile')] Fixture.db) !! "bob" = Some u'
     /\ user_role u' = viewer
     /\ user_createdAt u' = 1100)
  /\ db_users (DatabaseStorage.set_users ∅ Fixture.db) = ∅
  /\ (exists created db',
        DatabaseStorage.upsertUser Fixture.erin_profile
          (DatabaseStorage.set_users ∅ Fixture.db) = (Ok created, db')
        /\ db_users db' = {[ "erin" := created ]}
        /\ user_role created = viewer
        /\ user_createdAt created = 2000)
  /\ (exists created this',
        MemStorage.upsertUser Fixture.erin_profile (MemStorage.mkState 2000 ∅ [])
        = (Ok created, this')
        /\ MemStorage.users this' = {[ "erin" := created ]}
        /\ user_role created = viewer).
Proof.
  split; [|split; [reflexivity|split]].
  - destruct (upsert_keeps_role_and_createdAt Fixture.db Fixture.mem Fixture.bob_profile
                [(3000, Fixture.bob_profile); (3500, Fixture.erin_profile);
                 (4000, Fixture.bob_profile')]) as (Hdb & _).
    destruct (Hdb Fixture.bob eq_refl) as (_ & Hrun). exact Hrun.
  - destruct (upsert_keeps_role_and_createdAt (DatabaseStorage.set_users ∅ Fixture.db)
                Fixture.mem Fixture.erin_profile []) as (_ & _ & Hfresh & _).
    destruct (Hfresh eq_refl) as (created & db' & Hrun & Hstored & Hrole & Hcreated & _).
    exists created, db'. rewrite Hstored. auto.
  - destruct (upsert_keeps_role_and_createdAt Fixture.db (MemStorage.mkState 2000 ∅ [])
                Fixture.erin_profile []) as (_ & _ & _ & Hfresh).
    destruct (Hfresh eq_refl) as (created & this' & Hrun & Hstored & Hrole & _).
    exists created, this'. rewrite Hstored. auto.
Defined.

(** ** The audit sink *)

(** [auditLog] swallows whatever [createAuditLog] throws. *)
Lemma auditLog_run {St} (storage : IStorage St) userId action endpoint method details ip s :
  auditLog storage userId action endpoint method details ip s
  = (Ok tt,
     (createAuditLog storage
        {| ilog_id := None;
           ilog_userId := or_null userId;
           ilog_action := action;
           ilog_endpoint := endpoint;
           ilog_method := method;
           ilog_metadata := Some (nullish_or (JObj []) details);
           ilog_ipAddress := or_null ip;
           ilog_timestamp := None |} s).2).
Proof.
  unfold auditLog, try_catch, bind, ret.
  destruct (createAuditLog storage _ s) as [[row|e] s']; reflexivity.
Qed.

Lemma auditLog_then {St A} (storage : IStorage St) userId action endpoint method details ip
    (a : A) s :
  (bind (auditLog storage userId action endpoint method details ip) (fun _ => ret a) s).1
  = Ok a.
Proof. unfold bind. rewrite auditLog_run. reflexivity. Qed.

(** Runs the handlers in the goal call by call: each storage call and
    each schema parse is split into its outcomes; an audit call is
    replaced by its normal return. *)
Ltac split_call :=
  match goal with
  | |- context [auditLog ?st ?u ?a ?e ?m ?d ?i ?s] =>
      rewrite (auditLog_run st u a e m d i s)
  | |- context [insertWarehouseSchema_parse ?sc ?b] =>
      destruct (insertWarehouseSchema_parse sc b)
  | |- context [insertWarehouseSchema_partial_parse ?sc ?b] =>
      destruct (insertWarehouseSchema_partial_parse sc b)
  | |- context [insertInventoryItemSchema_parse ?sc ?b] =>
      destruct (insertInventoryItemSchema_parse sc b)
  | |- context [insertInventoryItemSchema_partial_parse ?sc ?b] =>
      destruct (insertInventoryItemSchema_partial_parse sc b)
  | |- context [insertTableSchema_parse ?sc ?b] =>
      destruct (insertTableSchema_parse sc b)
  | |- context [updateUserRoleSchema_parse ?b] =>
      destruct (updateUserRoleSchema_parse b)
  | |- context [createWarehouse ?st ?d ?s] =>
      destruct (createWarehouse st d s) as [[?|?] ?]
  | |- context [updateWarehouse ?st ?i ?d ?s] =>
      destruct (updateWarehouse st i d s) as [[?|?] ?]
  | |- context [deleteWarehouse ?st ?i ?s] =>
      destruct (deleteWarehouse st i s) as [[?|?] ?]
  | |- context [createInventoryItem ?st ?d ?s] =>
      destruct (createInventoryItem st d s) as [[?|?] ?]
  | |- context [getInventoryItemById ?st ?i ?s] =>
      destruct (getInventoryItemById st i s) as [[[?|]|?] ?]
  | |- context [updateInventoryItem ?st ?i ?d ?s] =>
      destruct (updateInventoryItem st i d s) as [[?|?] ?]
  | |- context [deleteInventoryItem ?st ?i ?s] =>
      destruct (deleteInventoryItem st i s) as [[?|?] ?]
  | |- context [createProductHistory ?st ?d ?s] =>
      destruct (createProductHistory st d s) as [[?|?] ?]
  | |- context [createTable ?st ?d ?s] =>
      destruct (createTable st d s) as [[?|?] ?]
  | |- context [deleteTable ?st ?i ?s] =>
      destruct (deleteTable st i s) as [[?|?] ?]
  | |- context [updateUserRole ?st ?i ?d ?s] =>
      destruct (updateUserRole st i d s) as [[?|?] ?]
  | |- context [if ?b then _ else _] => destruct b
  | |- context [match pitem_quantity ?d with _ => _ end] => destruct (pitem_quantity d)
  end.

Ltac run_handlers :=
  cbv [try_catch bind lift_outcome ret fail_with throw];
  cbn [with_audit_sink upsertUser getUserById updateUserRole createWarehouse
       updateWarehouse deleteWarehouse createInventoryItem getInventoryItemById
       updateInventoryItem deleteInventoryItem createProductHistory createTable
       deleteTable];
  repeat first [ progress cbv beta iota | split_call ];
  try reflexivity.

Section AuditSink.
Context {St : Type} (storage : IStorage St) (schemas : Schemas).
Context (sink : InsertAuditLog -> M St AuditLog).

Lemma post_warehouses_sink req s :
  (post_warehouses (with_audit_sink sink storage) schemas req s).1
  = (post_warehouses storage schemas req s).1.
Proof. unfold post_warehouses. run_handlers. Qed.

Lemma patch_warehouses_id_sink req s :
  (patch_warehouses_id (with_audit_sink sink storage) schemas req s).1
  = (patch_warehouses_id storage schemas req s).1.
Proof. unfold patch_warehouses_id. run_handlers. Qed.

Lemma delete_warehouses_id_sink req s :
  (delete_warehouses_id (with_audit_sink sink storage) req s).1
  = (delete_warehouses_id storage req s).1.
Proof. unfold delete_warehouses_id. run_handlers. Qed.

Lemma post_inventory_sink req s :
  (post_inventory (with_audit_sink sink storage) schemas req s).1
  = (post_inventory storage schemas req s).1.
Proof. unfold post_inventory. run_handlers. Qed.

Lemma patch_inventory_id_sink req s :
  (patch_inventory_id (with_audit_sink sink storage) schemas req s).1
  = (patch_inventory_id storage schemas req s).1.
Proof. unfold patch_inventory_id. run_handlers. Qed.

Lemma delete_inventory_id_sink req s :
  (delete_inventory_id (with_audit_sink sink storage) req s).1
  = (delete_inventory_id storage req s).1.
Proof. unfold delete_inventory_id. run_handlers. Qed.

Lemma post_tables_sink req s :
  (post_tables (with_audit_sink sink storage) schemas req s).1
  = (post_tables storage schemas req s).1.
Proof. unfold post_tables. run_handlers. Qed.

Lemma delete_tables_id_sink req s :
  (delete_tables_id (with_audit_sink sink storage) req s).1
  = (delete_tables_id storage req s).1.
Proof. unfold delete_tables_id. run_handlers. Qed.

Lemma patch_users_id_role_sink req s :
  (patch_users_id_role (with_audit_sink sink storage) req s).1
  = (patch_users_id_role storage req s).1.
Proof. unfold patch_users_id_role. run_handlers. Qed.

Lemma serve_sink route req s :
  (serve (with_audit_sink sink storage) schemas route req s).1
  = (serve storage schemas route req s).1.
Proof.
  unfold serve.
  destruct route; cbn [registerRoutes chain fst snd];
    unfold isAuthenticated; cbn [getUserById with_audit_sink];
    (destruct (or_null (sess_userId (req_session req))) as [sid|]; [|reflexivity]);
    (destruct (getUserById storage sid s) as [[[actor|]|e] s0]; try reflexivity);
    unfold requireRole; cbn [req_user with_user];
    try (match goal with |- context [includes ?l ?r] => destruct (includes l r) end;
         [|reflexivity]).
  - apply post_warehouses_sink.
  - apply patch_warehouses_id_sink.
  - apply delete_warehouses_id_sink.
  - apply post_inventory_sink.
  - apply patch_inventory_id_sink.
  - apply delete_inventory_id_sink.
  - apply post_tables_sink.
  - apply delete_tables_id_sink.
  - apply patch_users_id_role_sink.
Qed.

End AuditSink.

(** C5. A throwing audit append does not reach the caller: [auditLog]
    returns normally whatever [createAuditLog] does, the response of
    every route is the same with any other audit sink in place, and a
    POST /api/inventory whose item and history writes succeed answers 201
    with the created item although the audit append throws. *)
Theorem audit_failure_keeps_response {St} (storage : IStorage St) (schemas : Schemas)
    (req : Request) (sid : string) (actor : User) (s s0 s1 s2 s3 : St)
    (data : InsertInventoryItem) (item : InventoryItem) (history : ProductHistory)
    (e : Exn) :
  or_null (sess_userId (req_session req)) = Some sid ->
  getUserById storage sid s = (Ok (Some actor), s0) ->
  includes ["super_admin"; "admin"; "manager"] (role_name (user_role actor)) = true ->
  insertInventoryItemSchema_parse schemas (req_body req) = Ok data ->
  createInventoryItem storage data s0 = (Ok item, s1) ->
  createProductHistory storage
    {| ihist_id := None;
       ihist_inventoryItemId := item_id item;
       ihist_actionType := "in";
       ihist_quantityChange := item_quantity item;
       ihist_previousQuantity := 0;
       ihist_newQuantity := item_quantity item;
       ihist_userId := or_null (Some (user_id actor));
       ihist_notes := Some "Initial inventory";
       ihist_timestamp := None |} s1 = (Ok history, s2) ->
  createAuditLog storage
    {| ilog_id := None;
       ilog_userId := or_null (Some (user_id actor));
       ilog_action := "CREATE_INVENTORY";
       ilog_endpoint := "/api/inventory";
       ilog_method := "POST";
       ilog_metadata :=
         Some (JObj [("itemId", JStr (item_id item)); ("sku", JStr (item_sku item))]);
       ilog_ipAddress := or_null (req_ip req);
       ilog_timestamp := None |} s2 = (Throw e, s3) ->
  serve storage schemas POST_inventory req s
  = (Ok (mkResponse 201 (InventoryItemJson item)), s3)
  /\ (forall userId action endpoint method details ip s',
        (auditLog storage userId action endpoint method details ip s').1 = Ok tt)
  /\ (forall sink route req' s',
        (serve (with_audit_sink sink storage) schemas route req' s').1
        = (serve storage schemas route req' s').1).
Proof.
  intros Hsid Hactor Hallowed Hparse Hitem Hhistory Haudit.
  split; [|split].
  - unfold serve. cbn [registerRoutes chain fst snd].
    rewrite (isAuthenticated_resolved storage req _ sid actor s s0 Hsid Hactor).
    rewrite (requireRole_member _ _ _ actor) by (reflexivity || assumption).
    unfold post_inventory, try_catch, lift_outcome. cbn [req_body with_user].
    rewrite Hparse. unfold bind at 1. unfold bind at 1. rewrite Hitem.
    unfold bind at 1. cbn [req_user_id req_user with_user fmap option_fmap option_map].
    rewrite Hhistory. unfold bind at 1. rewrite auditLog_run.
    change (createAuditLog storage _ s2) with (createAuditLog storage
      {| ilog_id := None;
         ilog_userId := or_null (Some (user_id actor));
         ilog_action := "CREATE_INVENTORY";
         ilog_endpoint := "/api/inventory";
         ilog_method := "POST";
         ilog_metadata :=
           Some (JObj [("itemId", JStr (item_id item)); ("sku", JStr (item_sku item))]);
         ilog_ipAddress := or_null (req_ip req);
         ilog_timestamp := None |} s2).
    by rewrite Haudit.
  - intros. by rewrite auditLog_run.
  - intros. apply serve_sink.
Qed.

Lemma audit_failure_keeps_response_witness :
  serve Fixture.storage_audit_down Fixture.schemas POST_inventory
    (Fixture.request (Some "carol") ""
       (JObj [("warehouseId", JStr "wh-1"); ("name", JStr "Bolts"); ("sku", JStr "B-8")]))
    Fixture.db
  = (Ok (mkResponse 201
           (InventoryItemJson
              (mkInventoryItem "item-1" "wh-1" "Bolts" "B-8" None 0 "pcs" None None None
                 None 2000 2000))),
     DatabaseStorage.set_entities
       (Fixture.mkTables []
          [mkInventoryItem "item-1" "wh-1" "Bolts" "B-8" None 0 "pcs" None None None None
             2000 2000])
       Fixture.db).
Proof.
  eapply (audit_failure_keeps_response Fixture.storage_audit_down Fixture.schemas
            (Fixture.request (Some "carol") ""
               (JObj [("warehouseId", JStr "wh-1"); ("name", JStr "Bolts");
                      ("sku", JStr "B-8")]))
            "carol" Fixture.carol Fixture.db);
    reflexivity.
Defined.

(** ** Table routes *)

(** C10. POST /api/tables and DELETE /api/tables/:id are registered
    behind [isAuthenticated] alone: for an authenticated user the request
    reaches the handler whatever the role.  Creating a table then stores
    it and answers 201 with the table, deleting one removes it and answers
    204, whenever the body is accepted and the store carries the operation
    out; the store ends as that operation and the audit append left it.
    The six warehouse and inventory mutations refuse a viewer with 403 and
    write nothing. *)
Theorem table_routes_need_no_role {St} (storage : IStorage St) (schemas : Schemas)
    (req : Request) (sid : string) (actor : User) (s s0 : St) :
  or_null (sess_userId (req_session req)) = Some sid ->
  getUserById storage sid s = (Ok (Some actor), s0) ->
  (registerRoutes storage schemas POST_tables).1 = [isAuthenticated storage]
  /\ (registerRoutes storage schemas DELETE_tables_id).1 = [isAuthenticated storage]
  /\ serve storage schemas POST_tables req s
     = post_tables storage schemas (with_user req actor) s0
  /\ serve storage schemas DELETE_tables_id req s
     = delete_tables_id storage (with_user req actor) s0
  /\ (forall data table s1,
        insertTableSchema_parse schemas
          (JObj (spread (req_body req) ++ [("createdBy", JStr (user_id actor))]))
        = Ok data ->
        createTable storage data s0 = (Ok table, s1) ->
        serve storage schemas POST_tables req s
        = (Ok (mkResponse 201 (TableJson table)),
           (createAuditLog storage
              {| ilog_id := None;
                 ilog_userId := or_null (Some (user_id actor));
                 ilog_action := "CREATE_TABLE";
                 ilog_endpoint := "/api/tables";
                 ilog_method := "POST";
                 ilog_metadata := Some (JObj [("tableId", JStr (table_id table))]);
                 ilog_ipAddress := or_null (req_ip req);
                 ilog_timestamp := None |} s1).2))
  /\ (forall s1,
        deleteTable storage (req_param_id req) s0 = (Ok tt, s1) ->
        serve storage schemas DELETE_tables_id req s
        = (Ok (mkResponse 204 NoContent),
           (createAuditLog storage
              {| ilog_id := None;
                 ilog_userId := or_null (Some (user_id actor));
                 ilog_action := "DELETE_TABLE";
                 ilog_endpoint := "/api/tables/" ++ req_param_id req;
                 ilog_method := "DELETE";
                 ilog_metadata := Some (JObj [("tableId", JStr (req_param_id req))]);
                 ilog_ipAddress := or_null (req_ip req);
                 ilog_timestamp := None |} s1).2))
  /\ (user_role actor = viewer ->
      forall route,
        In route [POST_warehouses; PATCH_warehouses_id; DELETE_warehouses_id;
                  POST_inventory; PATCH_inventory_id; DELETE_inventory_id] ->
        serve storage schemas route req s
        = (Ok (json_message 403 "Forbidden: Insufficient permissions"), s0)).
Proof.
  intros Hsid Hactor.
  assert (Hpost : serve storage schemas POST_tables req s
                  = post_tables storage schemas (with_user req actor) s0).
  { unfold serve. cbn [registerRoutes chain fst snd].
    apply (isAuthenticated_resolved storage req _ sid actor s s0 Hsid Hactor). }
  assert (Hdelete : serve storage schemas DELETE_tables_id req s
                    = delete_tables_id storage (with_user req actor) s0).
  { unfold serve. cbn [registerRoutes chain fst snd].
    apply (isAuthenticated_resolved storage req _ sid actor s s0 Hsid Hactor). }
  split; [reflexivity|]. split; [reflexivity|].
  split; [exact Hpost|]. split; [exact Hdelete|]. split; [|split].
  - intros data table s1 Hparse Hcreate. rewrite Hpost.
    unfold post_tables, try_catch, lift_outcome.
    cbn [req_body req_user_id req_user with_user fmap option_fmap option_map from_option].
    rewrite Hparse. unfold bind at 1. unfold bind at 1. rewrite Hcreate.
    unfold bind. rewrite auditLog_run. reflexivity.
  - intros s1 Hremove. rewrite Hdelete.
    unfold delete_tables_id, try_catch. cbn [req_param_id with_user].
    unfold bind at 1. rewrite Hremove.
    unfold bind. rewrite auditLog_run. reflexivity.
  - intros Hviewer route Hroute.
    unfold serve.
    cbn in Hroute. destruct Hroute as [<-|[<-|[<-|[<-|[<-|[<-|[]]]]]]];
      cbn [registerRoutes chain fst snd];
      rewrite (isAuthenticated_resolved storage req _ sid actor s s0 Hsid Hactor);
      apply requireRole_outsider with actor; try reflexivity;
      rewrite Hviewer; reflexivity.
Qed.

(** Bob, a viewer, creates a table and deletes one; a warehouse he may
    not delete. *)
Lemma table_routes_need_no_role_witness :
  let sheet := mkDataTable "table-1" "Stock sheet" None (Some "bob") 2000 in
  let other := mkDataTable "table-2" "Orders" None (Some "alice") 1500 in
  let holding := DatabaseStorage.set_entities (Fixture.mkTables [sheet; other] []) Fixture.db in
  user_role Fixture.bob = viewer
  /\ (exists db',
        serve Fixture.storage Fixture.schemas POST_tables
          (Fixture.request (Some "bob") "" (JObj [("name", JStr "Stock sheet")]))
          Fixture.db
        = (Ok (mkResponse 201 (TableJson sheet)), db')
        /\ db_entities db' = Fixture.mkTables [sheet] []
        /\ List.map log_action (db_audit_logs db') = ["CREATE_TABLE"])
  /\ (exists db',
        serve Fixture.storage Fixture.schemas DELETE_tables_id
          (Fixture.request (Some "bob") "table-1" JNull) holding
        = (Ok (mkResponse 204 NoContent), db')
        /\ db_entities db' = Fixture.mkTables [other] []
        /\ List.map log_action (db_audit_logs db') = ["DELETE_TABLE"])
  /\ serve Fixture.storage Fixture.schemas DELETE_warehouses_id
       (Fixture.request (Some "bob") "wh-1" JNull) Fixture.db
     = (Ok (json_message 403 "Forbidden: Insufficient permissions"), Fixture.db).
Proof.
  intros sheet other holding.
  split; [reflexivity|]. split; [|split].
  - eexists. split.
    + eapply (table_routes_need_no_role Fixture.storage Fixture.schemas
                (Fixture.request (Some "bob") "" (JObj [("name", JStr "Stock sheet")]))
                "bob" Fixture.bob Fixture.db Fixture.db);
        reflexivity.
    + split; reflexivity.
  - eexists. split.
    + eapply (table_routes_need_no_role Fixture.storage Fixture.schemas
                (Fixture.request (Some "bob") "table-1" JNull)
                "bob" Fixture.bob holding holding);
        reflexivity.
    + split; reflexivity.
  - apply (table_routes_need_no_role Fixture.storage Fixture.schemas
             (Fixture.request (Some "bob") "wh-1" JNull)
             "bob" Fixture.bob Fixture.db Fixture.db);
      [reflexivity | reflexivity | reflexivity | right; right; left; reflexivity].
Defined.

(** ** Reading the audit log *)

(** Which of two rows the ordering puts first. *)
Lemma insert_by_timestamp_test ties row r :
  if (log_timestamp row <? log_timestamp r)
     || ((log_timestamp row =? log_timestamp r) && ties row r)
  then log_timestamp row <= log_timestamp r
  else log_timestamp r <= log_timestamp row.
Proof.
  destruct (Z.ltb_spec (log_timestamp row) (log_timestamp r)); cbn; [lia|].
  destruct (Z.eqb_spec (log_timestamp row) (log_timestamp r)); cbn; [|lia].
  destruct (ties row r); lia.
Qed.

Lemma insert_by_timestamp_perm ties row sorted :
  Permutation (insert_by_timestamp ties row sorted) (row :: sorted).
Proof.
  induction sorted as [|r rest IH]; cbn; [reflexivity|].
  destruct (_ || _); [reflexivity|].
  rewrite IH. apply Permutation_swap.
Qed.

Lemma order_by_timestamp_perm ties rows :
  Permutation (order_by_timestamp ties rows) rows.
Proof.
  induction rows as [|row rows IH]; cbn; [reflexivity|].
  rewrite insert_by_timestamp_perm. by rewrite IH.
Qed.

Lemma insert_by_timestamp_sorted ties row sorted :
  oldest_first sorted -> oldest_first (insert_by_timestamp ties row sorted).
Proof.
  unfold oldest_first. induction 1 as [|r rest Hrest IH Hhd]; cbn.
  - repeat constructor.
  - pose proof (insert_by_timestamp_test ties row r) as Htest.
    destruct (_ || _).
    + constructor; [by constructor|]. by constructor.
    + constructor; [assumption|].
      destruct Hhd as [|r' rest' Hle]; cbn.
      * by constructor.
      * pose proof (insert_by_timestamp_test ties row r') as Htest'.
        destruct (_ || _); by constructor.
Qed.

Lemma order_by_timestamp_sorted ties rows :
  oldest_first (order_by_timestamp ties rows).
Proof.
  induction rows as [|row rows IH]; cbn; [constructor|].
  by apply insert_by_timestamp_sorted.
Qed.

(** Rows written with strictly increasing timestamps come back as they
    are, whatever the engine does with ties: there are none. *)
Lemma order_by_timestamp_distinct ties rows :
  strictly_oldest_first rows -> order_by_timestamp ties rows = rows.
Proof.
  unfold strictly_oldest_first, order_by_timestamp.
  induction 1 as [|r rest Hrest IH Hhd]; cbn [foldr]; [reflexivity|].
  rewrite IH. destruct Hhd as [|r' rest' Hlt]; cbn; [reflexivity|].
  by rewrite (proj2 (Z.ltb_lt _ _) Hlt).
Qed.

Lemma oldest_first_take n rows : oldest_first rows -> oldest_first (take n rows).
Proof.
  unfold oldest_first. revert rows.
  induction n as [|n IHn]; intros rows Hrows; [constructor|].
  destruct Hrows as [|r rest Hrest Hhd]; cbn; [constructor|].
  constructor; [by apply IHn|].
  destruct Hhd; destruct n; cbn; by constructor.
Qed.

(** The database answers with the first [limit] rows in ascending
    timestamp order. *)
Lemma db_getAuditLogs_oldest {Ext} limit (db : Database Ext) :
  0 <= limit ->
  exists rows,
    DatabaseStorage.getAuditLogs (Some limit) db = (Ok rows, db)
    /\ rows = take (Z.to_nat limit) (order_by_timestamp (db_ties db) (db_audit_logs db))
    /\ oldest_first rows
    /\ (length rows <= Z.to_nat limit)%nat.
Proof.
  intros Hlimit. unfold DatabaseStorage.getAuditLogs. simpl default.
  rewrite (proj2 (Z.ltb_ge _ _) Hlimit).
  eexists. split; [reflexivity|]. split; [reflexivity|]. split.
  - apply oldest_first_take, order_by_timestamp_sorted.
  - rewrite length_take. lia.
Qed.

(** The in-memory store answers with the last [limit] entries of the
    array, in array order; [slice(-0)] is [slice(0)], the whole array. *)
Lemma mem_getAuditLogs_last limit this :
  0 < limit ->
  MemStorage.getAuditLogs (Some limit) this
  = (Ok (drop (length (MemStorage.auditLogs this) - Z.to_nat limit)
           (MemStorage.auditLogs this)),
     this).
Proof.
  intros Hlimit. unfold MemStorage.getAuditLogs, js_slice_from. simpl default.
  rewrite (proj2 (Z.ltb_lt _ _)) by lia.
  do 2 f_equal. f_equal. lia.
Qed.

Lemma mem_getAuditLogs_zero this :
  MemStorage.getAuditLogs (Some 0) this = (Ok (MemStorage.auditLogs this), this).
Proof.
  unfold MemStorage.getAuditLogs, js_slice_from. cbn.
  by destruct (MemStorage.auditLogs this).
Qed.

(** C6. With three entries stamped 10, 20 and 30 and a limit of 2, the
    two most recent entries, newest first, are those stamped 30 and 20;
    the database query answers with those stamped 10 and 20 (the oldest,
    ascending) and the in-memory store with those stamped 20 and 30 (the
    most recent, but oldest first). *)
Theorem getAuditLogs_is_oldest_first :
  let l1 := Fixture.log_at "l1" 10 in
  let l2 := Fixture.log_at "l2" 20 in
  let l3 := Fixture.log_at "l3" 30 in
  let db := DatabaseStorage.set_audit_logs [l1; l2; l3] Fixture.db in
  let mem := MemStorage.mkState 2000 (MemStorage.users Fixture.mem) [l1; l2; l3] in
  most_recent_first 2 [l1; l2; l3] = [l3; l2]
  /\ DatabaseStorage.getAuditLogs (Some 2) db = (Ok [l1; l2], db)
  /\ MemStorage.getAuditLogs (Some 2) mem = (Ok [l2; l3], mem)
  /\ [l1; l2] <> [l3; l2]
  /\ [l2; l3] <> [l3; l2].
Proof. repeat split; discriminate. Qed.

(* ===================================================================== *)
(** * Further properties *)
(* ===================================================================== *)

(** ** Who gets past the middleware *)

(** X1. A request whose session carries no user id (none at all, or an
    empty one) is answered 401 by [isAuthenticated] before anything
    registered behind it runs: whatever middleware and handler follow it,
    they are not reached and the store is not even read.  Each of the ten
    modelled routes is an instance. *)
Theorem anonymous_request_is_rejected {St} (storage : IStorage St) (schemas : Schemas)
    (rest : list (@Middleware St)) (handler : Handler St) (req : Request) (s : St) :
  or_null (sess_userId (req_session req)) = None ->
  chain (isAuthenticated storage :: rest) handler req s
  = (Ok (json_message 401 "Unauthorized: No user session"), s)
  /\ (forall route,
        serve storage schemas route req s
        = (Ok (json_message 401 "Unauthorized: No user session"), s)).
Proof.
  intros Hanon.
  assert (Hany : forall rest' handler',
            chain (isAuthenticated storage :: rest') handler' req s
            = (Ok (json_message 401 "Unauthorized: No user session"), s)).
  { intros rest' handler'. cbn [chain]. unfold isAuthenticated. by rewrite Hanon. }
  split; [apply Hany|].
  intros route. unfold serve. destruct route; cbn [registerRoutes fst snd]; apply Hany.
Qed.

Lemma anonymous_request_is_rejected_witness :
  chain [isAuthenticated Fixture.storage; requireRole ["super_admin"; "admin"]]
    (fun _ => throw (JsError "handler reached"))
    (Fixture.request (Some "") "" JNull) Fixture.db
  = (Ok (json_message 401 "Unauthorized: No user session"), Fixture.db)
  /\ serve Fixture.storage Fixture.schemas DELETE_tables_id
       (Fixture.request (Some "") "table-1" JNull) Fixture.db
     = (Ok (json_message 401 "Unauthorized: No user session"), Fixture.db).
Proof.
  split.
  - apply (anonymous_request_is_rejected Fixture.storage Fixture.schemas
             [requireRole ["super_admin"; "admin"]]
             (fun _ => throw (JsError "handler reached"))
             (Fixture.request (Some "") "" JNull) Fixture.db).
    reflexivity.
  - apply (anonymous_request_is_rejected Fixture.storage Fixture.schemas [] (fun _ => ret
             (mkResponse 200 NoContent))
             (Fixture.request (Some "") "table-1" JNull) Fixture.db).
    reflexivity.
Defined.

(** X2. When the session's user id resolves to no user, [isAuthenticated]
    answers 401, and when the lookup throws it answers 500; whatever
    middleware and handler are registered behind it are not run, so the
    store is as the lookup left it.  Each of the ten modelled routes is
    an instance. *)
Theorem unresolved_identity_is_rejected {St} (storage : IStorage St) (schemas : Schemas)
    (rest : list (@Middleware St)) (handler : Handler St) (req : Request) (sid : string)
    (s s' : St) (outcome : Outcome (option User)) :
  or_null (sess_userId (req_session req)) = Some sid ->
  getUserById storage sid s = (outcome, s') ->
  (forall user, outcome <> Ok (Some user)) ->
  let answer :=
    match outcome with
    | Ok _ => json_message 401 "Unauthorized: User not found"
    | Throw _ => json_message 500 "Internal server error"
    end in
  chain (isAuthenticated storage :: rest) handler req s = (Ok answer, s')
  /\ (forall route, serve storage schemas route req s = (Ok answer, s')).
Proof.
  intros Hsid Hget Hnone answer.
  assert (Hany : forall rest' handler',
            chain (isAuthenticated storage :: rest') handler' req s = (Ok answer, s')).
  { intros rest' handler'. cbn [chain]. unfold isAuthenticated. rewrite Hsid, Hget.
    subst answer. destruct outcome as [[user|]|e]; try reflexivity.
    by destruct (Hnone user). }
  split; [apply Hany|].
  intros route. unfold serve. destruct route; cbn [registerRoutes fst snd]; apply Hany.
Qed.

Lemma unresolved_identity_is_rejected_witness :
  serve Fixture.storage Fixture.schemas GET_auth_user
    (Fixture.request (Some "ghost") "" JNull) Fixture.db
  = (Ok (json_message 401 "Unauthorized: User not found"), Fixture.db).
Proof.
  apply (unresolved_identity_is_rejected Fixture.storage Fixture.schemas []
           (fun _ => ret (mkResponse 200 NoContent))
           (Fixture.request (Some "ghost") "" JNull) "ghost" Fixture.db Fixture.db (Ok None));
    [reflexivity | reflexivity | discriminate].
Defined.

(** X3. For a resolved user, each route either hands the request, with
    the user attached, to its handler or answers 403, according to the
    role alone: tables and the profile route admit every role, creating
    and updating warehouses and inventory admit all but viewers, and
    deleting them and assigning roles admit admins and super admins
    only. *)
Theorem authorization_matrix {St} (storage : IStorage St) (schemas : Schemas)
    (route : Route) (req : Request) (sid : string) (actor : User) (s s0 : St) :
  or_null (sess_userId (req_session req)) = Some sid ->
  getUserById storage sid s = (Ok (Some actor), s0) ->
  serve storage schemas route req s
  = if permits route (user_role actor)
    then (registerRoutes storage schemas route).2 (with_user req actor) s0
    else (Ok (json_message 403 "Forbidden: Insufficient permissions"), s0).
Proof.
  intros Hsid Hactor. unfold serve.
  destruct route; cbn [registerRoutes chain fst snd];
    rewrite (isAuthenticated_resolved storage req _ sid actor s s0 Hsid Hactor);
    try reflexivity;
    unfold requireRole; cbn [req_user with_user];
    destruct (user_role actor); reflexivity.
Qed.

Lemma authorization_matrix_witness :
  serve Fixture.storage Fixture.schemas DELETE_warehouses_id
    (Fixture.request (Some "carol") "wh-1" JNull) Fixture.db
  = (Ok (json_message 403 "Forbidden: Insufficient permissions"), Fixture.db).
Proof.
  apply (authorization_matrix Fixture.storage Fixture.schemas DELETE_warehouses_id
           (Fixture.request (Some "carol") "wh-1" JNull) "carol" Fixture.carol
           Fixture.db Fixture.db);
    reflexivity.
Defined.

(** ** How handlers fail *)

(** The handler a permitted actor reaches. *)
Lemma serve_permitted {St} (storage : IStorage St) (schemas : Schemas)
    (route : Route) (req : Request) (sid : string) (actor : User) (s s0 : St) :
  or_null (sess_userId (req_session req)) = Some sid ->
  getUserById storage sid s = (Ok (Some actor), s0) ->
  permits route (user_role actor) = true ->
  serve storage schemas route req s
  = (registerRoutes storage schemas route).2 (with_user req actor) s0.
Proof.
  intros Hsid Hactor Hpermits. unfold serve.
  destruct route; cbn [registerRoutes chain fst snd];
    rewrite (isAuthenticated_resolved storage req _ sid actor s s0 Hsid Hactor);
    try reflexivity;
    unfold requireRole; cbn [req_user with_user];
    destruct (user_role actor); try reflexivity; discriminate.
Qed.

(** X4. A body the route's schema refuses is answered 400 with the
    schema's message before the store is written: the store is as the
    identity lookup left it.  This holds for every actor the route admits:
    managers, admins and super admins on creating and updating warehouses
    and creating inventory, every role on creating tables, admins and
    super admins on assigning roles. *)
Theorem refused_body_is_answered_400 {St} (storage : IStorage St) (schemas : Schemas)
    (req : Request) (sid : string) (actor : User) (s s0 : St) (e : Exn) :
  or_null (sess_userId (req_session req)) = Some sid ->
  getUserById storage sid s = (Ok (Some actor), s0) ->
  (permits POST_warehouses (user_role actor) = true ->
   insertWarehouseSchema_parse schemas (req_body req) = Throw e ->
   serve storage schemas POST_warehouses req s
   = (Ok (json_message 400 (exn_message e)), s0))
  /\ (permits PATCH_warehouses_id (user_role actor) = true ->
      insertWarehouseSchema_partial_parse schemas (req_body req) = Throw e ->
      serve storage schemas PATCH_warehouses_id req s
      = (Ok (json_message 400 (exn_message e)), s0))
  /\ (permits POST_inventory (user_role actor) = true ->
      insertInventoryItemSchema_parse schemas (req_body req) = Throw e ->
      serve storage schemas POST_inventory req s
      = (Ok (json_message 400 (exn_message e)), s0))
  /\ (insertTableSchema_parse schemas
        (JObj (spread (req_body req) ++ [("createdBy", JStr (user_id actor))]))
      = Throw e ->
      serve storage schemas POST_tables req s
      = (Ok (json_message 400 (exn_message e)), s0))
  /\ (permits PATCH_users_id_role (user_role actor) = true ->
      updateUserRoleSchema_parse (req_body req) = Throw e ->
      serve storage schemas PATCH_users_id_role req s
      = (Ok (json_message 400 (exn_message e)), s0)).
Proof.
  intros Hsid Hactor.
  repeat apply conj; [intros Hrole | intros Hrole | intros Hrole | | intros Hrole];
    intros Hparse;
    (rewrite (serve_permitted storage schemas _ req sid actor s s0 Hsid Hactor)
       by (assumption || reflexivity));
    cbn [registerRoutes snd];
    unfold post_warehouses, patch_warehouses_id, post_inventory, post_tables,
      patch_users_id_role, try_catch, bind, lift_outcome, fail_with;
    cbn [req_body with_user req_user_id req_user fmap option_fmap option_map from_option];
    rewrite Hparse; reflexivity.
Qed.

(** Bob, a viewer, sends a table without a name; Carol, a manager, a
    warehouse the schema refuses. *)
Lemma refused_body_is_answered_400_witness :
  user_role Fixture.bob = viewer
  /\ serve Fixture.storage Fixture.schemas POST_tables
       (Fixture.request (Some "bob") "" (JObj [("title", JStr "no name")])) Fixture.db
     = (Ok (json_message 400 "invalid_type"), Fixture.db)
  /\ user_role Fixture.carol = manager
  /\ serve Fixture.storage Fixture.schemas POST_warehouses
       (Fixture.request (Some "carol") "" (JObj [])) Fixture.db
     = (Ok (json_message 400 "invalid_type"), Fixture.db).
Proof.
  split; [reflexivity|]. split; [|split; [reflexivity|]].
  - destruct (refused_body_is_answered_400 Fixture.storage Fixture.schemas
                (Fixture.request (Some "bob") "" (JObj [("title", JStr "no name")]))
                "bob" Fixture.bob Fixture.db Fixture.db (ZodError "invalid_type")
                eq_refl eq_refl) as (_ & _ & _ & Htables & _).
    apply Htables. reflexivity.
  - destruct (refused_body_is_answered_400 Fixture.storage Fixture.schemas
                (Fixture.request (Some "carol") "" (JObj []))
                "carol" Fixture.carol Fixture.db Fixture.db (ZodError "invalid_type")
                eq_refl eq_refl) as (Hwarehouses & _).
    apply Hwarehouses; reflexivity.
Defined.

(** X5. A delete the store refuses is answered 500 with the store's
    message, whereas the role route answers 400 for a throwing store;
    in both cases no audit entry is attempted: the store is as the
    failed call left it.  This holds for every actor the route admits:
    admins and super admins on warehouses, inventory and roles, every
    role on tables. *)
Theorem refused_delete_is_answered_500 {St} (storage : IStorage St) (schemas : Schemas)
    (req : Request) (sid : string) (actor : User) (s s0 s1 : St) (e : Exn) :
  or_null (sess_userId (req_session req)) = Some sid ->
  getUserById storage sid s = (Ok (Some actor), s0) ->
  (permits DELETE_warehouses_id (user_role actor) = true ->
   deleteWarehouse storage (req_param_id req) s0 = (Throw e, s1) ->
   serve storage schemas DELETE_warehouses_id req s
   = (Ok (json_message 500 (exn_message e)), s1))
  /\ (permits DELETE_inventory_id (user_role actor) = true ->
      deleteInventoryItem storage (req_param_id req) s0 = (Throw e, s1) ->
      serve storage schemas DELETE_inventory_id req s
      = (Ok (json_message 500 (exn_message e)), s1))
  /\ (deleteTable storage (req_param_id req) s0 = (Throw e, s1) ->
      serve storage schemas DELETE_tables_id req s
      = (Ok (json_message 500 (exn_message e)), s1))
  /\ (forall data,
        permits PATCH_users_id_role (user_role actor) = true ->
        updateUserRoleSchema_parse (req_body req) = Ok data ->
        user_role actor = super_admin \/ new_role data <> super_admin ->
        updateUserRole storage (req_param_id req) data s0 = (Throw e, s1) ->
        serve storage schemas PATCH_users_id_role req s
        = (Ok (json_message 400 (exn_message e)), s1)).
Proof.
  intros Hsid Hactor.
  repeat apply conj; [intros Hrole Hfail | intros Hrole Hfail | intros Hfail
                     | intros data Hrole Hparse Hopen Hfail];
    (rewrite (serve_permitted storage schemas _ req sid actor s s0 Hsid Hactor)
       by (assumption || reflexivity));
    cbn [registerRoutes snd].
  - unfold delete_warehouses_id, try_catch, bind, fail_with.
    cbn [req_param_id with_user]. by rewrite Hfail.
  - unfold delete_inventory_id, try_catch, bind, fail_with.
    cbn [req_param_id with_user]. by rewrite Hfail.
  - unfold delete_tables_id, try_catch, bind, fail_with.
    cbn [req_param_id with_user]. by rewrite Hfail.
  - unfold patch_users_id_role, try_catch, bind at 1, lift_outcome, fail_with.
    cbn [req_body with_user]. rewrite Hparse.
    rewrite (patch_role_guard_open (with_user req actor) actor (new_role data))
      by (reflexivity || assumption).
    unfold bind at 1. cbn [req_param_id with_user]. by rewrite Hfail.
Qed.

(** Alice, an admin, deletes a warehouse and Bob, a viewer, a table, on
    a deployment whose database role may not write those tables. *)
Lemma refused_delete_is_answered_500_witness :
  serve Fixture.storage Fixture.schemas DELETE_warehouses_id
    (Fixture.request (Some "alice") "wh-1" JNull) Fixture.db
  = (Ok (json_message 500 "permission denied for table"), Fixture.db)
  /\ user_role Fixture.bob = viewer
  /\ serve (DatabaseStorage.storage Sample.entities_read_only) Fixture.schemas
       DELETE_tables_id (Fixture.request (Some "bob") "table-1" JNull) Fixture.db
     = (Ok (json_message 500 "permission denied for table"), Fixture.db).
Proof.
  split; [|split; [reflexivity|]].
  - destruct (refused_delete_is_answered_500 Fixture.storage Fixture.schemas
                (Fixture.request (Some "alice") "wh-1" JNull) "alice" Fixture.alice
                Fixture.db Fixture.db Fixture.db
                (ExternalError "permission denied for table") eq_refl eq_refl)
      as (Hwarehouses & _).
    apply Hwarehouses; reflexivity.
  - destruct (refused_delete_is_answered_500
                (DatabaseStorage.storage Sample.entities_read_only) Fixture.schemas
                (Fixture.request (Some "bob") "table-1" JNull) "bob" Fixture.bob
                Fixture.db Fixture.db Fixture.db
                (ExternalError "permission denied for table") eq_refl eq_refl)
      as (_ & _ & Htables & _).
    apply Htables. reflexivity.
Defined.

(** X6. Updating an inventory item that the store does not have is
    answered 404 "Item not found", whatever the body: the item is looked
    up before the body is validated, and nothing is written or audited. *)
Theorem missing_item_is_answered_404 {St} (storage : IStorage St) (schemas : Schemas)
    (req : Request) (sid : string) (actor : User) (s s0 s1 : St) :
  or_null (sess_userId (req_session req)) = Some sid ->
  getUserById storage sid s = (Ok (Some actor), s0) ->
  permits PATCH_inventory_id (user_role actor) = true ->
  getInventoryItemById storage (req_param_id req) s0 = (Ok None, s1) ->
  serve storage schemas PATCH_inventory_id req s
  = (Ok (json_message 404 "Item not found"), s1).
Proof.
  intros Hsid Hactor Hpermits Hmissing.
  rewrite (serve_permitted storage schemas _ req sid actor s s0 Hsid Hactor Hpermits).
  cbn [registerRoutes snd].
  unfold patch_inventory_id, try_catch, bind at 1.
  cbn [req_param_id with_user]. by rewrite Hmissing.
Qed.

Lemma missing_item_is_answered_404_witness :
  serve Fixture.storage Fixture.schemas PATCH_inventory_id
    (Fixture.request (Some "carol") "item-9" (JStr "not even an object")) Fixture.db
  = (Ok (json_message 404 "Item not found"), Fixture.db).
Proof.
  apply (missing_item_is_answered_404 Fixture.storage Fixture.schemas
           (Fixture.request (Some "carol") "item-9" (JStr "not even an object"))
           "carol" Fixture.carol Fixture.db Fixture.db Fixture.db);
    reflexivity.
Defined.

(** ** Routes over the database *)

Section DatabaseRoutes.
Context {Ext : Type} (entities : EntityQueries Ext) (schemas : Schemas).
Implicit Types (db : Database Ext).

(** A query on the other tables reads and writes those tables only. *)
Lemma on_entities_frame {A} (query : M Ext A) db outcome db' :
  DatabaseStorage.on_entities query db = (outcome, db') ->
  db_users db' = db_users db
  /\ db_audit_logs db' = db_audit_logs db
  /\ db_now db' = db_now db.
Proof.
  unfold DatabaseStorage.on_entities.
  destruct (query (db_entities db)) as [o ext]. intros [= <- <-]. auto.
Qed.

End DatabaseRoutes.

Ltac db_step :=
  match goal with
  | |- context [DatabaseStorage.getUserById ?i ?s] => rewrite (db_getUserById i s)
  | |- context [auditLog (DatabaseStorage.storage ?q) ?u ?a ?e ?m ?d ?i ?s] =>
      rewrite (auditLog_run (DatabaseStorage.storage q) u a e m d i s);
      cbn [createAuditLog DatabaseStorage.storage];
      let row := fresh "row" in
      let Hu := fresh "Husers" in
      let Hl := fresh "Hlogs" in
      let Ha := fresh "Haction" in
      match goal with
      | |- context [DatabaseStorage.createAuditLog ?l s] =>
          destruct (db_createAuditLog_appends l s eq_refl)
            as (row & ? & -> & Hu & Hl & Ha);
          cbn [ilog_action] in Ha
      end
  | |- context [DatabaseStorage.on_entities ?q ?s] =>
      let H := fresh "Hcall" in
      destruct (DatabaseStorage.on_entities q s) as [[?|?] ?] eqn:H;
      apply on_entities_frame in H; destruct H as (? & ? & ?)
  | |- context [DatabaseStorage.updateUserRole ?i ?d ?s] =>
      let H := fresh "Htarget" in
      destruct (db_users s !! i) eqn:H;
      [ rewrite (db_updateUserRole_found i d s _ H)
      | rewrite (db_updateUserRole_missing i d s H) ]
  | |- context [or_null (sess_userId ?x)] => destruct (or_null (sess_userId x))
  | |- context [insertWarehouseSchema_parse ?sc ?b] =>
      destruct (insertWarehouseSchema_parse sc b)
  | |- context [insertWarehouseSchema_partial_parse ?sc ?b] =>
      destruct (insertWarehouseSchema_partial_parse sc b)
  | |- context [insertInventoryItemSchema_parse ?sc ?b] =>
      destruct (insertInventoryItemSchema_parse sc b)
  | |- context [insertInventoryItemSchema_partial_parse ?sc ?b] =>
      destruct (insertInventoryItemSchema_partial_parse sc b)
  | |- context [insertTableSchema_parse ?sc ?b] =>
      destruct (insertTableSchema_parse sc b)
  | |- context [updateUserRoleSchema_parse ?b] =>
      let H := fresh "Hparse" in destruct (updateUserRoleSchema_parse b) eqn:H
  | |- context [match ?x with _ => _ end] => is_var x; destruct x
  | |- context [match @lookup string User _ _ ?k ?m with _ => _ end] =>
      let H := fresh "Hactor" in destruct (@lookup string User _ _ k m) eqn:H
  | |- context [if ?b then _ else _] => let H := fresh "Hif" in destruct b eqn:H
  | |- context [match pitem_quantity ?d with _ => _ end] => destruct (pitem_quantity d)
  end.

Ltac run_db_route :=
  unfold serve; cbn [registerRoutes chain fst snd];
  unfold isAuthenticated, requireRole, get_auth_user, post_warehouses,
    patch_warehouses_id, delete_warehouses_id, post_inventory, patch_inventory_id,
    delete_inventory_id, post_tables, delete_tables_id, patch_users_id_role;
  cbv [try_catch bind lift_outcome ret fail_with throw];
  cbn [getUserById updateUserRole createWarehouse updateWarehouse deleteWarehouse
       createInventoryItem getInventoryItemById updateInventoryItem
       deleteInventoryItem createProductHistory createTable deleteTable
       DatabaseStorage.storage];
  repeat first [ progress cbv beta iota
               | progress cbn [req_user with_user req_param_id req_body req_ip]
               | db_step ].

Section DatabaseRoutes2.
Context {Ext : Type} (entities : EntityQueries Ext) (schemas : Schemas).
Implicit Types (db : Database Ext).

(** What a route can do to one row of the users table. *)
Lemma routes_users_change (route : Route) (req : Request) db (key : string) :
  db_users (serve (DatabaseStorage.storage entities) schemas route req db).2 !! key
  = db_users db !! key
  \/ (route = PATCH_users_id_role
      /\ key = req_param_id req
      /\ exists row data,
           updateUserRoleSchema_parse (req_body req) = Ok data
           /\ db_users db !! key = Some row
           /\ db_users (serve (DatabaseStorage.storage entities) schemas route req db).2
                !! key
              = Some (set_role (new_role data) (db_now db) row)).
Proof.
  destruct route; run_db_route; cbn [snd];
    cbn [db_users DatabaseStorage.set_users] in *;
    try (left; congruence).
  destruct (decide (key = req_param_id req)) as [-> | Hne].
  - right. repeat split. eexists _, _. split; [reflexivity|]. split; [eassumption|].
    rewrite Husers. apply lookup_insert_eq.
  - left. rewrite Husers. by apply lookup_insert_ne.
Qed.

(** X7. Over the database none of the ten modelled routes (the profile
    route and the nine that write through JSON bodies) creates or deletes
    a user, and the only change one of them makes to the users table is
    that of a role update: the addressed row gets the role the request
    body asks for and the clock as [updatedAt], and keeps its other
    columns. *)
Theorem routes_touch_users_only_by_role_update (route : Route) (req : Request) db
    (key : string) :
  let db' := (serve (DatabaseStorage.storage entities) schemas route req db).2 in
  db_users db' !! key = db_users db !! key
  \/ (route = PATCH_users_id_role
      /\ key = req_param_id req
      /\ exists row data updated,
           updateUserRoleSchema_parse (req_body req) = Ok data
           /\ db_users db !! key = Some row
           /\ db_users db' !! key = Some updated
           /\ user_role updated = new_role data
           /\ updated
              = mkUser (user_id row) (user_email row) (user_firstName row)
                  (user_lastName row) (user_profileImageUrl row) (new_role data)
                  (user_createdAt row) (db_now db)).
Proof.
  intros db'. subst db'.
  destruct (routes_users_change route req db key)
    as [Hsame | (Hroute & Hkey & row & data & Hparse & Hrow & Hnew)]; [by left|].
  right. split; [assumption|]. split; [assumption|].
  exists row, data, (set_role (new_role data) (db_now db) row). auto.
Qed.

(** X8. Over the database each of the ten modelled routes (the profile
    route and the nine that write through JSON bodies) answers: no
    handler lets an error escape.  None alters or removes an audit row,
    and each appends at most one; a row is appended only together with a
    200, 201 or 204 answer, and it carries the route's action name. *)
Theorem routes_audit_discipline (route : Route) (req : Request) db :
  exists response db' rows,
    serve (DatabaseStorage.storage entities) schemas route req db = (Ok response, db')
    /\ db_audit_logs db' = (db_audit_logs db ++ rows)%list
    /\ (rows = []
        \/ exists row,
             rows = [row]
             /\ succeeded response = true
             /\ audit_action route = Some (log_action row)).
Proof.
  destruct route; run_db_route;
    cbn [snd db_audit_logs DatabaseStorage.set_users] in *;
    eexists _, _;
    first
      [ exists []; split; [reflexivity|]; split;
        [rewrite app_nil_r; cbn [db_audit_logs]; congruence | by left]
      | match goal with
        | row : AuditLog |- _ =>
            exists [row]; split; [reflexivity|]; split;
            [ congruence
            | right; exists row; split; [reflexivity|]; split;
              [reflexivity | cbn [audit_action]; congruence] ]
        end ].
Qed.

End DatabaseRoutes2.

(** X9. A role update that goes through leaves exactly one new audit
    row: action UPDATE_USER_ROLE, the actor's id, the route's path and
    method, the target id and the new role as metadata, stamped with the
    database clock; the users table differs in the target row only. *)
Theorem role_update_is_audited {Ext} (entities : EntityQueries Ext) (schemas : Schemas)
    (db : Database Ext) (req : Request) (sid : string) (actor u : User)
    (target : UserRole) :
  or_null (sess_userId (req_session req)) = Some sid ->
  db_users db !! sid = Some actor ->
  user_role actor = admin \/ user_role actor = super_admin ->
  updateUserRoleSchema_parse (req_body req) = Ok (mkUpdateUserRole target) ->
  user_role actor = super_admin \/ target <> super_admin ->
  db_users db !! req_param_id req = Some u ->
  serve (DatabaseStorage.storage entities) schemas PATCH_users_id_role req db
  = (Ok (mkResponse 200 (UserJson (Some (set_role target (db_now db) u)))),
     mkDatabase (db_now db) (db_uuid db) (S (db_uuid_count db)) (db_ties db)
       (<[req_param_id req := set_role target (db_now db) u]> (db_users db))
       (db_audit_logs db ++
        [{| log_id := db_uuid db (db_uuid_count db);
            log_userId := or_null (Some (user_id actor));
            log_action := "UPDATE_USER_ROLE";
            log_endpoint := "/api/users/" ++ req_param_id req ++ "/role";
            log_method := "PATCH";
            log_metadata :=
              JObj [("userId", JStr (req_param_id req));
                    ("newRole", JStr (role_name target))];
            log_ipAddress := or_null (req_ip req);
            log_timestamp := db_now db |}])
       (db_entities db)).
Proof.
  intros Hsid Hactor Hallowed Hparse Hopen Htarget.
  rewrite (patch_role_enters entities schemas req sid actor db Hsid Hactor Hallowed).
  unfold patch_users_id_role, try_catch, bind at 1, lift_outcome.
  cbn [req_body with_user]. rewrite Hparse. cbn [new_role].
  rewrite (patch_role_guard_open (with_user req actor) actor target eq_refl Hopen).
  unfold bind at 1. cbn [updateUserRole DatabaseStorage.storage req_param_id with_user].
  rewrite (db_updateUserRole_found _ _ _ u Htarget).
  reflexivity.
Qed.

Lemma role_update_is_audited_witness :
  db_audit_logs
    (serve Fixture.storage Fixture.schemas PATCH_users_id_role
       (Fixture.request (Some "alice") "bob" (Fixture.role_body "manager")) Fixture.db).2
  = [mkAuditLog "uuid-0" (Some "alice") "UPDATE_USER_ROLE" "/api/users/bob/role" "PATCH"
       (JObj [("userId", JStr "bob"); ("newRole", JStr "manager")])
       (Some "10.0.0.7") 2000].
Proof.
  unfold Fixture.storage.
  rewrite (role_update_is_audited Fixture.entities Fixture.schemas Fixture.db
             (Fixture.request (Some "alice") "bob" (Fixture.role_body "manager"))
             "alice" Fixture.alice Fixture.bob manager);
    [reflexivity | reflexivity | reflexivity | left; reflexivity | reflexivity
    | right; discriminate | reflexivity].
Defined.

(** ** Login, callback and logout *)

(** What a login does once the configuration and the authorization URL
    are at hand. *)
Lemma login_opens_pending_login_run {St} (client : OidcClient) (redirectUri : string)
    (req : Request) (app app1 : App St) (config : Configuration) (url : string) :
  getOIDCConfig client app = (Ok config, app1) ->
  buildAuthorizationUrl client config
    {| redirect_uri := redirectUri;
       scope := "openid profile email";
       code_challenge := calculatePKCECodeChallenge client (randomPKCECodeVerifier client);
       code_challenge_method := "S256";
       param_state := randomState client |} = Ok url ->
  login client redirectUri req app
  = (Ok (mkResponse 302 (Location url)),
     mkApp (Some config)
       (mkSession (sess_userId (session app))
          (Some (randomPKCECodeVerifier client)) (Some (randomState client)))
       (store app)).
Proof.
  intros Hcfg Hurl.
  destruct (getOIDCConfig_frame _ _ _ _ Hcfg) as (Hsess & Hstore & Hcached & _).
  unfold login, try_catch, bind at 1. rewrite Hcfg.
  unfold bind at 1, get_session. unfold bind at 1, put_session.
  unfold bind at 1, lift_outcome. rewrite Hurl.
  unfold ret, redirect. cbn [oidcConfig session store].
  by rewrite Hsess, Hstore, (Hcached config eq_refl).
Qed.

(** X10. A login that obtains the configuration and the authorization
    URL redirects there and leaves the verifier and state it drew as the
    session's pending-login record; the session's user id, the store and
    nothing else change, and the configuration is cached.  The URL is
    asked for with the S256 challenge of that verifier and that state. *)
Theorem login_opens_pending_login {St} (client : OidcClient) (redirectUri : string)
    (req : Request) (app app1 : App St) (config : Configuration) (url : string) :
  getOIDCConfig client app = (Ok config, app1) ->
  buildAuthorizationUrl client config
    {| redirect_uri := redirectUri;
       scope := "openid profile email";
       code_challenge := calculatePKCECodeChallenge client (randomPKCECodeVerifier client);
       code_challenge_method := "S256";
       param_state := randomState client |} = Ok url ->
  login client redirectUri req app
  = (Ok (mkResponse 302 (Location url)),
     mkApp (Some config)
       (mkSession (sess_userId (session app))
          (Some (randomPKCECodeVerifier client)) (Some (randomState client)))
       (store app)).
Proof. apply login_opens_pending_login_run. Qed.

Lemma login_opens_pending_login_witness :
  login Fixture.idp "http://localhost:5000/api/auth/callback"
    (Fixture.callback_request []) (mkApp None (mkSession None None None) Fixture.db)
  = (Ok (mkResponse 302 (Location "https://replit.com/oidc/auth?state=state-1")),
     mkApp (Some (mkConfiguration "https://replit.com" "localhost:5000"))
       (mkSession None (Some "verifier-1") (Some "state-1")) Fixture.db).
Proof.
  apply (login_opens_pending_login Fixture.idp "http://localhost:5000/api/auth/callback"
           (Fixture.callback_request []) (mkApp None (mkSession None None None) Fixture.db)
           (mkApp (Some (mkConfiguration "https://replit.com" "localhost:5000"))
              (mkSession None None None) Fixture.db));
    reflexivity.
Defined.

(** X11. While nothing is cached and discovery fails, login answers 500
    "Authentication error" and the callback 500 "Authentication failed";
    neither changes the session, the store or the cache, so the next
    request tries discovery again. *)
Theorem unreachable_issuer_answers_500 {St} (storage : IStorage St) (client : OidcClient)
    (redirectUri : string) (req : Request) (app : App St) (e : Exn) :
  oidcConfig app = None ->
  discovery client = Throw e ->
  login client redirectUri req app
  = (Ok (mkResponse 500 (Text "Authentication error")), app)
  /\ callback storage client redirectUri req app
     = (Ok (mkResponse 500 (Text "Authentication failed")), app).
Proof.
  intros Hnone Hdown.
  assert (getOIDCConfig client app = (Throw e, app)) as Hcfg.
  { unfold getOIDCConfig. by rewrite Hnone, Hdown. }
  split.
  - unfold login, try_catch, bind at 1. by rewrite Hcfg.
  - unfold callback, try_catch, bind at 1. by rewrite Hcfg.
Qed.

Lemma unreachable_issuer_answers_500_witness :
  let app :=
    mkApp None (mkSession None (Some "verifier-1") (Some "state-1")) Fixture.db in
  login Fixture.idp_down "http://localhost:5000/api/auth/callback"
    (Fixture.callback_request []) app
  = (Ok (mkResponse 500 (Text "Authentication error")), app)
  /\ callback Fixture.storage Fixture.idp_down "http://localhost:5000/api/auth/callback"
       (Fixture.callback_request [("code", "c0de"); ("state", "state-1")]) app
     = (Ok (mkResponse 500 (Text "Authentication failed")), app).
Proof.
  intros app. split.
  - apply (unreachable_issuer_answers_500 Fixture.storage Fixture.idp_down
             "http://localhost:5000/api/auth/callback" (Fixture.callback_request []) app
             (ExternalError "issuer unreachable"));
      reflexivity.
  - apply (unreachable_issuer_answers_500 Fixture.storage Fixture.idp_down
             "http://localhost:5000/api/auth/callback"
             (Fixture.callback_request [("code", "c0de"); ("state", "state-1")]) app
             (ExternalError "issuer unreachable"));
      reflexivity.
Defined.

(** X12. When the authorization URL cannot be built, login answers 500
    "Authentication error", but the session already holds the new
    pending-login record: the verifier and state are written before the
    URL is asked for. *)
Theorem failed_login_leaves_pending_record {St} (client : OidcClient) (redirectUri : string)
    (req : Request) (app app1 : App St) (config : Configuration) (e : Exn) :
  getOIDCConfig client app = (Ok config, app1) ->
  buildAuthorizationUrl client config
    {| redirect_uri := redirectUri;
       scope := "openid profile email";
       code_challenge := calculatePKCECodeChallenge client (randomPKCECodeVerifier client);
       code_challenge_method := "S256";
       param_state := randomState client |} = Throw e ->
  login client redirectUri req app
  = (Ok (mkResponse 500 (Text "Authentication error")),
     mkApp (Some config)
       (mkSession (sess_userId (session app))
          (Some (randomPKCECodeVerifier client)) (Some (randomState client)))
       (store app)).
Proof.
  intros Hcfg Hurl.
  destruct (getOIDCConfig_frame _ _ _ _ Hcfg) as (Hsess & Hstore & Hcached & _).
  unfold login, try_catch, bind at 1. rewrite Hcfg.
  unfold bind at 1, get_session. unfold bind at 1, put_session.
  unfold bind at 1, lift_outcome. rewrite Hurl.
  unfold ret. cbn [oidcConfig session store].
  by rewrite Hsess, Hstore, (Hcached config eq_refl).
Qed.

Lemma failed_login_leaves_pending_record_witness :
  login Sample.idp_no_endpoint Sample.callbackUri (Fixture.callback_request [])
    (mkApp None (mkSession (Some "bob") None None) Fixture.db)
  = (Ok (mkResponse 500 (Text "Authentication error")),
     mkApp (Some Sample.config)
       (mkSession (Some "bob") (Some "verifier-2") (Some "state-2")) Fixture.db).
Proof.
  apply (failed_login_leaves_pending_record Sample.idp_no_endpoint Sample.callbackUri
           (Fixture.callback_request [])
           (mkApp None (mkSession (Some "bob") None None) Fixture.db)
           (mkApp (Some Sample.config) (mkSession (Some "bob") None None) Fixture.db)
           Sample.config (JsError "authorization_endpoint missing"));
    reflexivity.
Defined.

(** X13. Login and callback fit together: the callback that follows a
    login hands the token endpoint exactly the verifier and the state
    that login drew, uses the configuration login cached, and on success
    leaves the session authenticated as the upserted user with the
    pending-login record gone. *)
Theorem login_then_callback {St} (storage : IStorage St) (client client' : OidcClient)
    (redirectUri : string) (req req' : Request) (app app1 : App St)
    (config : Configuration) (url : string) (tokens : TokenSet) (userinfo : UserInfo)
    (user : User) (st : St) :
  getOIDCConfig client app = (Ok config, app1) ->
  buildAuthorizationUrl client config
    {| redirect_uri := redirectUri;
       scope := "openid profile email";
       code_challenge := calculatePKCECodeChallenge client (randomPKCECodeVerifier client);
       code_challenge_method := "S256";
       param_state := randomState client |} = Ok url ->
  randomPKCECodeVerifier client <> "" ->
  randomState client <> "" ->
  authorizationCodeGrant client' config (mkUrl redirectUri (req_query req'))
    (randomPKCECodeVerifier client) (randomState client) = Ok tokens ->
  fetchUserInfo client' config (access_token tokens) (token_type tokens) = Ok userinfo ->
  upsertUser storage
    {| upsert_id := sub userinfo;
       upsert_email := or_null (email userinfo);
       upsert_firstName := or_null (given_name userinfo);
       upsert_lastName := or_null (family_name userinfo);
       upsert_profileImageUrl := or_null (picture userinfo) |}
    (store app) = (Ok user, st) ->
  callback storage client' redirectUri req' (login client redirectUri req app).2
  = (Ok (mkResponse 302 (Location "/")),
     mkApp (Some config) (mkSession (Some (user_id user)) None None) st).
Proof.
  intros Hcfg Hurl Hverifier Hstate Hgrant Hinfo Hupsert.
  rewrite (login_opens_pending_login_run client redirectUri req app app1 config url Hcfg Hurl).
  cbn [snd].
  set (app2 := mkApp (Some config) _ (store app)).
  rewrite (callback_pending storage client' redirectUri req' app2 config app2
             (randomPKCECodeVerifier client) (randomState client)
             (getOIDCConfig_cached client' app2 config eq_refl)).
  - cbn [store session oidcConfig app2]. by rewrite Hgrant, Hinfo, Hupsert.
  - cbn [session sess_codeVerifier]. unfold or_null.
    by destruct (randomPKCECodeVerifier client).
  - cbn [session sess_state]. unfold or_null.
    by destruct (randomState client).
Qed.

Lemma login_then_callback_witness :
  let app := mkApp None (mkSession None None None) Fixture.db in
  exists app2,
    callback Fixture.storage Fixture.idp Sample.callbackUri
      (Fixture.callback_request [("code", "c0de"); ("state", "state-1")])
      (login Fixture.idp Sample.callbackUri (Fixture.callback_request []) app).2
    = (Ok (mkResponse 302 (Location "/")), app2)
    /\ session app2 = mkSession (Some "dave") None None.
Proof.
  intros app. eexists. split.
  - eapply (login_then_callback Fixture.storage Fixture.idp Fixture.idp Sample.callbackUri
              (Fixture.callback_request [])
              (Fixture.callback_request [("code", "c0de"); ("state", "state-1")])
              app);
      [reflexivity | reflexivity | discriminate | discriminate
      | reflexivity | reflexivity | reflexivity].
  - reflexivity.
Defined.

(** X14. Discovery is fetched once: after a request that obtained the
    configuration, every later request gets the same configuration from
    the cache, whatever the identity provider would answer then, and the
    cache stays as it is.  A failed discovery caches nothing. *)
Theorem discovery_is_fetched_once {St} (client : OidcClient) (app app1 : App St)
    (outcome : Outcome Configuration) :
  getOIDCConfig client app = (outcome, app1) ->
  match outcome with
  | Ok config =>
      forall client', getOIDCConfig client' app1 = (Ok config, app1)
  | Throw _ => app1 = app
  end.
Proof.
  intros Hcfg. destruct (getOIDCConfig_frame _ _ _ _ Hcfg) as (_ & _ & Hcached & Hsame).
  destruct outcome as [config|e].
  - intros client'. apply getOIDCConfig_cached. by apply Hcached.
  - by apply (Hsame e).
Qed.

Lemma discovery_is_fetched_once_witness :
  getOIDCConfig Fixture.idp_down
    (getOIDCConfig Fixture.idp (mkApp None (mkSession None None None) Fixture.db)).2
  = (Ok Sample.config, mkApp (Some Sample.config) (mkSession None None None) Fixture.db).
Proof.
  apply (discovery_is_fetched_once Fixture.idp
           (mkApp None (mkSession None None None) Fixture.db)
           (mkApp (Some Sample.config) (mkSession None None None) Fixture.db)
           (Ok Sample.config) eq_refl Fixture.idp_down).
Defined.


(** X16. Over the database, with every user stored under its own id, a
    successful callback makes the browser's next GET /api/auth/user
    answer 200 with the user the identity provider described: id the
    subject, profile fields the claims (empty ones as null), role viewer
    when the subject was not known before and the stored role otherwise.
    This needs a non-empty subject: an empty one would be stored but
    count as no session. *)
Theorem callback_then_profile {Ext} (entities : EntityQueries Ext) (schemas : Schemas)
    (client : OidcClient) (redirectUri : string) (req : Request)
    (app app1 : App (Database Ext)) (config : Configuration) (verifier state : string)
    (tokens : TokenSet) (userinfo : UserInfo) (id : string) (body : Json) :
  getOIDCConfig client app = (Ok config, app1) ->
  or_null (sess_codeVerifier (session app)) = Some verifier ->
  or_null (sess_state (session app)) = Some state ->
  authorizationCodeGrant client config (mkUrl redirectUri (req_query req)) verifier state
  = Ok tokens ->
  fetchUserInfo client config (access_token tokens) (token_type tokens) = Ok userinfo ->
  sub userinfo <> "" ->
  users_keyed (db_users (store app)) ->
  let app2 := (callback (DatabaseStorage.storage entities) client redirectUri req app).2 in
  exists user,
    serve (DatabaseStorage.storage entities) schemas GET_auth_user
      (next_request app2 id body) (store app2)
    = (Ok (mkResponse 200 (UserJson (Some user))), store app2)
    /\ user_id user = sub userinfo
    /\ user_email user = or_null (email userinfo)
    /\ user_firstName user = or_null (given_name userinfo)
    /\ user_lastName user = or_null (family_name userinfo)
    /\ user_profileImageUrl user = or_null (picture userinfo)
    /\ user_role user
       = from_option user_role viewer (db_users (store app) !! sub userinfo).
Proof.
  intros Hcfg Hv Hs Hgrant Hinfo Hsub Hkeyed app2. subst app2.
  rewrite (callback_pending (DatabaseStorage.storage entities) client redirectUri req app
             config app1 verifier state Hcfg Hv Hs).
  rewrite Hgrant, Hinfo. cbn [upsertUser DatabaseStorage.storage].
  set (profile := mkUpsertUser _ _ _ _ _).
  assert (forall user db',
            user_id user = sub userinfo ->
            db_users db' !! sub userinfo = Some user ->
            serve (DatabaseStorage.storage entities) schemas GET_auth_user
              (next_request
                 (mkApp (oidcConfig app1) (mkSession (Some (user_id user)) None None) db')
                 id body) db'
            = (Ok (mkResponse 200 (UserJson (Some user))), db')) as Hserve.
  { intros user db' Hid Hstored.
    unfold serve. cbn [registerRoutes chain fst snd].
    rewrite (isAuthenticated_resolved _ _ _ (sub userinfo) user db' db').
    - reflexivity.
    - cbn [next_request req_session session sess_userId]. rewrite Hid. unfold or_null.
      by destruct (sub userinfo).
    - cbn [getUserById DatabaseStorage.storage]. by rewrite db_getUserById, Hstored. }
  destruct (db_users (store app) !! sub userinfo) as [existing|] eqn:Hex.
  - rewrite (db_upsertUser_existing profile (store app) existing Hex). cbn [snd store].
    exists (set_profile profile (db_now (store app)) existing).
    pose proof (Hkeyed _ _ Hex) as Hid.
    split.
    + apply Hserve; [exact Hid|]. cbn. apply lookup_insert_eq.
    + subst profile. cbn. repeat split. exact Hid.
  - rewrite (db_upsertUser_absent profile (store app) Hex). cbn [snd store].
    exists (mkUser (sub userinfo) (or_null (email userinfo)) (or_null (given_name userinfo))
              (or_null (family_name userinfo)) (or_null (picture userinfo)) viewer
              (db_now (store app)) (db_now (store app))).
    split.
    + apply Hserve; [reflexivity|]. cbn. apply lookup_insert_eq.
    + by repeat split.
Qed.

Lemma callback_then_profile_witness :
  let app := mkApp None (mkSession None (Some "verifier-1") (Some "state-1")) Fixture.db in
  let app2 :=
    (callback Fixture.storage Fixture.idp Sample.callbackUri
       (Fixture.callback_request [("code", "c0de"); ("state", "state-1")]) app).2 in
  exists user,
    serve Fixture.storage Fixture.schemas GET_auth_user (next_request app2 "" JNull)
      (store app2)
    = (Ok (mkResponse 200 (UserJson (Some user))), store app2)
    /\ user_id user = "dave"
    /\ user_email user = Some "dave@example.com"
    /\ user_firstName user = Some "Dave"
    /\ user_lastName user = None
    /\ user_profileImageUrl user = None
    /\ user_role user = viewer.
Proof.
  intros app app2.
  apply (callback_then_profile Fixture.entities Fixture.schemas Fixture.idp
           Sample.callbackUri
           (Fixture.callback_request [("code", "c0de"); ("state", "state-1")]) app
           (mkApp (Some Sample.config) (session app) Fixture.db) Sample.config
           "verifier-1" "state-1" (mkTokenSet "token-1" "bearer")
           (mkUserInfo "dave" (Some "dave@example.com") (Some "Dave") None None) "" JNull);
    [reflexivity | reflexivity | reflexivity | reflexivity | reflexivity | discriminate |].
  change (map_Forall (fun key row => user_id row = key) (db_users Fixture.db)).
  apply (bool_decide_unpack _). vm_compute. exact I.
Defined.

(** ** The users table *)

(** X17. Every user sits under its own id, and this is kept by
    [upsertUser], by [updateUserRole] and by each of the ten modelled
    routes (the profile route and the nine that write through JSON
    bodies); hence the user that authentication attaches to a request has
    the id the session names. *)
Theorem users_stay_keyed {Ext} (entities : EntityQueries Ext) (schemas : Schemas)
    (db : Database Ext) :
  users_keyed (db_users db) ->
  (forall user, users_keyed (db_users (DatabaseStorage.upsertUser user db).2))
  /\ (forall id data, users_keyed (db_users (DatabaseStorage.updateUserRole id data db).2))
  /\ (forall route req,
        users_keyed
          (db_users (serve (DatabaseStorage.storage entities) schemas route req db).2))
  /\ (forall sid user db',
        getUserById (DatabaseStorage.storage entities) sid db = (Ok (Some user), db') ->
        user_id user = sid).
Proof.
  intros Hkeyed. repeat apply conj.
  - intros user key row.
    destruct (db_users db !! upsert_id user) as [existing|] eqn:Hex.
    + rewrite (db_upsertUser_existing user db existing Hex). cbn.
      destruct (decide (upsert_id user = key)) as [<- | Hne].
      * rewrite lookup_insert_eq. intros [= <-]. cbn. by apply Hkeyed.
      * rewrite lookup_insert_ne by done. apply Hkeyed.
    + rewrite (db_upsertUser_absent user db Hex). cbn.
      destruct (decide (upsert_id user = key)) as [<- | Hne].
      * rewrite lookup_insert_eq. by intros [= <-].
      * rewrite lookup_insert_ne by done. apply Hkeyed.
  - intros id data key row.
    destruct (db_users db !! id) as [existing|] eqn:Hex.
    + rewrite (db_updateUserRole_found id data db existing Hex). cbn.
      destruct (decide (id = key)) as [<- | Hne].
      * rewrite lookup_insert_eq. intros [= <-]. cbn. by apply Hkeyed.
      * rewrite lookup_insert_ne by done. apply Hkeyed.
    + rewrite (db_updateUserRole_missing id data db Hex). apply Hkeyed.
  - intros route req key row Hrow.
    destruct (routes_users_change entities schemas route req db key)
      as [Hsame | (_ & _ & old & data & _ & Hold & Hnew)].
    + apply Hkeyed. by rewrite <- Hsame.
    + rewrite Hnew in Hrow. injection Hrow as <-. cbn. by apply Hkeyed.
  - intros sid user db'. cbn [getUserById DatabaseStorage.storage].
    rewrite db_getUserById. intros [= Hrow _]. by apply Hkeyed.
Qed.

Lemma users_stay_keyed_witness :
  users_keyed
    (db_users
       (serve Fixture.storage Fixture.schemas PATCH_users_id_role
          (Fixture.request (Some "root") "bob" (Fixture.role_body "admin")) Fixture.db).2).
Proof.
  apply (users_stay_keyed Fixture.entities Fixture.schemas Fixture.db).
  change (map_Forall (fun key row => user_id row = key) (db_users Fixture.db)).
  apply (bool_decide_unpack _). vm_compute. exact I.
Defined.

(** X18. [upsertUser] and [getUserById] round-trip: the user that
    [upsertUser] returns is the one a lookup of the subject finds
    afterwards; lookups of other ids, the audit log and the other tables
    are as before. *)
Theorem upsert_then_lookup {Ext} (db : Database Ext) (user : UpsertUser) :
  exists row db',
    DatabaseStorage.upsertUser user db = (Ok row, db')
    /\ DatabaseStorage.getUserById (upsert_id user) db' = (Ok (Some row), db')
    /\ (forall id, id <> upsert_id user ->
          DatabaseStorage.getUserById id db' = (Ok (db_users db !! id), db'))
    /\ db_audit_logs db' = db_audit_logs db
    /\ db_entities db' = db_entities db.
Proof.
  destruct (db_users db !! upsert_id user) as [existing|] eqn:Hex.
  - rewrite (db_upsertUser_existing user db existing Hex).
    eexists _, _. split; [reflexivity|]. split; [|split; [|by split]].
    + rewrite db_getUserById. cbn. by rewrite lookup_insert_eq.
    + intros id Hne. rewrite db_getUserById. cbn. by rewrite lookup_insert_ne.
  - rewrite (db_upsertUser_absent user db Hex).
    eexists _, _. split; [reflexivity|]. split; [|split; [|by split]].
    + rewrite db_getUserById. cbn. by rewrite lookup_insert_eq.
    + intros id Hne. rewrite db_getUserById. cbn. by rewrite lookup_insert_ne.
Qed.

(** X19. The two stores agree on users: started from the same users
    (each under its own id) and the same clock, [upsertUser],
    [getUserById] and [updateUserRole] return the same in
    [DatabaseStorage] and in [MemStorage] (a role update of a missing
    user throws "User not found" in both) and leave the same users. *)
Theorem stores_agree_on_users {Ext} (db : Database Ext) (mem : MemStorage.State) :
  db_users db = MemStorage.users mem ->
  db_now db = MemStorage.mem_now mem ->
  users_keyed (db_users db) ->
  (forall user,
     (DatabaseStorage.upsertUser user db).1 = (MemStorage.upsertUser user mem).1
     /\ db_users (DatabaseStorage.upsertUser user db).2
        = MemStorage.users (MemStorage.upsertUser user mem).2)
  /\ (forall id,
        (DatabaseStorage.getUserById id db).1 = (MemStorage.getUserById id mem).1)
  /\ (forall id data,
        (DatabaseStorage.updateUserRole id data db).1
        = (MemStorage.updateUserRole id data mem).1
        /\ db_users (DatabaseStorage.updateUserRole id data db).2
           = MemStorage.users (MemStorage.updateUserRole id data mem).2).
Proof.
  intros Husers Hnow Hkeyed. repeat apply conj.
  - intros user. unfold MemStorage.upsertUser. rewrite <- Husers, <- Hnow.
    destruct (db_users db !! upsert_id user) as [existing|] eqn:Hex.
    + rewrite (db_upsertUser_existing user db existing Hex). cbn.
      pose proof (Hkeyed _ _ Hex) as Hid. unfold set_profile. rewrite Hid. by split.
    + rewrite (db_upsertUser_absent user db Hex). cbn. by split.
  - intros id. rewrite db_getUserById. unfold MemStorage.getUserById. cbn.
    by rewrite Husers.
  - intros id data. unfold MemStorage.updateUserRole. rewrite <- Husers, <- Hnow.
    destruct (db_users db !! id) as [existing|] eqn:Hex.
    + rewrite (db_updateUserRole_found id data db existing Hex). cbn. by split.
    + rewrite (db_updateUserRole_missing id data db Hex). cbn. by split.
Qed.

Lemma stores_agree_on_users_witness :
  (DatabaseStorage.updateUserRole "ghost" (mkUpdateUserRole manager) Fixture.db).1
  = (MemStorage.updateUserRole "ghost" (mkUpdateUserRole manager) Fixture.mem).1
  /\ db_users (DatabaseStorage.upsertUser Fixture.bob_profile Fixture.db).2
     = MemStorage.users (MemStorage.upsertUser Fixture.bob_profile Fixture.mem).2.
Proof.
  assert (users_keyed (db_users Fixture.db)) as Hkeyed.
  { change (map_Forall (fun key row => user_id row = key) (db_users Fixture.db)).
    apply (bool_decide_unpack _). vm_compute. exact I. }
  destruct (stores_agree_on_users Fixture.db Fixture.mem eq_refl eq_refl Hkeyed)
    as (Hupsert & _ & Hrole).
  split; [apply Hrole | apply Hupsert].
Defined.

(** ** The audit log *)

Lemma oldest_first_strongly rows :
  oldest_first rows ->
  StronglySorted (fun a b => log_timestamp a <= log_timestamp b) rows.
Proof.
  apply Sorted_StronglySorted. intros a b c Hab Hbc. lia.
Qed.

(** In a list in timestamp order nothing among the first [n] rows is
    younger than a later row. *)
Lemma oldest_first_take_drop n rows r r' :
  oldest_first rows ->
  In r (take n rows) -> In r' (drop n rows) ->
  log_timestamp r <= log_timestamp r'.
Proof.
  intros Hsorted. apply oldest_first_strongly in Hsorted.
  revert n. induction Hsorted as [|a rest Hrest IH Hall]; intros [|n]; cbn; try done.
  intros [<- | Hin] Hin'.
  - rewrite Forall_forall in Hall. apply Hall.
    apply list_elem_of_In in Hin'. by apply (subseteq_drop n rest).
  - by apply (IH n).
Qed.

(** X20. [createAuditLog] only appends.  An entry that leaves the id to
    the column default, as every entry of [auditLog] does, is stored at
    the end: the rows already there stay, in place and unchanged, users
    and other tables are not touched, and the new row takes the entry's
    fields, with the database clock as timestamp and [{}] as metadata
    where the entry has none.  A read with a limit that covers the table
    then returns all rows, the new one included, in ascending timestamp
    order.  An entry that brings the id of a row already there is refused
    by the primary key: the call throws and nothing changes. *)
Theorem audit_append_then_read {Ext} (db : Database Ext) (log : InsertAuditLog)
    (limit : Z) :
  (forall id taken,
     ilog_id log = Some id -> In taken (db_audit_logs db) -> log_id taken = id ->
     exists e, DatabaseStorage.createAuditLog log db = (Throw e, db))
  /\ (ilog_id log = None ->
      Z.of_nat (length (db_audit_logs db)) < limit ->
      exists row db' rows,
        DatabaseStorage.createAuditLog log db = (Ok row, db')
        /\ db_audit_logs db' = (db_audit_logs db ++ [row])%list
        /\ db_users db' = db_users db
        /\ db_entities db' = db_entities db
        /\ log_action row = ilog_action log
        /\ log_userId row = ilog_userId log
        /\ log_endpoint row = ilog_endpoint log
        /\ log_method row = ilog_method log
        /\ log_ipAddress row = ilog_ipAddress log
        /\ log_timestamp row = default (db_now db) (ilog_timestamp log)
        /\ log_metadata row = default (JObj []) (ilog_metadata log)
        /\ DatabaseStorage.getAuditLogs (Some limit) db' = (Ok rows, db')
        /\ Permutation rows (db_audit_logs db ++ [row])
        /\ oldest_first rows).
Proof.
  unfold DatabaseStorage.createAuditLog, DatabaseStorage.audit_log_id,
    DatabaseStorage.gen_random_uuid, DatabaseStorage.new_Date, bind, ret.
  split.
  - intros id taken Hid Htaken Hsame. rewrite Hid.
    replace (existsb _ (db_audit_logs db)) with true; [eexists; reflexivity|].
    symmetry. apply existsb_exists. exists taken. split; [assumption|].
    by apply String.eqb_eq.
  - intros Hid Hlimit. rewrite Hid.
    eexists _, _, _. split; [reflexivity|].
    cbn [db_audit_logs db_users db_entities db_now DatabaseStorage.set_audit_logs
         log_action log_userId log_endpoint log_method log_ipAddress log_timestamp
         log_metadata].
    repeat (split; [reflexivity|]).
    unfold DatabaseStorage.getAuditLogs. simpl default.
    rewrite (proj2 (Z.ltb_ge limit 0)) by lia.
    cbn [db_audit_logs db_ties DatabaseStorage.set_audit_logs].
    split; [reflexivity|].
    rewrite take_ge
      by (rewrite (Permutation_length (order_by_timestamp_perm _ _)), length_app;
          cbn; lia).
    split; [apply order_by_timestamp_perm | apply order_by_timestamp_sorted].
Qed.

(** An entry without id on the empty table; and an entry that brings the
    id of a row that is there. *)
Lemma audit_append_then_read_witness :
  (exists row db' rows,
     DatabaseStorage.createAuditLog
       (mkInsertAuditLog None (Some "alice") "DELETE_TABLE" "/api/tables/t" "DELETE" None
          None None)
       Fixture.db = (Ok row, db')
     /\ log_timestamp row = 2000
     /\ log_metadata row = JObj []
     /\ DatabaseStorage.getAuditLogs (Some 1) db' = (Ok rows, db')
     /\ Permutation rows [row])
  /\ (let db := DatabaseStorage.set_audit_logs [Fixture.log_at "l1" 10] Fixture.db in
      exists e,
        DatabaseStorage.createAuditLog
          (mkInsertAuditLog (Some "l1") None "DELETE_TABLE" "/api/tables/t" "DELETE" None
             None None) db
        = (Throw e, db)).
Proof.
  split.
  - destruct (audit_append_then_read Fixture.db
                (mkInsertAuditLog None (Some "alice") "DELETE_TABLE" "/api/tables/t" "DELETE"
                   None None None) 1) as [_ Happend].
    destruct Happend
      as (row & db' & rows & Hrun & _ & _ & _ & _ & _ & _ & _ & _ & Hstamp & Hmeta
          & Hread & Hperm & _).
    + reflexivity.
    + cbn. lia.
    + exists row, db', rows. auto.
  - intros db.
    destruct (audit_append_then_read db
                (mkInsertAuditLog (Some "l1") None "DELETE_TABLE" "/api/tables/t" "DELETE"
                   None None None) 5) as [Hrefused _].
    apply (Hrefused "l1" (Fixture.log_at "l1" 10)); [reflexivity | left; reflexivity
                                                     | reflexivity].
Defined.

(** X21. What [DatabaseStorage.getAuditLogs] selects.  The call never
    throws and changes nothing.  A negative limit is no limit: every row
    comes back.  Otherwise the answer has as many rows as the limit
    allows.  In both cases the rows are rows of the table, in ascending
    timestamp order, and no row left out is older than a row returned: the
    answer is the oldest rows, not the most recent ones. *)
Theorem getAuditLogs_selects_the_oldest {Ext} (db : Database Ext) (limit : Z) :
  exists rows rest,
    DatabaseStorage.getAuditLogs (Some limit) db = (Ok rows, db)
    /\ Permutation (rows ++ rest) (db_audit_logs db)
    /\ length rows
       = (if limit <? 0
          then length (db_audit_logs db)
          else Nat.min (Z.to_nat limit) (length (db_audit_logs db)))
    /\ oldest_first (rows ++ rest)
    /\ (forall r r', In r rows -> In r' rest ->
          log_timestamp r <= log_timestamp r').
Proof.
  unfold DatabaseStorage.getAuditLogs. simpl default.
  destruct (limit <? 0).
  - exists (order_by_timestamp (db_ties db) (db_audit_logs db)), [].
    split; [reflexivity|]. rewrite app_nil_r.
    split; [apply order_by_timestamp_perm|].
    split; [apply Permutation_length, order_by_timestamp_perm|].
    split; [apply order_by_timestamp_sorted|]. intros r r' _ [].
  - exists (take (Z.to_nat limit) (order_by_timestamp (db_ties db) (db_audit_logs db))),
      (drop (Z.to_nat limit) (order_by_timestamp (db_ties db) (db_audit_logs db))).
    split; [reflexivity|]. rewrite take_drop. split; [apply order_by_timestamp_perm|].
    split.
    { by rewrite length_take, (Permutation_length (order_by_timestamp_perm _ _)). }
    split; [apply order_by_timestamp_sorted|].
    intros r r'. apply oldest_first_take_drop, order_by_timestamp_sorted.
Qed.

(** X22. Where the two stores agree on reading the log: when the log was
    written with strictly increasing timestamps and the limit is positive
    and covers it, [DatabaseStorage.getAuditLogs] and
    [MemStorage.getAuditLogs] return the same list, the whole log oldest
    first, whatever the engine does with ties.  (With equal timestamps in
    the log the database's answer is not determined by the query.) *)
Theorem stores_agree_on_short_logs {Ext} (db : Database Ext) (mem : MemStorage.State)
    (limit : Z) :
  db_audit_logs db = MemStorage.auditLogs mem ->
  strictly_oldest_first (db_audit_logs db) ->
  0 < limit ->
  Z.of_nat (length (db_audit_logs db)) <= limit ->
  DatabaseStorage.getAuditLogs (Some limit) db = (Ok (db_audit_logs db), db)
  /\ MemStorage.getAuditLogs (Some limit) mem = (Ok (db_audit_logs db), mem).
Proof.
  intros Hlogs Hsorted Hpos Hcovers. split.
  - unfold DatabaseStorage.getAuditLogs. simpl default.
    rewrite (proj2 (Z.ltb_ge limit 0)) by lia.
    rewrite (order_by_timestamp_distinct _ _ Hsorted), take_ge by lia. reflexivity.
  - rewrite (mem_getAuditLogs_last limit mem Hpos). rewrite <- Hlogs.
    replace (length (db_audit_logs db) - Z.to_nat limit)%nat with 0%nat by lia.
    reflexivity.
Qed.

Lemma stores_agree_on_short_logs_witness :
  let rows := [Fixture.log_at "l1" 10; Fixture.log_at "l2" 20; Fixture.log_at "l3" 30] in
  (DatabaseStorage.getAuditLogs (Some 3) (DatabaseStorage.set_audit_logs rows Fixture.db)).1
  = Ok rows
  /\ (MemStorage.getAuditLogs (Some 3)
        (MemStorage.mkState 2000 (MemStorage.users Fixture.mem) rows)).1
     = Ok rows.
Proof.
  intros rows.
  destruct (stores_agree_on_short_logs (DatabaseStorage.set_audit_logs rows Fixture.db)
              (MemStorage.mkState 2000 (MemStorage.users Fixture.mem) rows) 3)
    as [Hdb Hmem];
    [reflexivity | | lia | cbn; lia |].
  - repeat constructor; cbn; lia.
  - rewrite Hdb, Hmem. split; reflexivity.
Defined.

(** Three rows written out of order: a negative limit returns all three,
    a limit of 2 the two oldest. *)
Lemma getAuditLogs_selects_the_oldest_witness :
  let rows := [Fixture.log_at "l3" 30; Fixture.log_at "l1" 10; Fixture.log_at "l2" 20] in
  let db := DatabaseStorage.set_audit_logs rows Fixture.db in
  (exists answer,
     DatabaseStorage.getAuditLogs (Some (-1)) db = (Ok answer, db)
     /\ length answer = 3%nat)
  /\ exists answer rest,
       DatabaseStorage.getAuditLogs (Some 2) db = (Ok answer, db)
       /\ length answer = 2%nat
       /\ (forall r r', In r answer -> In r' rest ->
             log_timestamp r <= log_timestamp r').
Proof.
  intros rows db. split.
  - destruct (getAuditLogs_selects_the_oldest db (-1))
      as (answer & rest & Hrun & _ & Hlen & _).
    exists answer. auto.
  - destruct (getAuditLogs_selects_the_oldest db 2)
      as (answer & rest & Hrun & _ & Hlen & _ & Hold).
    exists answer, rest. auto.
Defined.

(** X23. What [MemStorage.getAuditLogs] selects: for a positive limit
    the last entries of the array, as many as the limit allows, in array
    order; for limit 0 the whole array, not nothing; for a negative limit
    [-k] everything but the first [k] entries.  The store is never
    changed. *)
Theorem mem_getAuditLogs_selects (this : MemStorage.State) (limit : Z) :
  MemStorage.getAuditLogs (Some limit) this
  = (Ok (drop
           (if 0 <? limit
            then (length (MemStorage.auditLogs this) - Z.to_nat limit)%nat
            else Z.to_nat (- limit))
           (MemStorage.auditLogs this)),
     this).
Proof.
  unfold MemStorage.getAuditLogs, js_slice_from. simpl default.
  destruct (Z.ltb_spec 0 limit) as [Hpos | Hnonpos].
  - rewrite (proj2 (Z.ltb_lt (- limit) 0)) by lia. do 2 f_equal. f_equal. lia.
  - rewrite (proj2 (Z.ltb_ge (- limit) 0)) by lia. do 2 f_equal.
    destruct (Z.le_gt_cases (- limit) (Z.of_nat (length (MemStorage.auditLogs this))))
      as [Hin | Hout].
    + f_equal. lia.
    + rewrite !drop_ge by lia. reflexivity.
Qed.

(* ===================================================================== *)
(** ** [MemStorage]: the entity maps *)
(* ===================================================================== *)

Section JsMapFacts.
Context {V : Type}.
Implicit Types (m : JsMap V) (key : string) (value : V).

Lemma js_get_set key value m : js_get key (js_set key value m) = Some value.
Proof.
  induction m as [| [k v] rest IH]; simpl.
  - rewrite String.eqb_refl. reflexivity.
  - destruct (String.eqb k key) eqn:Hk; simpl; rewrite Hk; auto.
Qed.

Lemma js_get_set_other key key' value m :
  key <> key' -> js_get key' (js_set key value m) = js_get key' m.
Proof.
  intros Hne. induction m as [| [k v] rest IH]; simpl.
  - rewrite (proj2 (String.eqb_neq key key')); auto.
  - destruct (String.eqb k key) eqn:Hk; simpl.
    + apply String.eqb_eq in Hk. subst k.
      rewrite (proj2 (String.eqb_neq key key')); auto.
    + destruct (String.eqb k key'); auto.
Qed.

Lemma js_get_delete key m : js_get key (js_delete key m) = None.
Proof.
  induction m as [| [k v] rest IH]; simpl; auto.
  destruct (String.eqb k key) eqn:Hk; simpl; auto. rewrite Hk. exact IH.
Qed.

Lemma js_get_delete_other key key' m :
  key <> key' -> js_get key' (js_delete key m) = js_get key' m.
Proof.
  intros Hne. induction m as [| [k v] rest IH]; simpl; auto.
  destruct (String.eqb k key) eqn:Hk; simpl.
  - apply String.eqb_eq in Hk. subst k.
    rewrite (proj2 (String.eqb_neq key key')); auto.
  - rewrite IH. reflexivity.
Qed.

Lemma js_keys_set_present key value m :
  js_get key m <> None -> js_keys (js_set key value m) = js_keys m.
Proof.
  unfold js_keys. induction m as [| [k v] rest IH]; simpl; [congruence|].
  destruct (String.eqb k key) eqn:Hk; simpl; auto.
  intros Hin. rewrite IH; auto.
Qed.

Lemma js_keys_set_absent key value m :
  js_get key m = None -> js_keys (js_set key value m) = (js_keys m ++ [key])%list.
Proof.
  unfold js_keys. induction m as [| [k v] rest IH]; simpl; auto.
  destruct (String.eqb k key) eqn:Hk; simpl; [congruence|].
  intros Hin. rewrite IH; auto.
Qed.

Lemma js_values_length m : length (js_values m) = length (js_keys m).
Proof. unfold js_values, js_keys. rewrite !length_map. reflexivity. Qed.

Lemma js_set_present_length key value m :
  js_get key m <> None -> length (js_values (js_set key value m)) = length (js_values m).
Proof.
  intros Hin. rewrite !js_values_length, js_keys_set_present; auto.
Qed.

End JsMapFacts.

Lemma wh_id_of_clock (t t' : Time) : "wh_" ++ pretty t = "wh_" ++ pretty t' <-> t = t'.
Proof.
  split; [|congruence]. intros Heq. simpl in Heq.
  injection Heq as Heq. exact (pretty_Z_inj _ _ Heq).
Qed.

Lemma js_get_listed {V} (key : string) (value : V) (m : JsMap V) :
  js_get key m = Some value -> In value (js_values m).
Proof.
  induction m as [| [k v] rest IH]; simpl; [congruence|].
  destruct (String.eqb k key); [intros [= ->]; auto | auto].
Qed.

Lemma js_set_twice {V} (key : string) (value : V) (m : JsMap V) :
  js_set key value (js_set key value m) = js_set key value m.
Proof.
  induction m as [| [k v] rest IH]; simpl.
  - rewrite String.eqb_refl. reflexivity.
  - destruct (String.eqb k key) eqn:Hk; simpl; rewrite Hk; congruence.
Qed.

(** X24. [createWarehouse] and [getWarehouseById] round-trip: the
    warehouse returned is found under its id afterwards and is listed; its
    id is made from the clock and its dates are the clock, whatever id or
    dates the input carries, and its capacity is 0 where none is given.
    Lookups of other ids answer as before, and no other collection
    changes. *)
Theorem warehouse_create_then_lookup (this : MemStore.State) (warehouse : InsertWarehouse) :
  exists created this',
    MemStore.createWarehouse warehouse this = (Ok created, this')
    /\ MemStore.getWarehouseById (wh_id created) this' = (Ok (Some created), this')
    /\ (exists listed,
          MemStore.getWarehouses this' = (Ok listed, this') /\ In created listed)
    /\ wh_id created = "wh_" ++ pretty (MemStore.now this)
    /\ wh_capacity created = default 0 (iwh_capacity warehouse)
    /\ wh_createdAt created = MemStore.now this
    /\ wh_updatedAt created = MemStore.now this
    /\ (forall id found,
          id <> wh_id created ->
          MemStore.getWarehouseById id this = (Ok found, this) ->
          MemStore.getWarehouseById id this' = (Ok found, this'))
    /\ MemStore.core this' = MemStore.core this
    /\ MemStore.inventoryItems this' = MemStore.inventoryItems this
    /\ MemStore.productHistory this' = MemStore.productHistory this
    /\ MemStore.tables this' = MemStore.tables this
    /\ MemStore.tableRows this' = MemStore.tableRows this.
Proof.
  eexists _, _. split; [reflexivity|].
  unfold MemStore.getWarehouseById, MemStore.getWarehouses. cbn.
  rewrite js_get_set. split; [reflexivity|].
  split; [eexists; split; [reflexivity|]; eapply js_get_listed, js_get_set|].
  repeat (split; [reflexivity|]).
  split; [|repeat split].
  intros id found Hne [= <-]. rewrite js_get_set_other by congruence. reflexivity.
Qed.

(** X25. Ids are made from the clock alone, so two warehouses created
    at the same clock reading share an id and the second replaces the
    first: the first is no longer found and the listing does not grow.
    At different clock readings the ids differ and both are found. *)
Theorem warehouses_created_at_one_clock_reading
    (this this1 later : MemStore.State) (a b : InsertWarehouse) (wa : Warehouse) :
  MemStore.createWarehouse a this = (Ok wa, this1) ->
  MemStore.warehouses later = MemStore.warehouses this1 ->
  exists wb this2,
    MemStore.createWarehouse b later = (Ok wb, this2)
    /\ (MemStore.now later = MemStore.now this ->
          wh_id wb = wh_id wa
          /\ MemStore.getWarehouseById (wh_id wa) this2 = (Ok (Some wb), this2)
          /\ length (js_values (MemStore.warehouses this2))
             = length (js_values (MemStore.warehouses this1)))
    /\ (MemStore.now later <> MemStore.now this ->
          wh_id wb <> wh_id wa
          /\ MemStore.getWarehouseById (wh_id wa) this2 = (Ok (Some wa), this2)
          /\ MemStore.getWarehouseById (wh_id wb) this2 = (Ok (Some wb), this2)).
Proof.
  intros Hcreate Hlater. unfold MemStore.createWarehouse in Hcreate.
  injection Hcreate as Hwa Hthis1.
  eexists _, _. split; [reflexivity|].
  unfold MemStore.getWarehouseById. cbn. rewrite Hlater, <- Hthis1, <- Hwa. cbn.
  split.
  - intros Hclock. rewrite Hclock. split; [reflexivity|].
    rewrite js_get_set. split; [reflexivity|].
    apply js_set_present_length. rewrite js_get_set. discriminate.
  - intros Hclock.
    assert (Hids : "wh_" ++ pretty (MemStore.now later) <> "wh_" ++ pretty (MemStore.now this))
      by (rewrite wh_id_of_clock; exact Hclock).
    split; [exact Hids|].
    rewrite js_get_set_other by exact Hids.
    rewrite !js_get_set. split; reflexivity.
Qed.

Lemma warehouses_created_at_one_clock_reading_witness :
  let this := MemStore.mkState (MemStorage.mkState 1700000000000 ∅ []) [] [] [] [] [] in
  let a := mkInsertWarehouse None "North" None None None None None in
  let b := mkInsertWarehouse None "South" None None (Some 40) None None in
  exists wb this2,
    MemStore.createWarehouse b (MemStore.createWarehouse a this).2 = (Ok wb, this2)
    /\ wh_name wb = "South"
    /\ MemStore.getWarehouseById "wh_1700000000000" this2 = (Ok (Some wb), this2)
    /\ length (js_values (MemStore.warehouses this2)) = 1%nat.
Proof.
  intros this a b.
  destruct (warehouses_created_at_one_clock_reading this
              (MemStore.createWarehouse a this).2 (MemStore.createWarehouse a this).2
              a b _ eq_refl eq_refl)
    as (wb & this2 & Hrun & Hsame & _).
  destruct (Hsame eq_refl) as (_ & Hfound & Hlen).
  exists wb, this2. split; [exact Hrun|].
  split; [injection Hrun as <- _; reflexivity|].
  split; [exact Hfound | exact Hlen].
Defined.

Lemma merge_item_twice (existing : InventoryItem) (patch : PartialInventoryItem)
    (updatedAt : Time) :
  merge_item (merge_item existing patch updatedAt) patch updatedAt
  = merge_item existing patch updatedAt.
Proof.
  unfold merge_item. cbn. f_equal;
    try (match goal with |- default _ ?x = _ => destruct x; reflexivity end).
  destruct (pitem_expirationDate patch) as [[?|]|]; reflexivity.
Qed.

(** X26. [updateInventoryItem]: for an id that is not stored it throws
    "Inventory item not found" and changes nothing.  Otherwise the merged
    item is returned and found under the same id afterwards, no entry is
    added or moved, and other ids answer as before; [updatedAt] is the
    clock whatever the patch says; a patch cannot clear an expiration
    date, since [null] keeps the stored one; and applying the same patch
    again at the same clock reading changes nothing more. *)
Theorem item_update_then_lookup (this : MemStore.State) (id : string)
    (patch : PartialInventoryItem) :
  (MemStore.getInventoryItemById id this = (Ok None, this) ->
     MemStore.updateInventoryItem id patch this
     = (Throw (JsError "Inventory item not found"), this))
  /\ (forall existing,
        MemStore.getInventoryItemById id this = (Ok (Some existing), this) ->
        exists updated this',
          MemStore.updateInventoryItem id patch this = (Ok updated, this')
          /\ MemStore.getInventoryItemById id this' = (Ok (Some updated), this')
          /\ js_keys (MemStore.inventoryItems this') = js_keys (MemStore.inventoryItems this)
          /\ (forall id' found,
                id' <> id ->
                MemStore.getInventoryItemById id' this = (Ok found, this) ->
                MemStore.getInventoryItemById id' this' = (Ok found, this'))
          /\ item_updatedAt updated = MemStore.now this
          /\ (pitem_expirationDate patch = Some None ->
                item_expirationDate updated = item_expirationDate existing)
          /\ (item_expirationDate existing <> None -> item_expirationDate updated <> None)
          /\ MemStore.updateInventoryItem id patch this' = (Ok updated, this')).
Proof.
  unfold MemStore.getInventoryItemById, MemStore.updateInventoryItem. split.
  - intros [= Hget]. rewrite Hget. reflexivity.
  - intros existing [= Hget]. rewrite Hget.
    eexists _, _. split; [reflexivity|]. cbn.
    rewrite !js_get_set. split; [reflexivity|].
    split; [apply js_keys_set_present; congruence|].
    split; [intros id' found Hne [= <-]; rewrite js_get_set_other by congruence;
            reflexivity|].
    split; [reflexivity|].
    split; [intros ->; reflexivity|].
    split; [destruct (pitem_expirationDate patch) as [[?|]|]; cbn; congruence|].
    rewrite merge_item_twice. unfold MemStore.set_inventoryItems. cbn.
    rewrite js_set_twice. reflexivity.
Qed.

(** X27. Deleting a table takes its rows with it: afterwards neither
    the table nor any row of it is found, while other tables and their
    rows answer as before.  Deleting a warehouse does not cascade: the
    warehouse is gone, but the inventory items that name it are all still
    returned for it.  Neither delete fails when the id is not stored. *)
Theorem table_delete_cascades_warehouse_delete_does_not (this : MemStore.State)
    (id : string) :
  (exists this',
     MemStore.deleteTable id this = (Ok tt, this')
     /\ MemStore.getTableById id this' = (Ok None, this')
     /\ MemStore.getTableRows id this' = (Ok [], this')
     /\ (forall id' table rows,
           id' <> id ->
           MemStore.getTableById id' this = (Ok table, this) ->
           MemStore.getTableRows id' this = (Ok rows, this) ->
           MemStore.getTableById id' this' = (Ok table, this')
           /\ MemStore.getTableRows id' this' = (Ok rows, this')))
  /\ (exists this',
        MemStore.deleteWarehouse id this = (Ok tt, this')
        /\ MemStore.getWarehouseById id this' = (Ok None, this')
        /\ (forall items,
              MemStore.getInventoryByWarehouse id this = (Ok items, this) ->
              MemStore.getInventoryByWarehouse id this' = (Ok items, this'))
        /\ (forall id' found,
              id' <> id ->
              MemStore.getWarehouseById id' this = (Ok found, this) ->
              MemStore.getWarehouseById id' this' = (Ok found, this'))).
Proof.
  split.
  - eexists. split; [reflexivity|].
    unfold MemStore.getTableById, MemStore.getTableRows. cbn.
    rewrite !js_get_delete. repeat (split; [reflexivity|]).
    intros id' table rows Hne [= <-] [= <-].
    rewrite !js_get_delete_other by congruence. split; reflexivity.
  - eexists. split; [reflexivity|].
    unfold MemStore.getWarehouseById, MemStore.getInventoryByWarehouse. cbn.
    rewrite js_get_delete. split; [reflexivity|].
    split; [intros items [= <-]; reflexivity|].
    intros id' found Hne [= <-]. rewrite js_get_delete_other by congruence. reflexivity.
Qed.

(** X28. Table rows and product history are kept as one list per key
    and only grow at the end: after [createTableRow] the table's rows are
    the earlier ones followed by the new row, and likewise for
    [createProductHistory] and the item's history; other keys answer as
    before.  Neither checks that the table or the item exists, and neither
    touches the tables or the items.  A row keeps the id it came with and
    gets one made from the clock otherwise. *)
Theorem rows_and_history_append (this : MemStore.State) (row : InsertTableRow)
    (history : InsertProductHistory) :
  (exists newRow this',
     MemStore.createTableRow row this = (Ok newRow, this')
     /\ (forall before,
           MemStore.getTableRows (irow_tableId row) this = (Ok before, this) ->
           MemStore.getTableRows (irow_tableId row) this'
           = (Ok (before ++ [newRow])%list, this'))
     /\ (forall tableId rows,
           tableId <> irow_tableId row ->
           MemStore.getTableRows tableId this = (Ok rows, this) ->
           MemStore.getTableRows tableId this' = (Ok rows, this'))
     /\ row_id newRow = default ("row_" ++ pretty (MemStore.now this)) (irow_id row)
     /\ row_createdAt newRow = MemStore.now this
     /\ MemStore.tables this' = MemStore.tables this)
  /\ (exists newHistory this',
        MemStore.createProductHistory history this = (Ok newHistory, this')
        /\ (forall before,
              MemStore.getProductHistory (ihist_inventoryItemId history) this
              = (Ok before, this) ->
              MemStore.getProductHistory (ihist_inventoryItemId history) this'
              = (Ok (before ++ [newHistory])%list, this'))
        /\ (forall itemId entries,
              itemId <> ihist_inventoryItemId history ->
              MemStore.getProductHistory itemId this = (Ok entries, this) ->
              MemStore.getProductHistory itemId this' = (Ok entries, this'))
        /\ hist_id newHistory = "hist_" ++ pretty (MemStore.now this)
        /\ hist_timestamp newHistory = MemStore.now this
        /\ MemStore.inventoryItems this' = MemStore.inventoryItems this).
Proof.
  split.
  - eexists _, _. split; [reflexivity|].
    unfold MemStore.getTableRows. cbn.
    split; [intros before [= <-]; rewrite js_get_set; reflexivity|].
    split; [|repeat split].
    intros tableId rows Hne [= <-]. rewrite js_get_set_other by congruence. reflexivity.
  - eexists _, _. split; [reflexivity|].
    unfold MemStore.getProductHistory. cbn.
    split; [intros before [= <-]; rewrite js_get_set; reflexivity|].
    split; [|repeat split].
    intros itemId entries Hne [= <-]. rewrite js_get_set_other by congruence. reflexivity.
Qed.

Lemma filter_keeps_all {A} (keep : A -> bool) (items : list A) :
  (forall item, In item items -> keep item = true) -> List.filter keep items = items.
Proof.
  induction items as [| item rest IH]; simpl; auto.
  intros Hall. rewrite (Hall item) by auto. f_equal. auto.
Qed.

Lemma delete_row_in_keys (id : string) (entries : JsMap (list TableRow)) :
  js_keys (delete_row_in id entries) = js_keys entries.
Proof.
  unfold js_keys. induction entries as [| [tableId rows] rest IH]; simpl; auto.
  destruct (negb _); simpl; congruence.
Qed.

Lemma delete_row_in_get (id : string) (entries : JsMap (list TableRow)) (tableId : string) :
  js_get tableId (delete_row_in id entries) = js_get tableId entries
  \/ exists rows,
       js_get tableId entries = Some rows
       /\ js_get tableId (delete_row_in id entries)
          = Some (List.filter (fun row => negb (String.eqb (row_id row) id)) rows).
Proof.
  induction entries as [| [key rows] rest IH]; simpl; auto.
  destruct (negb _); simpl.
  - destruct (String.eqb key tableId); eauto.
  - destruct (String.eqb key tableId); auto.
Qed.

Lemma delete_row_in_once (id : string) (entries : JsMap (list TableRow))
    (tableId tableId' : string) :
  js_get tableId (delete_row_in id entries) <> js_get tableId entries ->
  js_get tableId' (delete_row_in id entries) <> js_get tableId' entries ->
  tableId = tableId'.
Proof.
  induction entries as [| [key rows] rest IH]; simpl; [congruence|].
  destruct (negb _); simpl.
  - destruct (String.eqb key tableId) eqn:H1; [|congruence].
    destruct (String.eqb key tableId') eqn:H2; [|congruence].
    apply String.eqb_eq in H1, H2. congruence.
  - destruct (String.eqb key tableId); [congruence|].
    destruct (String.eqb key tableId'); [congruence|]. exact IH.
Qed.

Lemma delete_row_in_absent (id : string) (entries : JsMap (list TableRow)) :
  (forall tableId rows row,
     In (tableId, rows) entries -> In row rows -> row_id row <> id) ->
  delete_row_in id entries = entries.
Proof.
  induction entries as [| [key rows] rest IH]; simpl; auto.
  intros Hall. rewrite filter_keeps_all.
  - rewrite Nat.eqb_refl. simpl. f_equal. apply IH. eauto.
  - intros row Hin. apply negb_true_iff, String.eqb_neq. eauto.
Qed.

Lemma filter_length_le {A} (keep : A -> bool) (items : list A) :
  (length (List.filter keep items) <= length items)%nat.
Proof.
  induction items as [| item rest IH]; simpl; [lia|].
  destruct (keep item); simpl; lia.
Qed.

Lemma filter_drops_one {A} (keep : A -> bool) (items : list A) (item : A) :
  In item items -> keep item = false ->
  (length (List.filter keep items) < length items)%nat.
Proof.
  induction items as [| first rest IH]; simpl; [tauto|].
  intros [-> | Hin] Hdropped.
  - rewrite Hdropped. pose proof (filter_length_le keep rest). lia.
  - specialize (IH Hin Hdropped). destruct (keep first); simpl; lia.
Qed.

(** The loop stops at the first table that holds a row with the id. *)
Lemma delete_row_in_first (id : string) (before after : JsMap (list TableRow))
    (tableId : string) (rows : list TableRow) (row : TableRow) :
  (forall tableId' rows' row',
     In (tableId', rows') before -> In row' rows' -> row_id row' <> id) ->
  In row rows -> row_id row = id ->
  delete_row_in id (before ++ (tableId, rows) :: after)%list
  = (before
     ++ (tableId, List.filter (fun row => negb (String.eqb (row_id row) id)) rows)
     :: after)%list.
Proof.
  intros Hbefore Hrow Hid.
  induction before as [| [key rows'] before IH]; simpl.
  - assert (Hshorter :
      (length (List.filter (fun row => negb (String.eqb (row_id row) id)) rows)
       < length rows)%nat).
    { apply (filter_drops_one _ rows row Hrow). cbv beta.
      rewrite Hid, String.eqb_refl. reflexivity. }
    rewrite (proj2 (Nat.eqb_neq _ _)); [reflexivity|]. lia.
  - rewrite filter_keeps_all.
    + rewrite Nat.eqb_refl. simpl. f_equal. apply IH.
      intros tableId' rows0 row' Hin. apply (Hbefore tableId' rows0 row'). by right.
    + intros row' Hin. apply negb_true_iff, String.eqb_neq.
      apply (Hbefore key rows' row'); [by left | assumption].
Qed.

(** X29. [deleteTableRow] looks through the tables in order and stops
    at the first that holds a row with the id: that table loses all its
    rows with the id and keeps the others, and no other table changes, so
    rows with the same id in a later table stay.  No table entry is added
    or removed, the tables themselves are untouched, and when no row has
    the id nothing changes at all. *)
Theorem deleteTableRow_clears_one_table (this : MemStore.State) (id : string) :
  exists this',
    MemStore.deleteTableRow id this = (Ok tt, this')
    /\ MemStore.core this' = MemStore.core this
    /\ MemStore.warehouses this' = MemStore.warehouses this
    /\ MemStore.inventoryItems this' = MemStore.inventoryItems this
    /\ MemStore.productHistory this' = MemStore.productHistory this
    /\ MemStore.tables this' = MemStore.tables this
    /\ (forall before after tableId rows row,
          MemStore.tableRows this = (before ++ (tableId, rows) :: after)%list ->
          (forall tableId' rows' row',
             In (tableId', rows') before -> In row' rows' -> row_id row' <> id) ->
          In row rows -> row_id row = id ->
          MemStore.tableRows this'
          = (before
             ++ (tableId,
                 List.filter (fun row => negb (String.eqb (row_id row) id)) rows)
             :: after)%list
          /\ (forall kept, In kept rows -> row_id kept <> id ->
                In kept (List.filter (fun row => negb (String.eqb (row_id row) id)) rows))
          /\ (forall gone, row_id gone = id ->
                ~ In gone (List.filter (fun row => negb (String.eqb (row_id row) id)) rows)))
    /\ ((forall tableId rows row,
           In (tableId, rows) (MemStore.tableRows this) -> In row rows -> row_id row <> id) ->
        this' = this)
    /\ js_keys (MemStore.tableRows this') = js_keys (MemStore.tableRows this)
    /\ (forall tableId tableId',
          (MemStore.getTableRows tableId this').1 <> (MemStore.getTableRows tableId this).1 ->
          (MemStore.getTableRows tableId' this').1 <> (MemStore.getTableRows tableId' this).1 ->
          tableId = tableId').
Proof.
  eexists. split; [reflexivity|].
  unfold MemStore.getTableRows. cbn.
  repeat (split; [reflexivity|]).
  split; [|split; [|split]].
  - intros before after tableId rows row Hsplit Hbefore Hrow Hid.
    rewrite Hsplit. split; [by apply (delete_row_in_first id before after tableId rows row)|].
    split.
    + intros kept Hkept Hother. apply filter_In. split; [assumption|].
      by apply negb_true_iff, String.eqb_neq.
    + intros gone Hgone Hin. apply filter_In in Hin. destruct Hin as [_ Hkeep].
      rewrite Hgone, String.eqb_refl in Hkeep. discriminate.
  - intros Hall. rewrite delete_row_in_absent by exact Hall. destruct this; reflexivity.
  - apply delete_row_in_keys.
  - intros tableId tableId' H1 H2.
    apply (delete_row_in_once id (MemStore.tableRows this)); congruence.
Qed.

(** Two tables hold a row with id "r1": the first loses it, the second
    keeps it. *)
Lemma deleteTableRow_clears_one_table_witness :
  let r1 := mkTableRow "r1" "t1" JNull 10 in
  let r2 := mkTableRow "r2" "t1" JNull 11 in
  let r1' := mkTableRow "r1" "t2" JNull 10 in
  let this :=
    MemStore.mkState (MemStorage.mkState 2000 ∅ []) [] [] [] []
      [("t0", []); ("t1", [r1; r2]); ("t2", [r1'])] in
  exists this',
    MemStore.deleteTableRow "r1" this = (Ok tt, this')
    /\ MemStore.tableRows this' = [("t0", []); ("t1", [r2]); ("t2", [r1'])].
Proof.
  intros r1 r2 r1' this.
  destruct (deleteTableRow_clears_one_table this "r1")
    as (this' & Hrun & _ & _ & _ & _ & _ & Hfirst & _).
  exists this'. split; [exact Hrun|].
  destruct (Hfirst [("t0", [])] [("t2", [r1'])] "t1" [r1; r2] r1 eq_refl) as [Hrows _].
  - intros tableId' rows' row' [[= <- <-] | []] [].
  - left. reflexivity.
  - reflexivity.
  - exact Hrows.
Defined.

Lemma recent_first {A} (items : list A) :
  rev (js_slice_from (-5) items) = take 5 (rev items).
Proof.
  unfold js_slice_from. change (-5 <? 0) with true. cbv iota.
  rewrite firstn_rev. do 2 f_equal. lia.
Qed.

(** X30. [getDashboardStats] reads and never writes.  The counts are
    those of the listings; the low-stock and the expiring counts never
    exceed the item count; and the recent activity is the last five audit
    entries (all of them when there are fewer), newest first, each with
    the action as both type and description. *)
Theorem dashboard_stats_read_the_store (addDays : Time -> Z -> Time)
    (toISOString : Time -> string) (this : MemStore.State) :
  exists stats,
    MemStore.getDashboardStats addDays toISOString this = (Ok stats, this)
    /\ (forall listed,
          MemStore.getWarehouses this = (Ok listed, this) ->
          totalWarehouses stats = length listed)
    /\ (forall listed,
          MemStore.getInventoryItems this = (Ok listed, this) ->
          totalInventoryItems stats = length listed)
    /\ (forall listed,
          MemStore.getLowStockItems (Some 10) this = (Ok listed, this) ->
          lowStockCount stats = length listed)
    /\ (lowStockCount stats <= totalInventoryItems stats)%nat
    /\ (expiringCount stats <= totalInventoryItems stats)%nat
    /\ length (recentActivity stats)
       = Nat.min 5 (length (MemStorage.auditLogs (MemStore.core this)))
    /\ List.map activity_type (recentActivity stats)
       = take 5 (rev (List.map log_action (MemStorage.auditLogs (MemStore.core this))))
    /\ List.map activity_description (recentActivity stats)
       = List.map activity_type (recentActivity stats)
    /\ List.map activity_timestamp (recentActivity stats)
       = take 5 (rev (List.map (fun log => toISOString (log_timestamp log))
                        (MemStorage.auditLogs (MemStore.core this)))).
Proof.
  eexists. split; [reflexivity|]. cbn [totalWarehouses totalInventoryItems lowStockCount
    expiringCount recentActivity].
  split; [intros listed [= <-]; reflexivity|].
  split; [intros listed [= <-]; reflexivity|].
  split; [intros listed [= <-]; reflexivity|].
  split; [apply filter_length_le|]. split; [apply filter_length_le|].
  rewrite recent_first.
  split; [rewrite length_map, length_take, length_rev; lia|].
  rewrite !map_map. cbn.
  rewrite <- !firstn_map, !map_rev. auto.
Qed.
